(** * Hue Spark connector ([notebook/connectors/spark_shell.py])

    A shallow embedding of [SparkApi], the Livy session lifecycle manager
    of Hue's notebook application, and of [SparkConfiguration], followed
    by the properties of it that the specification states.

    Conventions of the embedding.
    - Text is [String.string], a sequence of 8-bit characters.  On this
      alphabet [str.lower] maps [A-Z] to [a-z] and the regex class [\d]
      is [0-9].
    - JSON-shaped Python data is the type [value]; JSON numbers are
      integers (floats do not occur in the modelled paths).
    - Exceptions are the type [exn]; a computation that may raise
      returns a [result].
    - [gettext] ([_]) is the identity. *)

From Stdlib Require Import ZArith String Ascii List Bool Lia.
From stdpp Require Import base option list gmap sets strings.
From Equations Require Import Equations.

#[local] Set Warnings "-clear-no-such-hyp".

Local Open Scope string_scope.
Local Open Scope Z_scope.
Local Open Scope list_scope.

(** ** Python values, dictionaries and exceptions *)

Module Py.

Inductive exn : Type :=
| KeyError (key : string)
| TypeError (msg : string)
| AttributeError (msg : string)
| RestException (code : Z) (msg : string)
| Exception (msg : string)
| QueryError (msg : string)
| PopupException (msg : string)
| SessionExpired (cause : exn).

(** [str(e)].  [SessionExpired(e)] is built from the exception it
    wraps, and prints like it. *)
Fixpoint str_exn (e : exn) : string :=
  match e with
  | KeyError key => "'" +:+ key +:+ "'"
  | TypeError msg | AttributeError msg | Exception msg
  | QueryError msg | PopupException msg => msg
  | RestException _ msg => msg
  | SessionExpired cause => str_exn cause
  end.

Inductive result (A : Type) : Type :=
| Ok (a : A)
| Raise (e : exn).
Arguments Ok {A} a.
Arguments Raise {A} e.

#[global] Instance result_ret : MRet result := λ A a, Ok a.
#[global] Instance result_bind : MBind result := λ A B k r,
  match r with
  | Ok a => k a
  | Raise e => Raise e
  end.

#[local] Unset Elimination Schemes.
Inductive value : Type :=
| VNone
| VBool (b : bool)
| VInt (z : Z)
| VStr (s : string)
| VList (l : list value)
| VDict (d : list (value * value)).
#[local] Set Elimination Schemes.

(** A dict keeps its items in insertion order; its keys are hashable
    and pairwise different for [==]. *)
Abbreviation dict := (list (value * value)).

Definition hashable (v : value) : bool :=
  match v with
  | VList _ | VDict _ => false
  | _ => true
  end.

(** [k1 == k2] on hashable values: [True == 1] and [False == 0]. *)
Definition key_eqb (k1 k2 : value) : bool :=
  match k1, k2 with
  | VNone, VNone => true
  | VBool a, VBool b => Bool.eqb a b
  | VBool a, VInt z | VInt z, VBool a => Z.eqb (Z.b2z a) z
  | VInt a, VInt b => Z.eqb a b
  | VStr a, VStr b => String.eqb a b
  | _, _ => false
  end.

(** [d.get(k)] *)
Fixpoint dict_get (d : dict) (k : value) : option value :=
  match d with
  | [] => None
  | (k', v) :: d' => if key_eqb k' k then Some v else dict_get d' k
  end.

(** [k in d] *)
Definition dict_mem (d : dict) (k : value) : bool :=
  match dict_get d k with Some _ => true | None => false end.

(** [d[k] = v] for a hashable [k]: an existing key keeps its place. *)
Fixpoint dict_set (d : dict) (k v : value) : dict :=
  match d with
  | [] => [(k, v)]
  | (k', v') :: d' =>
      if key_eqb k' k then (k', v) :: d' else (k', v') :: dict_set d' k v
  end.

(** [d[k] = v] *)
Definition dict_setitem (d : dict) (k v : value) : result dict :=
  if hashable k then Ok (dict_set d k v)
  else Raise (TypeError "unhashable type").

(** [dict(pairs)] *)
Fixpoint dict_of_pairs (acc : dict) (pairs : list (value * value)) : result dict :=
  match pairs with
  | [] => Ok acc
  | (k, v) :: rest => acc' ← dict_setitem acc k v; dict_of_pairs acc' rest
  end.

(** [d.update(other)] *)
Definition dict_update (d other : dict) : dict :=
  fold_left (λ acc kv, dict_set acc kv.1 kv.2) other d.

(** [v[k]] for a string [k] *)
Definition getitem (v : value) (k : string) : result value :=
  match v with
  | VDict d =>
      match dict_get d (VStr k) with
      | Some x => Ok x
      | None => Raise (KeyError k)
      end
  | _ => Raise (TypeError "indices must be integers")
  end.

(** [v.get(k)]; only a dict has the method. *)
Definition get_method (v : value) (k : string) : result value :=
  match v with
  | VDict d => Ok (default VNone (dict_get d (VStr k)))
  | _ => Raise (AttributeError "object has no attribute 'get'")
  end.

Fixpoint chars (s : string) : list value :=
  match s with
  | EmptyString => []
  | String c s' => VStr (String c EmptyString) :: chars s'
  end.

(** The items a [for] loop sees. *)
Definition iter (v : value) : result (list value) :=
  match v with
  | VList l => Ok l
  | VDict d => Ok (map fst d)
  | VStr s => Ok (chars s)
  | _ => Raise (TypeError "object is not iterable")
  end.

(** [s.split(sep)] for a one-character separator. *)
Fixpoint split (sep : ascii) (s : string) : list string :=
  match s with
  | EmptyString => [EmptyString]
  | String c s' =>
      if Ascii.eqb c sep then EmptyString :: split sep s'
      else match split sep s' with
           | h :: t => String c h :: t
           | [] => [String c EmptyString]
           end
  end.

Definition lower_char (c : ascii) : ascii :=
  let n := nat_of_ascii c in
  if (Nat.leb 65 n && Nat.leb n 90)%bool then ascii_of_nat (n + 32) else c.

(** [s.lower()] *)
Fixpoint lower (s : string) : string :=
  match s with
  | EmptyString => EmptyString
  | String c s' => String (lower_char c) (lower s')
  end.

(** [sep.join(l)] *)
Fixpoint join (sep : string) (l : list string) : string :=
  match l with
  | [] => EmptyString
  | [x] => x
  | x :: rest => x +:+ sep +:+ join sep rest
  end.

End Py.

(** ** [SparkConfiguration] *)

Module SparkConfiguration.
Import Py.

(** One entry of [PROPERTIES].  The source holds it as a dict with
    exactly these keys. *)
Record PropertyDefinition : Type := {
  name : string;
  nice_name : string;
  help_text : string;
  type : string;
  is_yarn : bool;
  multiple : bool;
  defaultValue : value;
  value_ : value;
}.

(** [p['value'] = v] on a copy of [p] *)
Definition set_value (p : PropertyDefinition) (v : value) : PropertyDefinition :=
  {| name := name p; nice_name := nice_name p; help_text := help_text p;
     type := type p; is_yarn := is_yarn p; multiple := multiple p;
     defaultValue := defaultValue p; value_ := v |}.

Definition APP_NAME : string := "spark".

Definition PROPERTIES : list PropertyDefinition := [
  {| name := "conf";
     nice_name := "Spark Conf";
     help_text := "Add one or more Spark conf properties to the session.";
     type := "settings"; is_yarn := false; multiple := true;
     defaultValue := VList []; value_ := VList [] |};
  {| name := "jars";
     nice_name := "Jars";
     help_text := "Add one or more JAR files to the list of resources.";
     type := "csv-hdfs-files"; is_yarn := false; multiple := true;
     defaultValue := VList []; value_ := VList [] |};
  {| name := "files";
     nice_name := "Files";
     help_text := "Files to be placed in the working directory of each executor.";
     type := "csv-hdfs-files"; is_yarn := false; multiple := true;
     defaultValue := VList []; value_ := VList [] |};
  {| name := "pyFiles";
     nice_name := "pyFiles";
     help_text := "Python files to be placed in the working directory of each executor.";
     type := "csv-hdfs-files"; is_yarn := false; multiple := true;
     defaultValue := VList []; value_ := VList [] |};
  {| name := "driverMemory";
     nice_name := "Driver Memory";
     help_text := "Amount of memory to use for the driver process in GB. (Default: 1). ";
     type := "jvm"; is_yarn := false; multiple := false;
     defaultValue := VStr "1G"; value_ := VStr "1G" |};
  (* YARN-only properties *)
  {| name := "driverCores";
     nice_name := "Driver Cores";
     help_text := "Number of cores used by the driver, only in cluster mode (Default: 1)";
     type := "number"; is_yarn := true; multiple := false;
     defaultValue := VInt 1; value_ := VInt 1 |};
  {| name := "executorMemory";
     nice_name := "Executor Memory";
     help_text := "Amount of memory to use per executor process in GB. (Default: 1)";
     type := "jvm"; is_yarn := true; multiple := false;
     defaultValue := VStr "1G"; value_ := VStr "1G" |};
  {| name := "executorCores";
     nice_name := "Executor Cores";
     help_text := "Number of cores used by the driver, only in cluster mode (Default: 1)";
     type := "number"; is_yarn := true; multiple := false;
     defaultValue := VInt 1; value_ := VInt 1 |};
  {| name := "queue";
     nice_name := "Queue";
     help_text := "The YARN queue to submit to, only in cluster mode (Default: default)";
     type := "string"; is_yarn := true; multiple := false;
     defaultValue := VStr "default"; value_ := VStr "default" |};
  {| name := "archives";
     nice_name := "Archives";
     help_text := "Archives to be extracted into the working directory of each executor, only in cluster mode.";
     type := "csv-hdfs-files"; is_yarn := true; multiple := true;
     defaultValue := VList []; value_ := VList [] |}
].

End SparkConfiguration.

(** ** [SparkApi]: the property merge *)

Module Props.
Import Py SparkConfiguration.

(** [[(p['name'], p['value']) for p in properties
      if 'name' in p.keys() and 'value' in p.keys()]] *)
Fixpoint named_values (properties : list value) : result (list (value * value)) :=
  match properties with
  | [] => Ok []
  | VDict p :: rest =>
      if dict_mem p (VStr "name") && dict_mem p (VStr "value") then
        n ← getitem (VDict p) "name";
        v ← getitem (VDict p) "value";
        tl ← named_values rest;
        mret ((n, v) :: tl)
      else named_values rest
  | _ :: _ => Raise (AttributeError "object has no attribute 'keys'")
  end.

(** One round of the loop over ['archives', 'jars', 'files', 'pyFiles']
    (HUE-4761): a value that is not a list is split at its commas. *)
Definition coerce_list (props : dict) (key : string) : result dict :=
  match dict_get props (VStr key) with
  | None => Ok props
  | Some (VList _) => Ok props
  | Some (VStr _tmp) => Ok (dict_set props (VStr key) (VList (map VStr (split "," _tmp))))
  | Some _ => Raise (AttributeError "object has no attribute 'split'")
  end.

Fixpoint coerce_lists (props : dict) (keys : list string) : result dict :=
  match keys with
  | [] => Ok props
  | key :: rest => props' ← coerce_list props key; coerce_lists props' rest
  end.

(** [{conf.get('key'): conf.get('value') for i, conf in enumerate(items)}] *)
Fixpoint conf_dict (acc : dict) (items : list value) : result dict :=
  match items with
  | [] => Ok acc
  | conf :: rest =>
      k ← get_method conf "key";
      v ← get_method conf "value";
      acc' ← dict_setitem acc k v;
      conf_dict acc' rest
  end.

Definition default_props : dict :=
  map (λ p, (VStr (name p), value_ p)) PROPERTIES.

(** [SparkApi.get_livy_props(lang, properties)].  Its three
    [LOG.debug] calls do not touch [props]; they are left out, so the
    debug records of [get_livy_props] are no events of a trace. *)
Definition get_livy_props (lang : string) (properties : option (list value))
  : result dict :=
  props ← dict_of_pairs [] default_props;
  props ← match properties with
          | None => Ok props
          | Some ps =>
              pairs ← named_values ps;
              upd ← dict_of_pairs [] pairs;
              mret (dict_update props upd)
          end;
  props ← coerce_lists props ["archives"; "jars"; "files"; "pyFiles"];
  conf ← getitem (VDict props) "conf";
  items ← iter conf;
  conf' ← conf_dict [] items;
  let props := dict_set props (VStr "conf") (VDict conf') in
  let props := dict_set props (VStr "kind")
                 (VStr (if String.eqb lang "sparksql" then "sql" else lang)) in
  mret props.

(** [SparkApi.to_properties(props)] *)
Definition to_properties (props : option dict) : list PropertyDefinition :=
  let properties := PROPERTIES in
  match props with
  | None => properties
  | Some props =>
      map (λ p, if dict_mem props (VStr (name p))
                then set_value p (default VNone (dict_get props (VStr (name p))))
                else p) properties
  end.

End Props.

(** ** Regular expressions ([re])

    A backtracking matcher for the fragment of [re] that the patterns
    of [SparkApi] are written in: literals, character classes, [r?],
    [[class]+] and capture groups, all quantifiers greedy. *)

Module Re.

Inductive regex : Type :=
| Eps
| Lit (c : ascii)
| Cls (p : ascii → bool)
| Cat (r1 r2 : regex)
| Opt (r : regex)
| Plus (p : ascii → bool)
| Grp (n : nat) (r : regex).

(** A literal run of characters. *)
Fixpoint lits (s : string) : regex :=
  match s with
  | EmptyString => Eps
  | String c s' => Cat (Lit c) (lits s')
  end.

(** [\d] *)
Definition digit (c : ascii) : bool :=
  let n := nat_of_ascii c in (Nat.leb 48 n && Nat.leb n 57)%bool.

Definition between (lo hi : nat) (c : ascii) : bool :=
  let n := nat_of_ascii c in (Nat.leb lo n && Nat.leb n hi)%bool.

(** The captured groups, most recent first. *)
Abbreviation groups := (list (nat * string)).

Fixpoint lookup_group (g : groups) (n : nat) : option string :=
  match g with
  | [] => None
  | (m, s) :: g' => if Nat.eqb m n then Some s else lookup_group g' n
  end.

(** The first [n] characters of [s]. *)
Fixpoint take_str (n : nat) (s : string) : string :=
  match n, s with
  | S n', String c s' => String c (take_str n' s')
  | _, _ => EmptyString
  end.

(** What was read between the input [s] and its suffix [s']. *)
Definition consumed (s s' : string) : string :=
  take_str (String.length s - String.length s') s.

Section Matcher.
Context {A : Type}.

(** [[class]+]: the longest run first, then shorter ones. *)
Fixpoint plus_cls (p : ascii → bool) (s : string) (k : string → option A)
  : option A :=
  match s with
  | String c s' =>
      if p c then
        match plus_cls p s' k with
        | Some x => Some x
        | None => k s'
        end
      else None
  | EmptyString => None
  end.

(** Match [r] at the start of [s], then go on with [k] on the rest;
    [None] makes the matcher try its next alternative. *)
Fixpoint exec (r : regex) (s : string) (g : groups)
  (k : string → groups → option A) : option A :=
  match r with
  | Eps => k s g
  | Lit c =>
      match s with
      | String c' s' => if Ascii.eqb c c' then k s' g else None
      | EmptyString => None
      end
  | Cls p =>
      match s with
      | String c' s' => if p c' then k s' g else None
      | EmptyString => None
      end
  | Cat r1 r2 => exec r1 s g (λ s' g', exec r2 s' g' k)
  | Opt r' =>
      match exec r' s g k with
      | Some x => Some x
      | None => k s g
      end
  | Plus p => plus_cls p s (λ s', k s' g)
  | Grp n r' => exec r' s g (λ s' g', k s' ((n, consumed s s') :: g'))
  end.
End Matcher.

(** A match object: its groups and the text that follows the match. *)
Record match_object : Type := { captures : groups; rest : string }.

(** [m.group(n)], for a group that took part in the match. *)
Definition group (m : match_object) (n : nat) : string :=
  default EmptyString (lookup_group (captures m) n).

(** [pattern.match(s)] *)
Definition match_here (r : regex) (s : string) : option match_object :=
  exec r s [] (λ s' g, Some {| captures := g; rest := s' |}).

(** [pattern.search(s)]: the leftmost match. *)
Fixpoint search (r : regex) (s : string) : option match_object :=
  match match_here r s with
  | Some m => Some m
  | None =>
      match s with
      | String _ s' => search r s'
      | EmptyString => None
      end
  end.

(** [pattern.finditer(s)]: the matches from left to right, each
    search starting where the match before it ended (one character
    further after an empty match). *)
Equations finditer (r : regex) (s : string) : list match_object
  by wf (String.length s) lt :=
  finditer r s with match_here r s := {
    | Some m with lt_dec (String.length (rest m)) (String.length s) := {
        | left _ => m :: finditer r (rest m)
        | right _ with s := {
            | EmptyString => [m]
            | String _ s' => m :: finditer r s' } }
    | None with s := {
        | EmptyString => []
        | String _ s' => finditer r s' } }.

(** What follows [pat] in [s], if [s] starts with [pat]. *)
Fixpoint strip_prefix (pat s : string) : option string :=
  match pat, s with
  | EmptyString, _ => Some s
  | String a pat', String b s' => if Ascii.eqb a b then strip_prefix pat' s' else None
  | String _ _, EmptyString => None
  end.

(** [pat in s] *)
Fixpoint contains (pat s : string) : bool :=
  bool_decide (is_Some (strip_prefix pat s)) ||
  match s with
  | String _ s' => contains pat s'
  | EmptyString => false
  end.

(** The suffixes of [s], longest first. *)
Fixpoint suffixes (s : string) : list string :=
  s :: match s with
       | String _ s' => suffixes s'
       | EmptyString => []
       end.

(** Every character of [s] is in the class [p]. *)
Fixpoint all_chars (p : ascii → bool) (s : string) : bool :=
  match s with
  | EmptyString => true
  | String c s' => p c && all_chars p s'
  end.

End Re.

(** ** [SparkApi]: jobs of a session, read from its log *)

Module Jobs.
Import Re.

(** The class [[0-9a-zA-Z-_\.]] *)
Definition host_char (c : ascii) : bool :=
  between 48 57 c || between 97 122 c || between 65 90 c
  || Ascii.eqb c "-" || Ascii.eqb c "_" || Ascii.eqb c ".".

(** ["Started SparkUI at (http[s]?://([0-9a-zA-Z-_\.]+):(\d+))"] *)
Definition SPARK_UI_RE : regex :=
  Cat (lits "Started SparkUI at ")
    (Grp 1 (Cat (lits "http") (Cat (Opt (Lit "s")) (Cat (lits "://")
       (Cat (Grp 2 (Plus host_char)) (Cat (Lit ":") (Grp 3 (Plus digit)))))))).

(** ["Got job (\d+)"] *)
Definition STANDALONE_JOB_RE : regex :=
  Cat (lits "Got job ") (Grp 1 (Plus digit)).

Inductive level : Type := DEBUG | WARNING.

(** A record handed to [LOG]. *)
Record log_record : Type := { lr_level : level; lr_message : string }.

(** An entry of the jobs list: [{'name': ..., 'url': ...}]. *)
Record job : Type := { name : string; url : string }.

(** The [job_ids] set after the [finditer] loop. *)
Definition job_ids (logs : string) : gset string :=
  fold_left (λ acc m, acc ∪ {[ group m 1 ]}) (finditer STANDALONE_JOB_RE logs) ∅.

(** [SparkApi._get_standalone_jobs(logs)], with the records it logs.
    The comprehension walks the set [job_ids] in the order of
    [elements]; Python leaves the order of a set open as well. *)
Definition _get_standalone_jobs (logs : string) : list log_record * list job :=
  match search SPARK_UI_RE logs with
  | None =>
      ([{| lr_level := WARNING;
           lr_message := "Could not find the Spark UI URL in the session logs." |}],
       [])
  | Some m =>
      let spark_ui_url := group m 1 in
      ([], map (λ job_id, {| name := job_id;
                             url := spark_ui_url +:+ "/jobs/job/?id=" +:+ job_id |})
             (elements (job_ids logs)))
  end.

(** The entry of the jobs list for [job_id]. *)
Definition job_entry (spark_ui_url job_id : string) : job :=
  {| name := job_id; url := spark_ui_url +:+ "/jobs/job/?id=" +:+ job_id |}.

(** The warning of [_get_standalone_jobs]. *)
Definition no_ui_warning : log_record :=
  {| lr_level := WARNING;
     lr_message := "Could not find the Spark UI URL in the session logs." |}.

(** A driver log of local mode, with the UI line and three jobs lines
    for two jobs. *)
Definition sample_log : string :=
  "INFO Utils: Started SparkUI at http://host-1.example.com:4040"
  +:+ String "010"%char "INFO DAGScheduler: Got job 0 (collect) with 2 output partitions"
  +:+ String "010"%char "INFO DAGScheduler: Got job 12 (count) with 1 output partitions"
  +:+ String "010"%char "INFO DAGScheduler: Got job 0 finished".

(** A log without the UI line. *)
Definition quiet_log : string := "Got job 3".

End Jobs.

(** ** [SparkApi]: sessions and statements *)

Module SparkApi.
Import Py SparkConfiguration Props.

(** *** What the Livy client returns *)

(** A session as Livy describes it, in [get_session] and in the
    ['sessions'] list of [get_sessions]. *)
Record LivySession : Type := {
  ls_id : Z;
  ls_owner : option string;
  ls_state : string;
  ls_log : list string;
}.

(** The answer of [fetch_data]: [{'state': ..., 'output': ...}]. *)
Record FetchResponse : Type := { fr_state : string; fr_output : value }.

(** The session info kept in the user's profile and handed around by
    the notebook: [{'type': ..., 'id': ..., 'properties': ...}].  The
    [id] may be [None]. *)
Record SessionInfo : Type := {
  si_type : string;
  si_id : option Z;
  si_properties : list PropertyDefinition;
}.

Inductive level : Type := DEBUG | WARNING.

(** What a run does to the world around it, latest first. *)
Inductive event : Type :=
| GetSession (session_id : option Z) (r : result LivySession)
| CreateSession (props : dict) (r : result Z)
| Close (session_id : option Z) (r : result unit)
| SubmitStatement (session_id : option Z) (statement : string) (r : result Z)
| FetchData (session_id : option Z) (cell : Z) (r : result FetchResponse)
| GetSessions (r : result (list LivySession))
| Sleep (seconds : Z)
| Log (lvl : level) (msg : string)
| StoreGet (key : string)
| StorePut (key : string) (info : SessionInfo)
| StoreDelete (key : string).

(** The client that [get_api] returns, over the state [R] of the
    remote service.  [api_create_session] and [api_submit_statement]
    return the ['id'] of their response. *)
Class LivyApi (R : Type) : Type := {
  api_get_session : option Z → R → result LivySession * R;
  api_create_session : dict → R → result Z * R;
  api_close : option Z → R → result unit * R;
  api_submit_statement : option Z → string → R → result Z * R;
  api_fetch_data : option Z → Z → R → result FetchResponse * R;
  api_get_sessions : R → result (list LivySession) * R;
}.

(** The receiver: the user, the interpreter, and the configuration
    that [create_session] reads ([USE_DEFAULT_CONFIGURATION] and the
    [properties_list] of the user's default configuration, if any). *)
Record Self : Type := {
  username : string;
  interpreter_name : string;
  use_default_configuration : bool;
  default_configuration : option (list value);
}.

Record World (R : Type) : Type := {
  remote : R;
  profile : gmap string SessionInfo;
  trace : list event;
}.
Arguments remote {R} _.
Arguments profile {R} _.
Arguments trace {R} _.

Record close_response : Type := { cr_session : option Z; cr_status : Z }.

Record execute_response : Type := {
  er_id : Z; er_has_result_set : bool; er_sync : bool
}.

(** A row of ['meta']. *)
Record column : Type := { c_name : value; c_type : value; c_comment : string }.

(** The dict that [_fetch_result] returns. *)
Record ResultPayload : Type := {
  rp_data : value;
  rp_images : list value;
  rp_meta : list column;
  rp_type : string;
}.

(** [x in ('dead', 'shutting_down', 'error', 'killed')] *)
Definition is_unhealthy (state : string) : bool :=
  bool_decide (state ∈ ["dead"; "shutting_down"; "error"; "killed"]).

(** [x in ('idle', 'shutting_down', 'error', 'dead', 'killed')] *)
Definition is_unused (state : string) : bool :=
  bool_decide (state ∈ ["idle"; "shutting_down"; "error"; "dead"; "killed"]).

(** [x in ['running', 'waiting']] *)
Definition is_pending (state : string) : bool :=
  bool_decide (state ∈ ["running"; "waiting"]).

(** ["session ('\d+' )?not found"] *)
Definition SESSION_NOT_FOUND_RE : Re.regex :=
  Re.Cat (Re.lits "session ")
    (Re.Cat (Re.Opt (Re.Grp 1 (Re.Cat (Re.Lit "'")
               (Re.Cat (Re.Plus Re.digit) (Re.lits "' ")))))
       (Re.lits "not found")).

(** The test of [_execute] on the lowered message of an exception. *)
Definition is_expired_message (message : string) : bool :=
  bool_decide (is_Some (Re.search SESSION_NOT_FOUND_RE message))
  || Re.contains "connection refused" message
  || Re.contains "session is in state busy" message.

(** [bool(v)] *)
Definition truthy (v : value) : bool :=
  match v with
  | VNone => false
  | VBool b => b
  | VInt z => negb (Z.eqb z 0)
  | VStr s => negb (String.eqb s "")
  | VList l => match l with [] => false | _ => true end
  | VDict d => match d with [] => false | _ => true end
  end.

(** [''.join(items)] *)
Fixpoint join_values (items : list value) : result string :=
  match items with
  | [] => Ok ""
  | VStr s :: rest => tl ← join_values rest; mret (s +:+ tl)
  | _ :: _ => Raise (TypeError "sequence item: expected str instance")
  end.

(** [[{'name': h['name'], 'type': h['type'], 'comment': ''} for h in headers]] *)
Fixpoint columns (headers : list value) : result (list column) :=
  match headers with
  | [] => Ok []
  | h :: rest =>
      n ← getitem h "name";
      t ← getitem h "type";
      tl ← columns rest;
      mret ({| c_name := n; c_type := t; c_comment := "" |} :: tl)
  end.

(** The [try ... except KeyError ... else] block of [_fetch_result]:
    the rows, images, columns and type read from [data]. *)
Definition read_data (data : value)
  : result (value * list value * list column * string) :=
  match getitem data "application/vnd.livy.table.v1+json" with
  | Raise (KeyError _) =>
      images ← match getitem data "image/png" with
               | Ok png => Ok [png]
               | Raise (KeyError _) => Ok []
               | Raise e => Raise e
               end;
      match data with
      | VDict d =>
          if dict_mem d (VStr "application/json") then
            result ← getitem data "application/json";
            data ← getitem result "data";
            schema ← getitem result "schema";
            fields ← getitem schema "fields";
            fields ← iter fields;
            meta ← columns fields;
            mret (data, images, meta, "table")
          else
            text ← getitem data "text/plain";
            mret (VList [VList [text]], images,
                  [{| c_name := VStr "Header"; c_type := VStr "STRING_TYPE";
                      c_comment := "" |}],
                  "text")
      | _ => Raise (TypeError "argument is not iterable")
      end
  | Raise e => Raise e
  | Ok table =>
      data ← getitem table "data";
      headers ← getitem table "headers";
      headers ← iter headers;
      meta ← columns headers;
      mret (data, [], meta, "table")
  end.

Section Normalize.
(** [str(v)], as ['%s' % v] prints a value. *)
Variable str_value : value → string.

(** The body of [_fetch_result] from [content = response['output']]
    on.  [None] is the fall through when the status is neither
    ['ok'] nor ['error']. *)
Definition fetch_result_content (content : value) (start_over : bool)
  : result (option ResultPayload) :=
  status ← getitem content "status";
  match status with
  | VStr "ok" =>
      data ← getitem content "data";
      '(data, images, meta, type) ← read_data data;
      (* Non start_over not supported *)
      let data := if negb start_over then VList [] else data in
      mret (Some {| rp_data := data; rp_images := images;
                    rp_meta := meta; rp_type := type |})
  | VStr "error" =>
      tb ← get_method content "traceback";
      msg ← (if negb (truthy tb) then
               let msg := match content with
                          | VDict d => default (VStr "unknown error")
                                         (dict_get d (VStr "ename"))
                          | _ => VStr "unknown error"
                          end in
               evalue ← get_method content "evalue";
               match evalue with
               | VNone => mret (str_value msg)
               | _ => mret (str_value msg +:+ ": " +:+ str_value evalue)
               end
             else
               items ← iter tb;
               join_values items);
      Raise (QueryError msg)
  | _ => mret None
  end.
End Normalize.

(** *** The methods of [SparkApi]

    A method is a function of the world: the state of the remote
    service, the session infos in the user's profile, and the trace
    of what was done so far. *)

Section Methods.
Context {R : Type} `{!LivyApi R}.
Variable self : Self.
Variable str_value : value → string.

Definition M (A : Type) : Type := World R → result A * World R.

#[export] Instance M_ret : MRet M := λ A a w, (Ok a, w).
#[export] Instance M_bind : MBind M := λ A B k m w,
  match m w with
  | (Ok a, w') => k a w'
  | (Raise e, w') => (Raise e, w')
  end.

Definition raise {A} (e : exn) : M A := λ w, (Raise e, w).

Definition lift {A} (r : result A) : M A := λ w, (r, w).

(** [try: m  except Exception as e: h e] *)
Definition try_except {A} (m : M A) (h : exn → M A) : M A := λ w,
  match m w with
  | (Ok a, w') => (Ok a, w')
  | (Raise e, w') => h e w'
  end.

(** [try: m  finally: f] *)
Definition try_finally {A} (m : M A) (f : M unit) : M A := λ w,
  match m w with
  | (r, w') =>
      match f w' with
      | (Ok _, w'') => (r, w'')
      | (Raise e, w'') => (Raise e, w'')
      end
  end.

Definition emit (e : event) : M unit := λ w,
  (Ok tt, {| remote := remote w; profile := profile w; trace := e :: trace w |}).

(** A call of the client, recorded with its outcome. *)
Definition call {A} (op : R → result A * R) (ev : result A → event) : M A := λ w,
  match op (remote w) with
  | (r, remote') =>
      (r, {| remote := remote'; profile := profile w; trace := ev r :: trace w |})
  end.

Definition get_session (session_id : option Z) : M LivySession :=
  call (api_get_session session_id) (GetSession session_id).
Definition close (session_id : option Z) : M unit :=
  call (api_close session_id) (Close session_id).
Definition submit_statement (session_id : option Z) (statement : string) : M Z :=
  call (api_submit_statement session_id statement)
    (SubmitStatement session_id statement).
Definition fetch_data (session_id : option Z) (cell : Z) : M FetchResponse :=
  call (api_fetch_data session_id cell) (FetchData session_id cell).
Definition get_sessions : M (list LivySession) :=
  call api_get_sessions GetSessions.

(** [time.sleep(seconds)] *)
Definition sleep (seconds : Z) : M unit := emit (Sleep seconds).

(** [SESSION_KEY % {...}], by [_get_session_key] *)
Definition _get_session_key : string :=
  username self +:+ "-" +:+ interpreter_name self.

Definition _get_session_info_from_user : M (option SessionInfo) := λ w,
  (Ok (profile w !! _get_session_key),
   {| remote := remote w; profile := profile w;
      trace := StoreGet _get_session_key :: trace w |}).

Definition _set_session_info_to_user (session_info : SessionInfo) : M unit := λ w,
  (Ok tt,
   {| remote := remote w;
      profile := <[_get_session_key := session_info]> (profile w);
      trace := StorePut _get_session_key session_info :: trace w |}).

Definition _remove_session_info_from_user : M unit := λ w,
  match profile w !! _get_session_key with
  | Some _ =>
      (Ok tt,
       {| remote := remote w;
          profile := delete _get_session_key (profile w);
          trace := StoreDelete _get_session_key
                     :: StoreGet _get_session_key :: trace w |})
  | None =>
      (Ok tt,
       {| remote := remote w; profile := profile w;
          trace := StoreGet _get_session_key :: trace w |})
  end.

(** [_check_session(session)]; it reads [session['id']] only. *)
Definition _check_session (session_id : option Z) : M (option LivySession) :=
  session_present ← try_except (s ← get_session session_id; mret (Some s))
                               (λ _, mret None);
  match session_present with
  | Some s => if negb (is_unhealthy (ls_state s)) then mret (Some s) else mret None
  | None => mret None
  end.

(** The loop of [create_session]:
    [while status['state'] == 'starting' and count < 120],
    with [attempts = 120 - count]. *)
Fixpoint wait_while_starting (attempts : nat) (session_id : Z)
  (status : LivySession) : M LivySession :=
  if String.eqb (ls_state status) "starting" then
    match attempts with
    | O => mret status
    | S attempts' =>
        status' ← get_session (Some session_id);
        _ ← sleep 1;
        wait_while_starting attempts' session_id status'
    end
  else mret status.

(** The message of the [QueryError] of [create_session]. *)
Definition creation_error (status : LivySession) : string :=
  let info := match ls_log status with
              | [] => "timeout"
              | _ => join (String "010"%char "") (ls_log status)
              end in
  "The Spark session is " +:+ ls_state status
    +:+ " and could not be created in the cluster: " +:+ info.

(** [create_session] from [if not properties and
    USE_DEFAULT_CONFIGURATION.get()] on: the new session.  The debug
    records that [get_livy_props] writes on the way leave no event. *)
Definition new_session (lang : string) (properties : option (list value))
  : M SessionInfo :=
  let no_properties := match properties with
                       | None | Some [] => true
                       | Some _ => false
                       end in
  let properties :=
    if no_properties && use_default_configuration self then
      match default_configuration self with
      | Some properties_list => Some properties_list
      | None => properties
      end
    else properties in
  props ← lift (get_livy_props lang properties);
  response_id ← call (api_create_session props) (CreateSession props);
  status ← get_session (Some response_id);
  status ← wait_while_starting 120 response_id status;
  if negb (String.eqb (ls_state status) "idle") then
    raise (QueryError (creation_error status))
  else
    let new_session_info :=
      {| si_type := lang; si_id := Some response_id;
         si_properties := to_properties (Some props) |} in
    _ ← _set_session_info_to_user new_session_info;
    mret new_session_info.

(** [create_session(lang, properties)] *)
Definition create_session (lang : string) (properties : option (list value))
  : M SessionInfo :=
  stored_session_info ← _get_session_info_from_user;
  reused ← match stored_session_info with
           | Some info =>
               session_present ← _check_session (si_id info);
               mret (match session_present : option LivySession with
                     | Some _ => Some info
                     | None => None
                     end)
           | None => mret None
           end;
  match reused with
  | Some info => mret info
  | None => new_session lang properties
  end.

(** The head of [_execute]: the session that the statement goes to.
    [session] is [None] when the notebook has none. *)
Definition session_to_use (session : option SessionInfo) (snippet_type : string)
  : M SessionInfo :=
  checked ← match session with
            | Some s =>
                session_present ← _check_session (si_id s);
                mret (match session_present : option LivySession with
                      | Some _ => Some s
                      | None => None
                      end)
            | None => mret None
            end;
  match checked with
  | Some s => mret s
  | None =>
      stored_session_info ← _get_session_info_from_user;
      stored_ok ← match stored_session_info with
                  | Some info =>
                      session_present ← _check_session (si_id info);
                      mret (match session_present : option LivySession with
                            | Some _ => Some info
                            | None => None
                            end)
                  | None => mret None
                  end;
      match stored_ok with
      | Some info => mret info
      | None => create_session snippet_type None
      end
  end.

(** [_execute(api, session, snippet_type, statement)] *)
Definition _execute (session : option SessionInfo) (snippet_type statement : string)
  : M execute_response :=
  session ← session_to_use session snippet_type;
  try_except
    (response_id ← submit_statement (si_id session) statement;
     mret {| er_id := response_id; er_has_result_set := true; er_sync := false |})
    (λ e,
       let message := lower (str_exn e) in
       if is_expired_message message then raise (SessionExpired e) else raise e).

(** [_fetch_result(api, session, cell, start_over)] *)
Definition _fetch_result (session_id : option Z) (cell : Z) (start_over : bool)
  : M (option ResultPayload) :=
  response ← try_except (fetch_data session_id cell)
               (λ e,
                  let message := lower (str_exn e) in
                  if bool_decide (is_Some (Re.search SESSION_NOT_FOUND_RE message))
                  then raise (SessionExpired e) else raise e);
  lift (fetch_result_content str_value (fr_output response) start_over).

(** The [finally] block of [close_session]. *)
Definition forget_closed (session_id : option Z) : M unit :=
  stored_session_info ← _get_session_info_from_user;
  match stored_session_info with
  | Some info =>
      if bool_decide (session_id = si_id info)
      then _remove_session_info_from_user
      else mret tt
  | None => mret tt
  end.

(** [close_session(session)]; it reads [session['id']] only.
    [None] is the fall through after a swallowed [RestException]. *)
Definition close_session (session_id : option Z) : M (option close_response) :=
  match session_id with
  | Some _ =>
      try_finally
        (try_except
           (_ ← close session_id;
            mret (Some {| cr_session := session_id; cr_status := 0 |}))
           (λ e,
              match e with
              | RestException code _ =>
                  if Z.eqb code 404 || Z.eqb code 500 (* TODO remove the 500 *)
                  then raise (SessionExpired e)
                  else mret None
              | _ => raise e
              end))
        (forget_closed session_id)
  | None => mret (Some {| cr_session := None; cr_status := -1 |})
  end.

(** The [for] loop of [_close_unused_sessions]. *)
Fixpoint close_each (stored_session_info : option SessionInfo)
  (sessions : list LivySession) : M unit :=
  match sessions with
  | [] => mret tt
  | session :: rest =>
      unused ←
        (if bool_decide (ls_owner session = Some (username self)) then
           match stored_session_info with
           | Some info =>
               mret (bool_decide (Some (ls_id session) ≠ si_id info)
                     && is_unused (ls_state session))
           | None => raise (TypeError "'NoneType' object is not subscriptable")
           end
         else mret false);
      _ ← (if (unused : bool) then _ ← close_session (Some (ls_id session)); mret tt
           else mret tt);
      close_each stored_session_info rest
  end.

(** [_close_unused_sessions()] *)
Definition _close_unused_sessions : M unit :=
  all_sessions ← try_except (l ← get_sessions; mret (Some l))
                   (λ e,
                      let message := lower (str_exn e) in
                      _ ← emit (Log DEBUG message);
                      mret None);
  match all_sessions with
  | Some sessions =>
      stored_session_info ← _get_session_info_from_user;
      close_each stored_session_info sessions
  | None => mret tt
  end.

(** The loop of [_check_status_and_fetch_result]:
    [while check_status['state'] in ['running', 'waiting'] and count < 120],
    with [attempts = 120 - count]. *)
Fixpoint poll_until_done (attempts : nat) (session_id : option Z) (cell : Z)
  (check_status : FetchResponse) : M FetchResponse :=
  if is_pending (fr_state check_status) then
    match attempts with
    | O => mret check_status
    | S attempts' =>
        check_status' ← fetch_data session_id cell;
        _ ← sleep 1;
        poll_until_done attempts' session_id cell check_status'
    end
  else mret check_status.

(** [_check_status_and_fetch_result(api, session, execute_resp)] *)
Definition _check_status_and_fetch_result (session_id : option Z) (cell : Z)
  : M (option ResultPayload) :=
  check_status ← fetch_data session_id cell;
  check_status ← poll_until_done 120 session_id cell check_status;
  if String.eqb (fr_state check_status) "available"
  then _fetch_result session_id cell true
  else mret None.

End Methods.

End SparkApi.

(** ** Reading a trace

    The trace of a run lists its events latest first. *)

Module Runs.
Import Py SparkApi.

(** The latest answer of [get_session] for [session_id] in [evs]. *)
Fixpoint last_observed (session_id : option Z) (evs : list event)
  : option (result LivySession) :=
  match evs with
  | [] => None
  | GetSession i r :: rest =>
      if bool_decide (i = session_id) then Some r else last_observed session_id rest
  | _ :: rest => last_observed session_id rest
  end.

(** The answers of [get_session] in [evs], latest first. *)
Definition observations (evs : list event) : list (result LivySession) :=
  omap (λ e, match e with GetSession _ r => Some r | _ => None end) evs.

(** The statuses that [fetch_data] answered in [evs], latest first. *)
Definition fetches (evs : list event) : list (result FetchResponse) :=
  omap (λ e, match e with FetchData _ _ r => Some r | _ => None end) evs.

(** The seconds slept in [evs], latest first. *)
Definition sleeps (evs : list event) : list Z :=
  omap (λ e, match e with Sleep n => Some n | _ => None end) evs.

(** The sessions that [evs] asked Livy to close, latest first. *)
Definition closed (evs : list event) : list (option Z) :=
  omap (λ e, match e with Close i _ => Some i | _ => None end) evs.

(** The messages logged in [evs], latest first: those of the methods
    that run in [M].  The debug records of [get_livy_props], a pure
    function here, are not among the events. *)
Definition logged (evs : list event) : list (level * string) :=
  omap (λ e, match e with Log l m => Some (l, m) | _ => None end) evs.

(** No event of [evs] is a call of the Livy client. *)
Definition no_remote_call (evs : list event) : bool :=
  forallb (λ e, match e with
                | Sleep _ | Log _ _ | StoreGet _ | StorePut _ _ | StoreDelete _ => true
                | _ => false
                end) evs.


(** What [_check_session] makes of the answer of [get_session]. *)
Definition check_result (r : result LivySession) : option LivySession :=
  match r with
  | Ok s => if negb (is_unhealthy (ls_state s)) then Some s else None
  | Raise _ => None
  end.

(** The state is ['starting']. *)
Definition starting (r : result LivySession) : Prop :=
  ∃ s, r = Ok s ∧ ls_state s = "starting".

(** The state is ['running'] or ['waiting']. *)
Definition pending (r : result FetchResponse) : Prop :=
  ∃ s, r = Ok s ∧ is_pending (fr_state s) = true.

Section OfSelf.
Context (self : Self).

(** The profile once the [finally] block of [close_session] has run. *)
Definition profile_after_close (session_id : option Z)
  (p : gmap string SessionInfo) : gmap string SessionInfo :=
  match p !! _get_session_key self with
  | Some info =>
      if bool_decide (session_id = si_id info)
      then delete (_get_session_key self) p
      else p
  | None => p
  end.

(** The events of that block. *)
Definition forget_trace (session_id : option Z)
  (p : gmap string SessionInfo) : list event :=
  match p !! _get_session_key self with
  | Some info =>
      if bool_decide (session_id = si_id info)
      then [StoreDelete (_get_session_key self); StoreGet (_get_session_key self);
            StoreGet (_get_session_key self)]
      else [StoreGet (_get_session_key self)]
  | None => [StoreGet (_get_session_key self)]
  end.

(** What [close_session] makes of the answer [r] of the remote [close]. *)
Definition close_result (i : Z) (r : result unit) : result (option close_response) :=
  match r with
  | Ok _ => Ok (Some {| cr_session := Some i; cr_status := 0 |})
  | Raise (RestException code msg) =>
      if Z.eqb code 404 || Z.eqb code 500
      then Raise (SessionExpired (RestException code msg))
      else Ok None
  | Raise e => Raise e
  end.

(** The test of the loop of [_close_unused_sessions] on one session,
    with the stored session info at hand. *)
Definition unused (stored : SessionInfo) (session : LivySession) : bool :=
  bool_decide (ls_owner session = Some (username self))
  && bool_decide (Some (ls_id session) ≠ si_id stored)
  && is_unused (ls_state session).

(** An event of the wait of [create_session] for the session [rid]. *)
Definition wait_event (rid : Z) (e : event) : Prop :=
  (∃ o, e = GetSession (Some rid) o) ∨ e = Sleep 1.

(** What [new_session] leaves behind once Livy has made the session
    [rid]: the trace [loop] of its wait on top of the first answer [o]
    of [get_session], the outcome [r], the profile, and the events
    [last] after the wait. *)
Definition created lang props (rid : Z) (o : result LivySession) (loop : list event)
  (r : result SessionInfo) (p p' : gmap string SessionInfo) (last : list event) : Prop :=
  ∃ rl,
    Forall (wait_event rid) loop
    ∧ (length (observations loop) ≤ 120)%nat
    ∧ (length (sleeps loop) ≤ 120)%nat
    ∧ Forall starting (tail (observations loop ++ [o]))
    ∧ head (observations loop ++ [o]) = Some rl
    ∧ (starting rl → length (observations loop) = 120%nat)
    ∧ match rl with
      | Raise e => r = Raise e ∧ last = [] ∧ p' = p
      | Ok st =>
          if String.eqb (ls_state st) "idle" then
            let info := {| si_type := lang; si_id := Some rid;
                           si_properties := Props.to_properties (Some props) |} in
            r = Ok info
            ∧ last = [StorePut (_get_session_key self) info]
            ∧ p' = <[_get_session_key self := info]> p
          else
            r = Raise (QueryError (creation_error st)) ∧ last = [] ∧ p' = p
      end.

(** The events of [create_session] before it turns to a new session:
    the look at the profile, and the check of the session found there. *)
Definition looked_up (pre : list event) : Prop :=
  pre = [StoreGet (_get_session_key self)]
  ∨ ∃ sid o, pre = [GetSession sid o; StoreGet (_get_session_key self)].

End OfSelf.

(** [pat] occurs in [s]. *)
Definition substring_of (pat s : string) : Prop := ∃ a b, s = a +:+ pat +:+ b.

(** The message names a session that Livy does not know:
    [session not found] or [session '<digits>' not found]. *)
Definition says_session_not_found (message : string) : Prop :=
  substring_of "session not found" message
  ∨ ∃ ds, ds ≠ "" ∧ Re.all_chars Re.digit ds = true
          ∧ substring_of ("session '" +:+ ds +:+ "' not found") message.

(** The message is one of those that make [_execute] raise
    [SessionExpired]. *)
Definition expired_message (message : string) : Prop :=
  says_session_not_found message
  ∨ substring_of "connection refused" message
  ∨ substring_of "session is in state busy" message.

(** A header of a table, or a field of a schema: a dict with a
    ['name'] and a ['type']. *)
Definition is_column (h : value) : Prop :=
  ∃ d n t, h = VDict d ∧ dict_get d (VStr "name") = Some n
           ∧ dict_get d (VStr "type") = Some t.

(** The shapes of the ['data'] of a successful statement: a Livy
    table, a JSON result, or plain text (with or without an image). *)
Inductive shaped : value → Prop :=
| shaped_table d t rows headers :
    dict_get d (VStr "application/vnd.livy.table.v1+json") = Some (VDict t) →
    dict_get t (VStr "data") = Some rows →
    dict_get t (VStr "headers") = Some (VList headers) →
    Forall is_column headers →
    shaped (VDict d)
| shaped_json d j rows schema fields :
    dict_get d (VStr "application/vnd.livy.table.v1+json") = None →
    dict_get d (VStr "application/json") = Some (VDict j) →
    dict_get j (VStr "data") = Some rows →
    dict_get j (VStr "schema") = Some (VDict schema) →
    dict_get schema (VStr "fields") = Some (VList fields) →
    Forall is_column fields →
    shaped (VDict d)
| shaped_text d text :
    dict_get d (VStr "application/vnd.livy.table.v1+json") = None →
    dict_get d (VStr "application/json") = None →
    dict_get d (VStr "text/plain") = Some text →
    shaped (VDict d).

(** The payload [p] with its rows emptied. *)
Definition without_rows (p : ResultPayload) : ResultPayload :=
  {| rp_data := VList []; rp_images := rp_images p;
     rp_meta := rp_meta p; rp_type := rp_type p |}.

(** The outcome [r] of [_fetch_result] with the rows of its payload,
    if it has one, emptied. *)
Definition emptied (r : result (option ResultPayload)) : result (option ResultPayload) :=
  match r with
  | Ok (Some p) => Ok (Some (without_rows p))
  | _ => r
  end.

(** The remote [close] went through, or failed with an HTTP status
    that [close_session] lets pass. *)
Definition let_pass (r : result unit) : Prop :=
  r = Ok tt ∨ ∃ code msg, r = Raise (RestException code msg) ∧ code ≠ 404 ∧ code ≠ 500.

(** The remote [close] answered 404 or 500. *)
Definition gone (r : result unit) : Prop :=
  ∃ code msg, r = Raise (RestException code msg) ∧ (code = 404 ∨ code = 500).

End Runs.

(** ** A scripted Livy service

    The mock of the tests: every method answers with the next entry of
    its script, and raises once the script is used up. *)

Module Mock.
Import Py SparkApi.

Record service : Type := {
  get_session_answers : list (result LivySession);
  create_session_answers : list (result Z);
  close_answers : list (result unit);
  submit_statement_answers : list (result Z);
  fetch_data_answers : list (result FetchResponse);
  get_sessions_answers : list (result (list LivySession));
}.

Definition next {A} (answers : list (result A)) : result A * list (result A) :=
  match answers with
  | [] => (Raise (Exception "no answer left"), [])
  | a :: rest => (a, rest)
  end.

#[global] Instance mock_api : LivyApi service := {
  api_get_session _ s :=
    let (a, rest) := next (get_session_answers s) in
    (a, {| get_session_answers := rest;
           create_session_answers := create_session_answers s;
           close_answers := close_answers s;
           submit_statement_answers := submit_statement_answers s;
           fetch_data_answers := fetch_data_answers s;
           get_sessions_answers := get_sessions_answers s |});
  api_create_session _ s :=
    let (a, rest) := next (create_session_answers s) in
    (a, {| get_session_answers := get_session_answers s;
           create_session_answers := rest;
           close_answers := close_answers s;
           submit_statement_answers := submit_statement_answers s;
           fetch_data_answers := fetch_data_answers s;
           get_sessions_answers := get_sessions_answers s |});
  api_close _ s :=
    let (a, rest) := next (close_answers s) in
    (a, {| get_session_answers := get_session_answers s;
           create_session_answers := create_session_answers s;
           close_answers := rest;
           submit_statement_answers := submit_statement_answers s;
           fetch_data_answers := fetch_data_answers s;
           get_sessions_answers := get_sessions_answers s |});
  api_submit_statement _ _ s :=
    let (a, rest) := next (submit_statement_answers s) in
    (a, {| get_session_answers := get_session_answers s;
           create_session_answers := create_session_answers s;
           close_answers := close_answers s;
           submit_statement_answers := rest;
           fetch_data_answers := fetch_data_answers s;
           get_sessions_answers := get_sessions_answers s |});
  api_fetch_data _ _ s :=
    let (a, rest) := next (fetch_data_answers s) in
    (a, {| get_session_answers := get_session_answers s;
           create_session_answers := create_session_answers s;
           close_answers := close_answers s;
           submit_statement_answers := submit_statement_answers s;
           fetch_data_answers := rest;
           get_sessions_answers := get_sessions_answers s |});
  api_get_sessions s :=
    let (a, rest) := next (get_sessions_answers s) in
    (a, {| get_session_answers := get_session_answers s;
           create_session_answers := create_session_answers s;
           close_answers := close_answers s;
           submit_statement_answers := submit_statement_answers s;
           fetch_data_answers := fetch_data_answers s;
           get_sessions_answers := rest |});
}.

Definition silent : service :=
  {| get_session_answers := []; create_session_answers := [];
     close_answers := []; submit_statement_answers := [];
     fetch_data_answers := []; get_sessions_answers := [] |}.

Definition world (s : service) (profile : gmap string SessionInfo) : World service :=
  {| remote := s; profile := profile; trace := [] |}.

Definition alice : Self :=
  {| username := "alice"; interpreter_name := "pyspark";
     use_default_configuration := false; default_configuration := None |}.

Definition session (id : Z) (owner state : string) : LivySession :=
  {| ls_id := id; ls_owner := Some owner; ls_state := state; ls_log := [] |}.

Definition status (state : string) : FetchResponse :=
  {| fr_state := state; fr_output := VNone |}.

Definition info (id : Z) : SessionInfo :=
  {| si_type := "pyspark"; si_id := Some id; si_properties := [] |}.

(** Livy makes session 7, which is [starting] at the first two looks
    and [idle] at the third. *)
Definition starting_twice : service :=
  {| get_session_answers := [Ok (session 7 "alice" "starting");
                             Ok (session 7 "alice" "starting");
                             Ok (session 7 "alice" "idle")];
     create_session_answers := [Ok 7];
     close_answers := []; submit_statement_answers := [];
     fetch_data_answers := []; get_sessions_answers := [] |}.


(** ['text/plain'] data of a statement that went well. *)
Definition text_output : value :=
  VDict [(VStr "status", VStr "ok");
         (VStr "data", VDict [(VStr "text/plain", VStr "res0: Int = 2")])].

(** A Livy table of one column and two rows. *)
Definition table_output : value :=
  VDict [(VStr "status", VStr "ok");
         (VStr "data",
          VDict [(VStr "application/vnd.livy.table.v1+json",
                  VDict [(VStr "headers",
                          VList [VDict [(VStr "name", VStr "n");
                                        (VStr "type", VStr "INT_TYPE")]]);
                         (VStr "data", VList [VList [VInt 1]; VList [VInt 2]])])])].

(** A JSON result of one field and one row. *)
Definition json_output : value :=
  VDict [(VStr "status", VStr "ok");
         (VStr "data",
          VDict [(VStr "application/json",
                  VDict [(VStr "schema",
                          VDict [(VStr "fields",
                                  VList [VDict [(VStr "name", VStr "s");
                                                (VStr "type", VStr "string")]])]);
                         (VStr "data", VList [VList [VStr "a"]])])])].

(** An image, with the text that Livy sends along. *)
Definition image_output : value :=
  VDict [(VStr "status", VStr "ok");
         (VStr "data", VDict [(VStr "image/png", VStr "iVBORw0KGgo=");
                              (VStr "text/plain", VStr "")])].

(** An image and nothing else. *)
Definition bare_image_output : value :=
  VDict [(VStr "status", VStr "ok");
         (VStr "data", VDict [(VStr "image/png", VStr "iVBORw0KGgo=")])].

(** The statement is [running] at the first five fetches and
    [available] from the sixth on. *)
Definition running_five : service :=
  {| get_session_answers := []; create_session_answers := [];
     close_answers := []; submit_statement_answers := [];
     fetch_data_answers := [Ok (status "running"); Ok (status "running");
                            Ok (status "running"); Ok (status "running");
                            Ok (status "running"); Ok (status "available");
                            Ok {| fr_state := "available"; fr_output := table_output |}];
     get_sessions_answers := [] |}.

(** Livy lists three sessions of alice and one of bob, and answers the
    first [close] with [first] and the later ones with success. *)
Definition listing (first : result unit) : service :=
  {| get_session_answers := []; create_session_answers := [];
     close_answers := [first; Ok tt; Ok tt];
     submit_statement_answers := []; fetch_data_answers := [];
     get_sessions_answers := [Ok [session 1 "alice" "idle"; session 2 "bob" "idle";
                                  session 3 "alice" "busy"; session 4 "alice" "dead";
                                  session 5 "alice" "idle"]] |}.

(** Livy cannot be reached for the list of sessions. *)
Definition unreachable : service :=
  {| get_session_answers := []; create_session_answers := [];
     close_answers := []; submit_statement_answers := [];
     fetch_data_answers := [];
     get_sessions_answers := [Raise (Exception "Connection Refused")] |}.

(** Livy knows session 5 as [idle], and answers [close] and
    [submit_statement] as given. *)
Definition answering (closing : result unit) (submitting : result Z) : service :=
  {| get_session_answers := [Ok (session 5 "alice" "idle")];
     create_session_answers := [];
     close_answers := [closing]; submit_statement_answers := [submitting];
     fetch_data_answers := []; get_sessions_answers := [] |}.

(** The world in which [fetch_data] answers with [output]. *)
Definition fetching (output : value) : World service :=
  world
    {| get_session_answers := []; create_session_answers := [];
       close_answers := []; submit_statement_answers := [];
       fetch_data_answers := [Ok {| fr_state := "available"; fr_output := output |}];
       get_sessions_answers := [] |} ∅.

(** The profile of alice with session [id] stored for pyspark. *)
Definition stored (id : Z) : gmap string SessionInfo :=
  {[ "alice-pyspark" := info id ]}.

End Mock.

(** ** The property merge as the specification words it *)

Module MergeSpec.
Import Py SparkConfiguration Props.

(** The ['value'] of [p] if [p] is an entry named [n] that carries
    both a ['name'] and a ['value']. *)
Definition names (p : value) (n : string) : option value :=
  match p with
  | VDict d =>
      match dict_get d (VStr "name"), dict_get d (VStr "value") with
      | Some k, Some v => if key_eqb k (VStr n) then Some v else None
      | _, _ => None
      end
  | _ => None
  end.

(** The value that the caller's properties [P] give to the name [n]:
    that of the last entry named [n]. *)
Fixpoint caller_value (P : list value) (n : string) : option value :=
  match P with
  | [] => None
  | p :: rest =>
      match caller_value rest n with
      | Some v => Some v
      | None => names p n
      end
  end.

(** The value of the default [d] once [P] is laid over it. *)
Definition merged_value (P : option (list value)) (d : PropertyDefinition) : value :=
  default (value_ d) (ps ← P; caller_value ps (name d)).

(** The merge of the specification: the defaults, in their order,
    each name that [P] has with [P]'s value. *)
Definition merge_as_specified (P : option (list value)) : dict :=
  map (λ d, (VStr (name d), merged_value P d)) PROPERTIES.

(** What [get_livy_props] makes of the merged value of the name [n]:
    the list-typed names are split at their commas when they are not
    lists, and ['conf'] turns from a list of key and value entries
    into a dict. *)
Definition livy_value (n : string) (v : value) : result value :=
  if bool_decide (n ∈ ["archives"; "jars"; "files"; "pyFiles"]) then
    match v with
    | VList _ => Ok v
    | VStr s => Ok (VList (map VStr (split "," s)))
    | _ => Raise (AttributeError "object has no attribute 'split'")
    end
  else if String.eqb n "conf" then
    items ← iter v; conf ← conf_dict [] items; mret (VDict conf)
  else Ok v.

(** The ['kind'] that goes to Livy. *)
Definition kind (lang : string) : string :=
  if String.eqb lang "sparksql" then "sql" else lang.

(** [{'name': n, 'value': v}] *)
Definition property (n : string) (v : value) : value :=
  VDict [(VStr "name", VStr n); (VStr "value", v)].

(** The caller's properties [{driverMemory: '2G'}]. *)
Definition driver_memory_2G : option (list value) :=
  Some [property "driverMemory" (VStr "2G")].

(** The caller's properties [{jars: 'a.jar,b.jar', queue: 'etl'}]. *)
Definition jars_and_queue : option (list value) :=
  Some [property "jars" (VStr "a.jar,b.jar"); property "queue" (VStr "etl")].

(** The defaults with [P] laid over them, as a list of properties. *)
Definition properties_as_specified (P : option (list value)) : list PropertyDefinition :=
  map (λ d, set_value d (merged_value P d)) PROPERTIES.

(** The keys of a dict that are strings, in order. *)
Definition str_keys (d : dict) : list string :=
  omap (λ kv, match kv.1 with VStr s => Some s | _ => None end) d.

(** The value of the last pair of [pairs] whose key is the string [n]. *)
Fixpoint last_value (pairs : list (value * value)) (n : string) : option value :=
  match pairs with
  | [] => None
  | (k, v) :: rest =>
      match last_value rest n with
      | Some x => Some x
      | None => if key_eqb k (VStr n) then Some v else None
      end
  end.

(** The dict of [get_livy_props] right after [props.update(...)]. *)
Definition updated (P : option (list value)) : result dict :=
  match P with
  | None => Ok default_props
  | Some ps =>
      pairs ← named_values ps;
      upd ← dict_of_pairs [] pairs;
      mret (dict_update default_props upd)
  end.

(** The merged value of any name [n], if it has one. *)
Definition merged_lookup (P : option (list value)) (n : string) : option value :=
  match ps ← P; caller_value ps n with
  | Some v => Some v
  | None => dict_get default_props (VStr n)
  end.

End MergeSpec.

(** ** [SparkApi]: jobs of a session on YARN *)

Module Yarn.
Import Re Jobs.

(** [.]: any character but a newline *)
Definition not_newline (c : ascii) : bool := negb (Ascii.eqb c "010").

(** ["tracking URL: (http[s]?://.+/)"] *)
Definition YARN_JOB_RE : regex :=
  Cat (lits "tracking URL: ")
    (Grp 1 (Cat (lits "http") (Cat (Opt (Lit "s")) (Cat (lits "://")
       (Cat (Plus not_newline) (Lit "/")))))).

(** [s.lstrip(c)] for one character [c] *)
Fixpoint lstrip (c : ascii) (s : string) : string :=
  match s with
  | String a s' => if Ascii.eqb a c then lstrip c s' else s
  | EmptyString => EmptyString
  end.

(** [s.rstrip(c)] for one character [c] *)
Fixpoint rstrip (c : ascii) (s : string) : string :=
  match s with
  | EmptyString => EmptyString
  | String a s' =>
      match rstrip c s' with
      | EmptyString => if Ascii.eqb a c then EmptyString else String a EmptyString
      | t => String a t
      end
  end.

(** [s.strip(c)] for one character [c] *)
Definition strip (c : ascii) (s : string) : string := rstrip c (lstrip c s).

(** [url.strip('/').split('/')[-1]]: the application id is the last
    token. *)
Definition application_id (url : string) : string :=
  List.last (Py.split "/" (strip "/" url)) EmptyString.

(** The [tracking_urls] set after the [finditer] loop. *)
Definition tracking_urls (logs : string) : gset string :=
  fold_left (λ acc m, acc ∪ {[ group m 1 ]}) (finditer YARN_JOB_RE logs) ∅.

(** [SparkApi._get_yarn_jobs(logs)]; the comprehension walks the set
    in the order of [elements]. *)
Definition _get_yarn_jobs (logs : string) : list job :=
  map (λ url, {| name := application_id url; url := url |})
    (elements (tracking_urls logs)).

End Yarn.

(** ** [SparkApi]: the methods that the notebook calls

    A method takes the session of the snippet, as
    [_get_snippet_session(notebook, snippet)] finds it, and the id of
    the statement, [snippet['result']['handle']['id']], in place of the
    notebook and the snippet they are read from. *)

Module Endpoints.
Import Py SparkApi.

(** The two calls of the Livy client that the trace has no event for.
    [api_get_log] takes the session id, [startFrom] and [size]. *)
Class LivyLogApi (R : Type) : Type := {
  api_cancel : option Z → R → result unit * R;
  api_get_log : option Z → Z → option Z → R → result value * R;
}.

(** [{'status': ...}] as [check_status] returns it. *)
Record status_response : Type := { sr_status : string }.

Section Methods.
Context {R : Type} `{!LivyApi R} `{!LivyLogApi R}.
Variable self : Self.
Variable str_value : value → string.
(** [LIVY_SERVER_SESSION_KIND.get()] *)
Variable livy_server_session_kind : string.

(** A call of the client that leaves no event in the trace. *)
Definition untraced {A} (op : R → result A * R) : M A := λ w,
  match op (remote w) with
  | (r, remote') => (r, {| remote := remote'; profile := profile w; trace := trace w |})
  end.

(** [_handle_session_health_check(session)]; [session] is [None] when
    the notebook has none. *)
Definition _handle_session_health_check (session : option SessionInfo)
  : M SessionInfo :=
  checked ← match session with
            | Some s =>
                session_present ← _check_session (si_id s);
                mret (match session_present : option LivySession with
                      | Some _ => Some s
                      | None => None
                      end)
            | None => mret None
            end;
  match checked with
  | Some s => mret s
  | None =>
      stored_session_info ← _get_session_info_from_user self;
      stored_ok ← match stored_session_info with
                  | Some info =>
                      session_present ← _check_session (si_id info);
                      mret (match session_present : option LivySession with
                            | Some _ => Some info
                            | None => None
                            end)
                  | None => mret None
                  end;
      match stored_ok with
      | Some info => mret info
      | None =>
          raise (PopupException
                   "Session expired. Please create new session and try again.")
      end
  end.

(** [check_status(notebook, snippet)], with the [session] of the
    snippet and the id [cell] of its result handle. *)
Definition check_status (session : option SessionInfo) (cell : Z)
  : M status_response :=
  session ← _handle_session_health_check session;
  try_except
    (response ← fetch_data (si_id session) cell;
     mret {| sr_status := fr_state response |})
    (λ e,
       let message := lower (str_exn e) in
       if bool_decide (is_Some (Re.search SESSION_NOT_FOUND_RE message))
       then raise (SessionExpired e) else raise e).

(** [fetch_result(notebook, snippet, rows, start_over)] *)
Definition fetch_result (session : option SessionInfo) (cell : Z) (start_over : bool)
  : M (option ResultPayload) :=
  session ← _handle_session_health_check session;
  response ← _fetch_result str_value (si_id session) cell start_over;
  (* Close unused sessions if there are any. *)
  stored_session_info ← _get_session_info_from_user self;
  _ ← match stored_session_info with
      | Some _ => _close_unused_sessions self
      | None => mret tt
      end;
  mret response.

(** [cancel(notebook, snippet)]; the answer is [{'status': 0}]. *)
Definition cancel (session : option SessionInfo) : M Z :=
  session ← _handle_session_health_check session;
  _ ← try_except (untraced (api_cancel (si_id session)))
        (λ e,
           let message := lower (str_exn e) in
           emit (Log DEBUG message));
  mret 0.

(** [get_log(notebook, snippet, startFrom, size)] *)
Definition get_log (session : option SessionInfo) (startFrom : Z) (size : option Z)
  : M value :=
  let response := VDict [(VStr "status", VInt 0)] in
  session ← _handle_session_health_check session;
  try_except (untraced (api_get_log (si_id session) startFrom size))
    (λ e,
       match e with
       | RestException _ _ =>
           let message := lower (str_exn e) in
           _ ← emit (Log DEBUG message);
           mret response
       | _ => raise e
       end).

(** [_is_yarn_mode()] *)
Definition _is_yarn_mode : bool := String.eqb livy_server_session_kind "yarn".

(** The level of a record of [Jobs], as an event. *)
Definition log_event (r : Jobs.log_record) : event :=
  Log (match Jobs.lr_level r with
       | Jobs.DEBUG => DEBUG
       | Jobs.WARNING => WARNING
       end) (Jobs.lr_message r).

(** [get_jobs(notebook, snippet, logs)].  A pattern searches text
    only: on anything else [finditer] raises [TypeError]. *)
Definition get_jobs (session : option SessionInfo) (logs : string)
  : M (list Jobs.job) :=
  if _is_yarn_mode then
    (* Tracking URL is found at the start of the logs *)
    start_logs ← get_log session 0 (Some 100);
    match start_logs with
    | VStr text => mret (Yarn._get_yarn_jobs text)
    | _ => raise (TypeError "expected string or bytes-like object")
    end
  else
    match Jobs._get_standalone_jobs logs with
    | (records, jobs) =>
        _ ← (λ w, (Ok tt, {| remote := remote w; profile := profile w;
                             trace := rev (map log_event records) ++ trace w |}));
        mret jobs
    end.

End Methods.

End Endpoints.

(** ** Looking for a session *)

Module Looks.
Import Py SparkApi.

(** An event of the look for a session that can be used: an answer of
    [get_session], or a read of the profile under the session key. *)
Definition lookup_event (self : Self) (e : event) : Prop :=
  (∃ i o, e = GetSession i o) ∨ e = StoreGet (_get_session_key self).

(** The properties that [create_session] hands to [get_livy_props]:
    those of the user's default configuration when it is given none,
    [USE_DEFAULT_CONFIGURATION] is on and the user has one. *)
Definition properties_in_effect (self : Self) (properties : option (list value))
  : option (list value) :=
  let no_properties := match properties with
                       | None | Some [] => true
                       | Some _ => false
                       end in
  if no_properties && use_default_configuration self then
    match default_configuration self with
    | Some properties_list => Some properties_list
    | None => properties
    end
  else properties.

End Looks.

(** ** What a log says *)

Module Logs.
Import Re Jobs Yarn.

(** The first character of [s] is in the class [p]. *)
Definition starts_in (p : ascii → bool) (s : string) : bool :=
  match s with
  | String c _ => p c
  | EmptyString => false
  end.

(** The log [logs] names the job [n]: [n] is a run of digits that
    follows [Got job ] somewhere in [logs] and ends where the digits
    end. *)
Definition job_mentioned (logs n : string) : Prop :=
  n ≠ "" ∧ all_chars digit n = true
  ∧ ∃ pre post, logs = pre +:+ "Got job " +:+ n +:+ post ∧ starts_in digit post = false.


(** There is no [/] on what is left of the line that [s] starts on. *)
Definition no_slash_on_line (s : string) : Prop :=
  ∀ a b, s = a +:+ "/" +:+ b → all_chars not_newline a = false.

(** The log [logs] gives [url] as a tracking URL: [url] follows
    [tracking URL: ] somewhere in [logs], it is [http://] or
    [https://], then something, then [/], all of it on one line, and
    it runs to the last [/] of that line. *)
Definition tracking_url_given (logs url : string) : Prop :=
  ∃ scheme body pre post,
    (scheme = "http" ∨ scheme = "https")
    ∧ body ≠ "" ∧ all_chars not_newline body = true
    ∧ url = scheme +:+ "://" +:+ body +:+ "/"
    ∧ logs = pre +:+ "tracking URL: " +:+ url +:+ post
    ∧ no_slash_on_line post.

(** No character of [s] is [c]. *)
Definition free_of (c : ascii) (s : string) : bool :=
  all_chars (λ a, negb (Ascii.eqb a c)) s.

End Logs.

(** ** The conf entries of the caller *)

Module Conf.
Import Py.

(** The key and the value of an entry of the conf list, as
    [conf.get('key')] and [conf.get('value')] read them: [None] stands
    for what the entry lacks. *)
Definition conf_pair (c : value) : option (value * value) :=
  match c with
  | VDict d => Some (default VNone (dict_get d (VStr "key")),
                     default VNone (dict_get d (VStr "value")))
  | _ => None
  end.

(** The value that the entries [items] give to the key [k]: that of
    the last entry whose key equals [k]. *)
Fixpoint conf_value (items : list value) (k : value) : option value :=
  match items with
  | [] => None
  | c :: rest =>
      match conf_value rest k with
      | Some v => Some v
      | None =>
          match conf_pair c with
          | Some (k', v) => if key_eqb k' k then Some v else None
          | None => None
          end
      end
  end.

(** An entry that can go into the conf dict: a dict whose key is
    hashable. *)
Definition conf_entry (c : value) : Prop :=
  ∃ k v, conf_pair c = Some (k, v) ∧ hashable k = true.

(** A value of [conf] that [get_livy_props] can turn into a dict: a
    list of entries; or, since a dict is iterated by its keys and a
    string by its characters, a dict whose keys are entries or the
    empty string. *)
Definition conf_acceptable (v : value) : Prop :=
  match v with
  | VList items => Forall conf_entry items
  | VDict d => Forall conf_entry (map fst d)
  | VStr s => s = ""
  | _ => False
  end.

(** [{'key': k, 'value': v}] *)
Definition conf_item (k v : string) : value :=
  VDict [(VStr "key", VStr k); (VStr "value", VStr v)].

(** The caller's properties [{proxyUser: 'bob', conf: [...]}], with
    two conf entries for [spark.ui.port]. *)
Definition proxy_user_and_conf : option (list value) :=
  Some [MergeSpec.property "proxyUser" (VStr "bob");
        MergeSpec.property "conf"
          (VList [conf_item "spark.ui.port" "4040";
                  conf_item "spark.executor.instances" "2";
                  conf_item "spark.ui.port" "4041"])].

End Conf.

(** ** What the caller of [get_livy_props] hands over *)

Module Callers.
Import Py.

(** An entry of the caller's properties that [get_livy_props] can
    read: a dict whose ['name'], when it comes with a ['value'], is
    hashable. *)
Definition readable (p : value) : Prop :=
  ∃ d, p = VDict d
       ∧ ∀ k v, dict_get d (VStr "name") = Some k → dict_get d (VStr "value") = Some v →
                hashable k = true.

(** A list or a string. *)
Definition list_or_string (v : value) : Prop :=
  match v with
  | VList _ | VStr _ => True
  | _ => False
  end.

(** A value that the loop over the list-typed names can take. *)
Definition csv_or_list (v : option value) : Prop :=
  match v with
  | None | Some (VList _) | Some (VStr _) => True
  | Some _ => False
  end.

End Callers.

(** ** A Livy that never gets anywhere

    Every session stays [starting] and every statement stays
    [running]. *)

Module Stuck.
Import Py SparkApi.

Inductive service : Type := Busy.

#[global] Instance stuck_api : LivyApi service := {
  api_get_session i s :=
    (Ok {| ls_id := default 0 i; ls_owner := None; ls_state := "starting"; ls_log := [] |}, s);
  api_create_session _ s := (Ok 7, s);
  api_close _ s := (Ok tt, s);
  api_submit_statement _ _ s := (Ok 0, s);
  api_fetch_data _ _ s := (Ok {| fr_state := "running"; fr_output := VNone |}, s);
  api_get_sessions s := (Ok [], s);
}.

Definition world : World service := {| remote := Busy; profile := ∅; trace := [] |}.

(** A user whose default configuration is in use: [driverMemory] of
    [2G]. *)
Definition carol : Self :=
  {| username := "carol"; interpreter_name := "pyspark";
     use_default_configuration := true;
     default_configuration := MergeSpec.driver_memory_2G |}.

End Stuck.

(** ** More scripts for the scripted service *)

Module Desk.
Import Py SparkApi Endpoints.

(** Livy answers [cancel] with [cancelling] and [get_log] with [log],
    whatever the session. *)
Definition log_api (cancelling : result unit) (log : result value)
  : LivyLogApi Mock.service :=
  {| api_cancel _ s := (cancelling, s);
     api_get_log _ _ _ s := (log, s) |}.

(** Livy makes session 5 when asked for a session, reports it [idle]
    at the first [looks] looks, and answers [fetch_data],
    [get_sessions] and [close] as scripted. *)
Definition serving (looks : nat) (fetching : list (result FetchResponse))
  (listing : list (result (list LivySession))) (closing : list (result unit))
  : Mock.service :=
  {| Mock.get_session_answers := replicate looks (Ok (Mock.session 5 "alice" "idle"));
     Mock.create_session_answers := [Ok 5];
     Mock.close_answers := closing;
     Mock.submit_statement_answers := [Ok 0];
     Mock.fetch_data_answers := fetching;
     Mock.get_sessions_answers := listing |}.

(** The answer of Livy for a session that it has lost. *)
Definition not_found : exn := RestException 404 "Session '5' not found.".

(** The output of a statement that failed, without a traceback. *)
Definition error_output : value :=
  VDict [(VStr "status", VStr "error");
         (VStr "ename", VStr "NameError");
         (VStr "evalue", VStr "name 'x' is not defined");
         (VStr "traceback", VList [])].

(** The output of a statement that failed, with a traceback. *)
Definition traceback_output : value :=
  VDict [(VStr "status", VStr "error");
         (VStr "ename", VStr "NameError");
         (VStr "traceback",
          VList [VStr "Traceback (most recent call last): ";
                 VStr "NameError: name 'x' is not defined"])].

(** [str(v)] for the values of the scripts. *)
Definition str_value (v : value) : string :=
  match v with
  | VStr s => s
  | VNone => "None"
  | _ => "?"
  end.

(** The start of the log of a session on YARN. *)
Definition yarn_log : string :=
  "INFO Client: Application report for application_1_0001 (state: ACCEPTED)"
  +:+ String "010"%char
        "INFO Client: tracking URL: http://rm.example.com:8088/proxy/application_1_0001/"
  +:+ String "010"%char "INFO Client: user: alice".

(** alice at the scala interpreter. *)
Definition alice_scala : Self :=
  {| username := "alice"; interpreter_name := "scala";
     use_default_configuration := false; default_configuration := None |}.

End Desk.

(** * Properties *)

(** ** Results and dicts *)

Section ResultFacts.
Import Py.

Lemma bind_Ok {A B} (r : result A) (k : A → result B) b :
  r ≫= k = Ok b → ∃ a, r = Ok a ∧ k a = Ok b.
Proof. destruct r as [a|e]; [by exists a | discriminate]. Qed.
End ResultFacts.

Section DictFacts.
Import Py MergeSpec.

Lemma key_eqb_str_inv k n : key_eqb k (VStr n) = true → k = VStr n.
Proof.
  destruct k; simpl; try discriminate.
  intros H. apply String.eqb_eq in H. by subst.
Qed.

Lemma key_eqb_str_refl n : key_eqb (VStr n) (VStr n) = true.
Proof. simpl. apply String.eqb_refl. Qed.

Lemma key_eqb_trans_str k0 k n :
  key_eqb k0 k = true → key_eqb k0 (VStr n) = key_eqb k (VStr n).
Proof.
  destruct k0, k; simpl; try discriminate; try reflexivity.
  intros H. apply String.eqb_eq in H. by subst.
Qed.

Lemma dict_get_set d k v n :
  dict_get (dict_set d k v) (VStr n)
  = if key_eqb k (VStr n) then Some v else dict_get d (VStr n).
Proof.
  induction d as [|[k0 v0] d IH]; simpl.
  - reflexivity.
  - destruct (key_eqb k0 k) eqn:E; simpl.
    + rewrite (key_eqb_trans_str _ _ n E). by destruct (key_eqb k (VStr n)).
    + rewrite IH. destruct (key_eqb k0 (VStr n)) eqn:E0; [|done].
      apply key_eqb_str_inv in E0. subst k0.
      destruct (key_eqb k (VStr n)) eqn:E1; [|done].
      apply key_eqb_str_inv in E1. subst k.
      rewrite key_eqb_str_refl in E. discriminate.
Qed.

Lemma str_keys_cons k0 v0 d :
  str_keys ((k0, v0) :: d)
  = match k0 with VStr s => s :: str_keys d | _ => str_keys d end.
Proof. by destruct k0. Qed.

Lemma dict_get_None_str_keys d n :
  dict_get d (VStr n) = None ↔ n ∉ str_keys d.
Proof.
  induction d as [|[k0 v0] d IH]; [by split; [intros _; apply not_elem_of_nil|]|].
  rewrite str_keys_cons. cbn [dict_get].
  destruct (key_eqb k0 (VStr n)) eqn:E.
  - apply key_eqb_str_inv in E. subst. split; [done|].
    intros H. exfalso. apply H. left.
  - destruct k0; try apply IH.
    rewrite not_elem_of_cons, <- IH. simpl in E.
    apply String.eqb_neq in E. intuition congruence.
Qed.

Lemma str_keys_set d k v :
  str_keys (dict_set d k v)
  = match k with
    | VStr s => if bool_decide (s ∈ str_keys d) then str_keys d else str_keys d ++ [s]
    | _ => str_keys d
    end.
Proof.
  induction d as [|[k0 v0] d IH]; [by destruct k|].
  cbn [dict_set]. destruct (key_eqb k0 k) eqn:E.
  - rewrite !str_keys_cons.
    destruct k0, k; simpl in E; try discriminate; try done.
    apply String.eqb_eq in E. subst. rewrite bool_decide_eq_true_2; [done | left].
  - rewrite !str_keys_cons, IH. destruct k0, k; simpl in E; try done.
    apply String.eqb_neq in E.
    destruct (bool_decide (s0 ∈ str_keys d)) eqn:B.
    + apply bool_decide_eq_true_1 in B. rewrite bool_decide_eq_true_2; [done|by right].
    + apply bool_decide_eq_false_1 in B. rewrite bool_decide_eq_false_2; [done|].
      rewrite elem_of_cons. intuition congruence.
Qed.

Lemma keys_set_prefix d k v : map fst d `prefix_of` map fst (dict_set d k v).
Proof.
  induction d as [|[k0 v0] d IH]; simpl.
  - apply prefix_nil.
  - destruct (key_eqb k0 k); simpl; [done|]. by apply prefix_cons.
Qed.

Lemma dict_get_fold_set pairs d n :
  dict_get (fold_left (λ acc kv, dict_set acc kv.1 kv.2) pairs d) (VStr n)
  = match last_value pairs n with
    | Some v => Some v
    | None => dict_get d (VStr n)
    end.
Proof.
  revert d. induction pairs as [|[k v] pairs IH]; intros d; simpl; [done|].
  rewrite IH, dict_get_set. by destruct (last_value pairs n), (key_eqb k (VStr n)).
Qed.

Lemma dict_of_pairs_fold pairs acc d :
  dict_of_pairs acc pairs = Ok d →
  d = fold_left (λ acc kv, dict_set acc kv.1 kv.2) pairs acc.
Proof.
  revert acc. induction pairs as [|[k v] pairs IH]; intros acc; simpl.
  - by intros [= ->].
  - unfold dict_setitem. destruct (hashable k); simpl; [apply IH | discriminate].
Qed.

Lemma NoDup_str_keys_set d k v : NoDup (str_keys d) → NoDup (str_keys (dict_set d k v)).
Proof.
  intros Hd. rewrite str_keys_set. destruct k; try done.
  case_bool_decide; [done|].
  apply NoDup_app. split_and!; [done | | apply NoDup_singleton].
  intros x Hx ->%list_elem_of_singleton. done.
Qed.

Lemma NoDup_str_keys_fold pairs d :
  NoDup (str_keys d) →
  NoDup (str_keys (fold_left (λ acc kv, dict_set acc kv.1 kv.2) pairs d)).
Proof.
  revert d. induction pairs as [|[k v] pairs IH]; intros d Hd; simpl; [done|].
  by apply IH, NoDup_str_keys_set.
Qed.

Lemma last_value_unique d n :
  NoDup (str_keys d) → last_value d n = dict_get d (VStr n).
Proof.
  induction d as [|[k v] d IH]; [done|].
  rewrite str_keys_cons. cbn [last_value dict_get]. intros Hd.
  destruct (key_eqb k (VStr n)) eqn:E.
  - apply key_eqb_str_inv in E. subst k.
    apply NoDup_cons in Hd as [Hn Hd]. rewrite (IH Hd).
    apply dict_get_None_str_keys in Hn. by rewrite Hn.
  - assert (NoDup (str_keys d)) as Hd'.
    { destruct k; try done. apply NoDup_cons in Hd. tauto. }
    rewrite (IH Hd'). by destruct (dict_get d (VStr n)).
Qed.
End DictFacts.

Section MergeFacts.
Import Py SparkConfiguration Props MergeSpec.

Lemma named_values_last ps pairs n :
  named_values ps = Ok pairs → last_value pairs n = caller_value ps n.
Proof.
  revert pairs. induction ps as [|p ps IH]; intros pairs; simpl.
  - by intros [= <-].
  - destruct p as [| | | | |d]; try discriminate.
    unfold dict_mem, getitem, names.
    destruct (dict_get d (VStr "name")) as [k|] eqn:Ek;
      destruct (dict_get d (VStr "value")) as [v|] eqn:Ev; simpl;
      try (intros H; rewrite (IH _ H); by destruct (caller_value ps n)).
    destruct (named_values ps) as [tl|] eqn:Etl; simpl; [|discriminate].
    intros [= <-]. simpl. by rewrite (IH _ eq_refl).
Qed.

(** The lookup of a name in the dict of [get_livy_props] right after
    [props.update(...)]. *)
Lemma update_lookup ps pairs upd n :
  named_values ps = Ok pairs →
  dict_of_pairs [] pairs = Ok upd →
  dict_get (dict_update default_props upd) (VStr n)
  = match caller_value ps n with
    | Some v => Some v
    | None => dict_get default_props (VStr n)
    end.
Proof.
  intros Hps Hupd. unfold dict_update. rewrite dict_get_fold_set.
  apply dict_of_pairs_fold in Hupd.
  rewrite last_value_unique.
  - subst upd. rewrite dict_get_fold_set. simpl.
    rewrite (named_values_last _ _ _ Hps). by destruct (caller_value ps n).
  - subst upd. apply NoDup_str_keys_fold. apply NoDup_nil_2.
Qed.

Lemma default_props_dict : dict_of_pairs [] default_props = Ok default_props.
Proof. reflexivity. Qed.

Lemma updated_lookup P props n :
  updated P = Ok props → dict_get props (VStr n) = merged_lookup P n.
Proof.
  unfold updated, merged_lookup. destruct P as [ps|]; simpl.
  - destruct (named_values ps) as [pairs|] eqn:Hps; simpl; [|discriminate].
    destruct (dict_of_pairs [] pairs) as [upd|] eqn:Hupd; simpl; [|discriminate].
    intros [= <-]. by apply update_lookup with pairs.
  - by intros [= <-].
Qed.

Lemma coerce_list_lookup props key props' n :
  coerce_list props key = Ok props' →
  match dict_get props (VStr n) with
  | None => dict_get props' (VStr n) = None
  | Some v =>
      if String.eqb key n
      then ∃ v', livy_value "jars" v = Ok v' ∧ dict_get props' (VStr n) = Some v'
      else dict_get props' (VStr n) = Some v
  end.
Proof.
  unfold coerce_list. destruct (String.eqb key n) eqn:E.
  - apply String.eqb_eq in E. subst n.
    destruct (dict_get props (VStr key)) as [v|] eqn:Hv.
    + destruct v; try discriminate.
      * intros [= <-]. rewrite dict_get_set, key_eqb_str_refl. eauto.
      * intros [= <-]. rewrite Hv. eauto.
    + intros [= <-]. by rewrite Hv.
  - assert (key_eqb (VStr key) (VStr n) = false) as Hk by done.
    destruct (dict_get props (VStr key)) as [v|] eqn:Hv.
    + destruct v; try discriminate; intros [= <-];
        rewrite ?dict_get_set, ?Hk; by destruct (dict_get props (VStr n)).
    + intros [= <-]. by destruct (dict_get props (VStr n)).
Qed.

Lemma coerce_list_keys props key props' :
  coerce_list props key = Ok props' → map fst props `prefix_of` map fst props'.
Proof.
  unfold coerce_list. destruct (dict_get props (VStr key)) as [v|].
  - destruct v; try discriminate; intros [= <-]; [apply keys_set_prefix | done].
  - by intros [= <-].
Qed.

Lemma dict_update_keys d upd : map fst d `prefix_of` map fst (dict_update d upd).
Proof.
  unfold dict_update. revert d. induction upd as [|[k v] upd IH]; intros d; simpl; [done|].
  etrans; [apply (keys_set_prefix d k v) | apply IH].
Qed.

Lemma updated_keys P props :
  updated P = Ok props → map fst default_props `prefix_of` map fst props.
Proof.
  unfold updated. destruct P as [ps|]; simpl.
  - destruct (named_values ps) as [pairs|]; simpl; [|discriminate].
    destruct (dict_of_pairs [] pairs) as [upd|]; simpl; [|discriminate].
    intros [= <-]. apply dict_update_keys.
  - by intros [= <-].
Qed.

Lemma get_livy_props_unfold lang P :
  get_livy_props lang P
  = (props ← updated P;
     props ← coerce_lists props ["archives"; "jars"; "files"; "pyFiles"];
     conf ← getitem (VDict props) "conf";
     items ← iter conf;
     conf' ← conf_dict [] items;
     mret (dict_set (dict_set props (VStr "conf") (VDict conf')) (VStr "kind")
             (VStr (kind lang)))).
Proof. unfold get_livy_props, updated. by destruct P. Qed.

Lemma coerce_lists_lookup keys props props' n :
  NoDup keys →
  coerce_lists props keys = Ok props' →
  match dict_get props (VStr n) with
  | None => dict_get props' (VStr n) = None
  | Some v =>
      if bool_decide (n ∈ keys)
      then ∃ v', livy_value "jars" v = Ok v' ∧ dict_get props' (VStr n) = Some v'
      else dict_get props' (VStr n) = Some v
  end.
Proof.
  revert props. induction keys as [|key keys IH]; intros props Hnd; simpl.
  - intros [= <-]. by destruct (dict_get props (VStr n)).
  - apply NoDup_cons in Hnd as [Hkey Hnd].
    destruct (coerce_list props key) as [props1|] eqn:H1; simpl; [|discriminate].
    intros H2. specialize (IH props1 Hnd H2).
    pose proof (coerce_list_lookup _ _ _ n H1) as Hstep.
    destruct (dict_get props (VStr n)) as [v|].
    + destruct (String.eqb key n) eqn:E.
      * apply String.eqb_eq in E. subst n.
        destruct Hstep as (v' & Hv' & Hget). rewrite Hget in IH.
        rewrite bool_decide_eq_false_2 in IH by done.
        rewrite bool_decide_eq_true_2 by left. eauto.
      * apply String.eqb_neq in E. rewrite Hstep in IH.
        destruct (bool_decide (n ∈ keys)) eqn:B.
        -- apply bool_decide_eq_true_1 in B.
           rewrite bool_decide_eq_true_2 by (by right). done.
        -- apply bool_decide_eq_false_1 in B.
           rewrite bool_decide_eq_false_2; [done|].
           rewrite elem_of_cons. intros [?|?]; congruence.
    + by rewrite Hstep in IH.
Qed.

Lemma coerce_lists_keys keys props props' :
  coerce_lists props keys = Ok props' → map fst props `prefix_of` map fst props'.
Proof.
  revert props. induction keys as [|key keys IH]; intros props; simpl.
  - by intros [= <-].
  - destruct (coerce_list props key) as [props1|] eqn:H1; simpl; [|discriminate].
    intros H2. etrans; [by eapply coerce_list_keys | by apply IH].
Qed.

(** What a name of the merged dict holds. *)
Lemma get_livy_props_lookup lang P props n :
  get_livy_props lang P = Ok props →
  n ≠ "kind" →
  match merged_lookup P n with
  | None => dict_get props (VStr n) = None
  | Some v => ∃ v', livy_value n v = Ok v' ∧ dict_get props (VStr n) = Some v'
  end.
Proof.
  rewrite get_livy_props_unfold. intros H Hkind.
  apply bind_Ok in H as (props1 & H1 & H).
  apply bind_Ok in H as (props2 & H2 & H).
  apply bind_Ok in H as (conf & Hconf & H).
  apply bind_Ok in H as (items & Hitems & H).
  apply bind_Ok in H as (conf' & Hconf' & H).
  injection H as <-.
  rewrite <- (updated_lookup _ _ n H1).
  assert (NoDup ["archives"; "jars"; "files"; "pyFiles"]) as Hnd
    by compute_done.
  pose proof (coerce_lists_lookup _ _ _ n Hnd H2) as Hn.
  rewrite !dict_get_set.
  replace (key_eqb (VStr "kind") (VStr n)) with false
    by (symmetry; apply String.eqb_neq; congruence).
  unfold livy_value.
  destruct (String.eqb "conf" n) eqn:Ec.
  - apply String.eqb_eq in Ec. subst n. simpl.
    unfold getitem in Hconf.
    destruct (dict_get props1 (VStr "conf")) as [v|] eqn:Hv.
    + rewrite bool_decide_eq_false_2 in Hn
        by compute_done.
      rewrite Hn in Hconf. injection Hconf as ->.
      rewrite Hitems. simpl. rewrite Hconf'. simpl. eauto.
    + rewrite Hn in Hconf. discriminate.
  - assert (key_eqb (VStr "conf") (VStr n) = false) as -> by done.
    rewrite String.eqb_sym in Ec. rewrite Ec.
    destruct (dict_get props1 (VStr n)) as [v|]; [|done].
    destruct (bool_decide (n ∈ _)); [done | eauto].
Qed.

Lemma get_livy_props_keys lang P props :
  get_livy_props lang P = Ok props →
  map fst default_props `prefix_of` map fst props.
Proof.
  rewrite get_livy_props_unfold. intros H.
  apply bind_Ok in H as (props1 & H1 & H).
  apply bind_Ok in H as (props2 & H2 & H).
  apply bind_Ok in H as (conf & Hconf & H).
  apply bind_Ok in H as (items & Hitems & H).
  apply bind_Ok in H as (conf' & Hconf' & H).
  injection H as <-.
  etrans; [exact (updated_keys _ _ H1)|].
  etrans; [exact (coerce_lists_keys _ _ _ H2)|].
  etrans; apply keys_set_prefix.
Qed.

Lemma get_livy_props_kind lang P props :
  get_livy_props lang P = Ok props →
  dict_get props (VStr "kind") = Some (VStr (kind lang)).
Proof.
  rewrite get_livy_props_unfold. intros H.
  apply bind_Ok in H as (props1 & H1 & H).
  apply bind_Ok in H as (props2 & H2 & H).
  apply bind_Ok in H as (conf & Hconf & H).
  apply bind_Ok in H as (items & Hitems & H).
  apply bind_Ok in H as (conf' & Hconf' & H).
  injection H as <-. by rewrite dict_get_set, key_eqb_str_refl.
Qed.
End MergeFacts.

(** ** Keys of any kind, and the conf dict *)

Section KeyFacts.
Import Py.

Lemma key_eqb_sym a b : key_eqb a b = key_eqb b a.
Proof.
  destruct a, b; simpl; try done.
  - by destruct b0, b.
  - apply Z.eqb_sym.
  - apply String.eqb_sym.
Qed.

Lemma key_eqb_trans a b c :
  key_eqb a b = true → key_eqb a c = key_eqb b c.
Proof.
  destruct a, b; simpl; try discriminate; destruct c; simpl; try done;
    rewrite ?Bool.eqb_true_iff, ?Z.eqb_eq, ?String.eqb_eq; try by intros ->.
  all: intros H; subst; try done.
  all: try (by destruct b, b0).
  all: try (destruct b; simpl in *; by destruct (Z.eqb_spec 1 z), (Z.eqb_spec 0 z)).
Qed.

(** [d[k] = v] and then [d.get(n)], for keys of any kind. *)
Lemma dict_get_set_key d k v n :
  dict_get (dict_set d k v) n
  = if key_eqb k n then Some v else dict_get d n.
Proof.
  induction d as [|[k0 v0] d IH]; simpl; [done|].
  destruct (key_eqb k0 k) eqn:E; simpl.
  - rewrite (key_eqb_trans _ _ n E). by destruct (key_eqb k n).
  - rewrite IH. destruct (key_eqb k0 n) eqn:E0; [|done].
    destruct (key_eqb k n) eqn:E1; [|done].
    rewrite (key_eqb_trans _ _ k E0), key_eqb_sym in E. congruence.
Qed.
End KeyFacts.

Section ConfFacts.
Import Py Props MergeSpec Conf.

Lemma conf_dict_entries acc items :
  Forall conf_entry items ↔ ∃ conf', conf_dict acc items = Ok conf'.
Proof.
  revert acc. induction items as [|c items IH]; intros acc.
  - split; [intros _; by exists acc | constructor].
  - rewrite Forall_cons. cbn [conf_dict]. unfold conf_entry at 1, conf_pair.
    destruct c as [| | | | |d]; simpl;
      try (split; [by intros [(? & ? & [=] & _) _] | by intros [? [=]]]).
    unfold dict_setitem.
    destruct (hashable (default VNone (dict_get d (VStr "key")))) eqn:Hk; simpl.
    + split.
      * intros [_ H]. by apply IH.
      * intros H. split; [eauto|]. by eapply IH.
    + split; [|by intros [? [=]]]. intros [(k & v & [= <- <-] & Hh) _]. congruence.
Qed.

(** What a key of the dict made of the conf entries holds. *)
Lemma conf_dict_lookup acc items conf' k :
  conf_dict acc items = Ok conf' →
  dict_get conf' k
  = match conf_value items k with
    | Some v => Some v
    | None => dict_get acc k
    end.
Proof.
  revert acc. induction items as [|c items IH]; intros acc; cbn [conf_dict conf_value].
  - by intros [= <-].
  - destruct c as [| | | | |d]; simpl; try discriminate.
    unfold dict_setitem.
    destruct (hashable (default VNone (dict_get d (VStr "key")))); simpl; [|discriminate].
    intros H. apply IH in H. rewrite H, dict_get_set_key.
    destruct (conf_value items k); [done|]. by destruct (key_eqb _ k).
Qed.

Lemma livy_value_conf v :
  (∃ v', livy_value "conf" v = Ok v') ↔ conf_acceptable v.
Proof.
  unfold livy_value. rewrite bool_decide_eq_false_2 by compute_done.
  simpl. unfold conf_acceptable.
  destruct v as [| | |s|items|d]; simpl;
    try (split; [by intros [? [=]] | done]).
  - destruct s as [|c s]; simpl; [split; [done | eauto]|].
    split; [by intros [? [=]] | done].
  - rewrite (conf_dict_entries [] items). split.
    + intros [v' H]. destruct (conf_dict [] items); [eauto | done].
    + intros [conf' ->]. simpl. eauto.
  - rewrite (conf_dict_entries [] (map fst d)). split.
    + intros [v' H]. destruct (conf_dict [] (map fst d)); [eauto | done].
    + intros [conf' ->]. simpl. eauto.
Qed.
End ConfFacts.

(** ** The property merge *)

Section MergeProperties.
Import Py SparkConfiguration Props MergeSpec.

Lemma default_lookup :
  Forall (λ d, dict_get default_props (VStr (name d)) = Some (value_ d)) PROPERTIES.
Proof. repeat constructor. Qed.

Lemma merged_lookup_default P d :
  d ∈ PROPERTIES → merged_lookup P (name d) = Some (merged_value P d).
Proof.
  intros Hd. unfold merged_lookup, merged_value.
  pose proof default_lookup as Hall. rewrite Forall_forall in Hall.
  rewrite (Hall d Hd). by destruct (ps ← P; caller_value ps (name d)).
Qed.

Lemma names_not_kind : Forall (λ d, name d ≠ "kind") PROPERTIES.
Proof. repeat constructor; discriminate. Qed.

(** C3, as the specification states it, fails: with the caller's
    properties [{driverMemory: '2G'}] the merged [driverMemory] is
    ['2G'], but the merge is not the defaults with that one value
    replaced.  The default [conf], an empty list, has become an empty
    dict, and the name [kind], which no default has, is there too; the
    list of properties kept with the session differs in [conf] as well. *)
Lemma merge_is_not_the_defaults_overridden :
  ∃ props,
    get_livy_props "scala" driver_memory_2G = Ok props
    ∧ dict_get props (VStr "driverMemory") = Some (VStr "2G")
    ∧ dict_get props (VStr "conf") = Some (VDict [])
    ∧ dict_get (merge_as_specified driver_memory_2G) (VStr "conf") = Some (VList [])
    ∧ dict_get props (VStr "kind") = Some (VStr "scala")
    ∧ dict_get (merge_as_specified driver_memory_2G) (VStr "kind") = None
    ∧ props ≠ merge_as_specified driver_memory_2G
    ∧ to_properties (Some props) ≠ properties_as_specified driver_memory_2G.
Proof.
  eexists. split; [vm_compute; reflexivity|].
  repeat split; try reflexivity; vm_compute; discriminate.
Qed.

Lemma default_names_lookup n :
  n ∉ map name PROPERTIES → dict_get default_props (VStr n) = None.
Proof. intros Hn. by apply dict_get_None_str_keys. Qed.

(** C3, amended.  Whenever [get_livy_props] returns, the merged dict
    starts with the names of the defaults in their order; every default
    name holds the caller's value for it (that of the caller's last
    entry of that name) or else the default, a value of [archives],
    [jars], [files] or [pyFiles] that is not a list being split at its
    commas and the [conf] list having become a dict; [kind] is set from
    the language; and [to_properties] gives the defaults, in their
    order, with these values.  A name of the caller that is neither a
    default nor [kind] is kept, with the value of the caller's last
    entry of that name, and no other such name is there; in the order
    of the dict it comes after the defaults, which are its first keys.
    The dict that the [conf] list has become holds, for every key, the
    value of the last entry of the list with that key.  With
    [{driverMemory: '2G'}] the merged [driverMemory] is ['2G'] and
    every other default keeps its value, [conf] apart, which is the
    empty dict. *)
Theorem merge_overrides_defaults :
  (∀ lang P props,
     get_livy_props lang P = Ok props →
     map fst default_props `prefix_of` map fst props
     ∧ dict_get props (VStr "kind") = Some (VStr (kind lang))
     ∧ Forall2
         (λ d p, ∃ v, livy_value (name d) (merged_value P d) = Ok v
                      ∧ dict_get props (VStr (name d)) = Some v
                      ∧ p = set_value d v)
         PROPERTIES (to_properties (Some props))
     ∧ (∀ n, n ∉ map name PROPERTIES → n ≠ "kind" →
             dict_get props (VStr n) = ps ← P; caller_value ps n)
     ∧ (∀ items, merged_lookup P "conf" = Some (VList items) →
                 ∃ conf, dict_get props (VStr "conf") = Some (VDict conf)
                         ∧ ∀ k, dict_get conf k = Conf.conf_value items k))
  ∧ (∀ lang,
       get_livy_props lang driver_memory_2G
       = Ok (dict_set
               (dict_set (dict_set default_props (VStr "driverMemory") (VStr "2G"))
                  (VStr "conf") (VDict []))
               (VStr "kind") (VStr (kind lang)))).
Proof.
  split; [|reflexivity].
  intros lang P props H. split_and!.
  - by eapply get_livy_props_keys.
  - by eapply get_livy_props_kind.
  - unfold to_properties. apply Forall2_fmap_r, Forall_Forall2_diag.
    apply Forall_forall. intros d Hd.
    pose proof names_not_kind as Hk. rewrite Forall_forall in Hk.
    pose proof (get_livy_props_lookup lang P props (name d) H (Hk d Hd)) as Hn.
    rewrite (merged_lookup_default P d Hd) in Hn.
    destruct Hn as (v & Hv & Hget). exists v.
    unfold dict_mem. by rewrite Hget.
  - intros n Hn Hkind.
    pose proof (get_livy_props_lookup lang P props n H Hkind) as Hlook.
    unfold merged_lookup in Hlook. rewrite (default_names_lookup n Hn) in Hlook.
    destruct (ps ← P; caller_value ps n) as [v|]; [|done].
    destruct Hlook as (v' & Hv' & ->). f_equal.
    unfold livy_value in Hv'.
    rewrite bool_decide_eq_false_2 in Hv' by (intros Hin; apply Hn; set_solver).
    destruct (String.eqb_spec n "conf") as [->|_]; [|by injection Hv'].
    exfalso. apply Hn. set_solver.
  - intros items Hconf.
    pose proof (get_livy_props_lookup lang P props "conf" H ltac:(done)) as Hlook.
    rewrite Hconf in Hlook. destruct Hlook as (v' & Hv' & ->).
    unfold livy_value in Hv'. rewrite bool_decide_eq_false_2 in Hv' by compute_done.
    simpl in Hv'. destruct (conf_dict [] items) as [conf|] eqn:Hdict; [|done].
    injection Hv' as <-. exists conf. split; [done|]. intros k.
    rewrite (conf_dict_lookup _ _ _ k Hdict). by destruct (Conf.conf_value items k).
Qed.

Lemma merge_overrides_defaults_witness :
  (∃ props,
     get_livy_props "sparksql" jars_and_queue = Ok props
     ∧ dict_get props (VStr "kind") = Some (VStr "sql")
     ∧ dict_get props (VStr "jars") = Some (VList [VStr "a.jar"; VStr "b.jar"])
     ∧ dict_get props (VStr "queue") = Some (VStr "etl"))
  ∧ (∃ props conf,
       get_livy_props "scala" Conf.proxy_user_and_conf = Ok props
       ∧ dict_get props (VStr "proxyUser") = Some (VStr "bob")
       ∧ dict_get props (VStr "conf") = Some (VDict conf)
       ∧ dict_get conf (VStr "spark.ui.port") = Some (VStr "4041")).
Proof.
  split.
  - eexists. split; [vm_compute; reflexivity|].
    pose proof (proj1 merge_overrides_defaults "sparksql" jars_and_queue _ eq_refl)
      as (_ & Hkind & _).
    split; [exact Hkind | split; reflexivity].
  - eassert (get_livy_props "scala" Conf.proxy_user_and_conf = Ok _) as Hrun
      by (vm_compute; reflexivity).
    pose proof (proj1 merge_overrides_defaults "scala" Conf.proxy_user_and_conf _ Hrun)
      as (_ & _ & _ & Hkept & Hconf).
    edestruct Hconf as (conf & Hget & Hvalue); [reflexivity|].
    eexists _, conf. split; [exact Hrun|]. split_and!.
    + rewrite (Hkept "proxyUser"); [reflexivity | compute_done | done].
    + exact Hget.
    + by rewrite Hvalue.
Defined.

End MergeProperties.

(** ** Strings and the matcher *)

Section EngineFacts.
Import Re.
Context {A : Type}.

Lemma append_nil_l (s : string) : "" +:+ s = s.
Proof. reflexivity. Qed.

Lemma append_cons c (a b : string) : String c a +:+ b = String c (a +:+ b).
Proof. reflexivity. Qed.

Lemma strip_prefix_Some pat s t : strip_prefix pat s = Some t ↔ s = pat +:+ t.
Proof.
  revert s. induction pat as [|a pat IH]; intros s; simpl.
  - split; [by intros [= ->] | by intros ->].
  - destruct s as [|b s]; [done|].
    destruct (Ascii.eqb_spec a b) as [->|Hab].
    + rewrite IH. split; [by intros -> | by intros [= ->]].
    + split; [done | intros [= ? _]; done].
Qed.

Lemma strip_prefix_app pat t : strip_prefix pat (pat +:+ t) = Some t.
Proof. by apply strip_prefix_Some. Qed.

Lemma exec_lits lit s g (k : string → groups → option A) :
  exec (lits lit) s g k
  = match strip_prefix lit s with
    | Some t => k t g
    | None => None
    end.
Proof.
  revert s. induction lit as [|a lit IH]; intros s; simpl; [done|].
  destruct s as [|b s]; [done|]. destruct (Ascii.eqb a b); [apply IH | done].
Qed.

Lemma plus_cls_Some p s (k : string → option A) x :
  plus_cls p s k = Some x →
  ∃ a b, s = a +:+ b ∧ a ≠ "" ∧ all_chars p a = true ∧ k b = Some x.
Proof.
  revert x. induction s as [|c s IH]; intros x; simpl; [done|].
  destruct (p c) eqn:Hc; [|done].
  destruct (plus_cls p s k) as [y|] eqn:Hrec.
  - intros [= ->]. destruct (IH _ eq_refl) as (a & b & -> & Ha & Hall & Hk).
    exists (String c a), b. simpl. by rewrite Hc, Hall.
  - intros Hk. exists (String c ""), s. simpl. by rewrite Hc.
Qed.

Lemma plus_cls_complete p a b (k : string → option A) :
  a ≠ "" → all_chars p a = true → is_Some (k b) → is_Some (plus_cls p (a +:+ b) k).
Proof.
  induction a as [|c a IH]; [done|]. intros _ Hall Hk.
  rewrite append_cons. simpl in *.
  apply andb_prop in Hall as [-> Hall].
  destruct a as [|c' a].
  - rewrite append_nil_l. destruct (plus_cls p b k); [done | exact Hk].
  - destruct (IH ltac:(done) Hall Hk) as [y Hy]. rewrite Hy. done.
Qed.

Lemma exec_Cat r1 r2 s g (k : string → groups → option A) :
  exec (Cat r1 r2) s g k = exec r1 s g (λ s' g', exec r2 s' g' k).
Proof. reflexivity. Qed.

Lemma exec_Opt r s g (k : string → groups → option A) :
  exec (Opt r) s g k
  = match exec r s g k with Some x => Some x | None => k s g end.
Proof. reflexivity. Qed.

Lemma exec_Grp n r s g (k : string → groups → option A) :
  exec (Grp n r) s g k = exec r s g (λ s' g', k s' ((n, consumed s s') :: g')).
Proof. reflexivity. Qed.

Lemma exec_Plus p s g (k : string → groups → option A) :
  exec (Plus p) s g k = plus_cls p s (λ s', k s' g).
Proof. reflexivity. Qed.

Lemma exec_Lit c s g (k : string → groups → option A) :
  exec (Lit c) s g k
  = match strip_prefix (String c "") s with
    | Some t => k t g
    | None => None
    end.
Proof. destruct s as [|c' s]; simpl; [done|]. by destruct (Ascii.eqb c c'). Qed.
End EngineFacts.

Section SearchFacts.
Import Re Runs.

Lemma append_assoc (a b c : string) : (a +:+ b) +:+ c = a +:+ (b +:+ c).
Proof. induction a as [|x a IH]; [done|]. by rewrite !append_cons, IH. Qed.

Lemma contains_spec pat s : contains pat s = true ↔ substring_of pat s.
Proof.
  unfold substring_of. induction s as [|c s IH]; simpl.
  - rewrite orb_false_r, bool_decide_eq_true. split.
    + intros [t Ht]. apply strip_prefix_Some in Ht. by exists "", t.
    + intros (a & b & H). destruct a; [|done].
      rewrite append_nil_l in H. exists b. by apply strip_prefix_Some.
  - rewrite orb_true_iff, bool_decide_eq_true, IH. split.
    + intros [[t Ht] | (a & b & ->)].
      * apply strip_prefix_Some in Ht. by exists "", t.
      * by exists (String c a), b.
    + intros (a & b & H). destruct a as [|c' a].
      * left. exists b. by apply strip_prefix_Some.
      * right. rewrite append_cons in H. injection H as -> ->. by exists a, b.
Qed.

Lemma search_is_Some r s :
  is_Some (search r s) ↔ ∃ pre post, s = pre +:+ post ∧ is_Some (match_here r post).
Proof.
  induction s as [|c s IH]; simpl.
  - destruct (match_here r "") eqn:E.
    + split; [|done]. intros _. exists "", "". by rewrite E.
    + split; [by intros [? ?]|]. intros (pre & post & H & Hm).
      destruct pre, post; try done. by rewrite E in Hm.
  - destruct (match_here r (String c s)) eqn:E.
    + split; [|done]. intros _. exists "", (String c s). by rewrite E.
    + rewrite IH. split.
      * intros (pre & post & -> & Hm). by exists (String c pre), post.
      * intros (pre & post & H & Hm). destruct pre as [|c' pre].
        -- rewrite append_nil_l in H. subst post. by rewrite E in Hm.
        -- rewrite append_cons in H. injection H as -> ->. by exists pre, post.
Qed.
End SearchFacts.

Section ExpiredFacts.
Import Re Py SparkApi Runs.

Lemma session_not_found_here s :
  is_Some (match_here SESSION_NOT_FOUND_RE s)
  ↔ (∃ t, s = "session not found" +:+ t)
    ∨ (∃ ds t, ds ≠ "" ∧ all_chars digit ds = true
               ∧ s = ("session '" +:+ ds +:+ "' not found") +:+ t).
Proof.
  unfold match_here, SESSION_NOT_FOUND_RE.
  rewrite exec_Cat, exec_lits.
  destruct (strip_prefix "session " s) as [t|] eqn:Hs.
  - apply strip_prefix_Some in Hs. subst s.
    rewrite exec_Cat, exec_Opt, exec_Grp, exec_Cat, exec_Lit.
    split.
    + destruct (strip_prefix "'" t) as [u|] eqn:Hu.
      * apply strip_prefix_Some in Hu. subst t.
        rewrite exec_Cat, exec_Plus.
        match goal with |- context [plus_cls ?p ?s ?k] =>
          destruct (plus_cls p s k) as [x|] eqn:Hp end.
        -- intros _. right.
           apply plus_cls_Some in Hp as (ds & b & -> & Hne & Hall & Hk).
           rewrite !exec_lits in Hk.
           destruct (strip_prefix "' " b) as [b'|] eqn:Hb; [|done].
           apply strip_prefix_Some in Hb. subst b. rewrite exec_lits in Hk.
           destruct (strip_prefix "not found" b') as [t|] eqn:Ht; [|done].
           apply strip_prefix_Some in Ht. subst b'.
           exists ds, t. split_and!; [done..|].
           by rewrite !append_assoc.
        -- rewrite exec_lits. by intros [? ?].
      * rewrite exec_lits.
        destruct (strip_prefix "not found" t) as [t'|] eqn:Ht; [|by intros [? ?]].
        apply strip_prefix_Some in Ht. subst t. intros _. left. by exists t'.
    + intros [(t' & H) | (ds & t' & Hne & Hall & H)].
      * change ("session not found" +:+ t') with ("session " +:+ "not found" +:+ t') in H.
        apply (inj (String.append "session ")) in H. subst t.
        simpl. done.
      * rewrite !append_assoc in H.
        apply (inj (String.append "session ")) in H. subst t.
        change (String "'" (ds +:+ "' not found" +:+ t'))
          with ("'" +:+ ds +:+ "' " +:+ "not found" +:+ t').
        rewrite strip_prefix_app, exec_Cat, exec_Plus.
        match goal with |- is_Some (match ?x with _ => _ end) =>
          assert (is_Some x) as [y ->]; [|done] end.
        apply plus_cls_complete; [done..|].
        rewrite exec_lits, strip_prefix_app, exec_lits, strip_prefix_app. done.
  - split; [by intros [? ?]|].
    intros [(t' & ->) | (ds & t' & _ & _ & ->)]; discriminate.
Qed.

Lemma session_not_found_spec message :
  is_Some (search SESSION_NOT_FOUND_RE message) ↔ says_session_not_found message.
Proof.
  rewrite search_is_Some. unfold says_session_not_found, substring_of. split.
  - intros (pre & post & -> & [(t & ->) | (ds & t & Hne & Hall & ->)]%session_not_found_here).
    + left. by exists pre, t.
    + right. exists ds. split_and!; [done..|]. by exists pre, t.
  - intros [(a & b & ->) | (ds & Hne & Hall & a & b & ->)].
    + exists a, ("session not found" +:+ b). split; [done|].
      apply session_not_found_here. left. by exists b.
    + exists a, (("session '" +:+ ds +:+ "' not found") +:+ b). split; [done|].
      apply session_not_found_here. right. by exists ds, b.
Qed.

(** The test of [_execute] holds of the messages that say so. *)
Lemma is_expired_message_spec message :
  is_expired_message message = true ↔ expired_message message.
Proof.
  unfold is_expired_message, expired_message.
  rewrite !orb_true_iff, bool_decide_eq_true, !contains_spec, session_not_found_spec.
  tauto.
Qed.
End ExpiredFacts.

Section RegexFacts.
Import Re.

Lemma search_unfold r s :
  search r s
  = match match_here r s with
    | Some m => Some m
    | None => match s with String _ s' => search r s' | EmptyString => None end
    end.
Proof. by destruct s. Qed.

Lemma search_finditer r s : search r s = head (finditer r s).
Proof.
  funelim (finditer r s); rewrite search_unfold;
    match goal with H : match_here _ _ = _ |- _ => rewrite H end; done.
Qed.

Lemma search_Some_split r s m :
  search r s = Some m → ∃ pre post, s = pre +:+ post ∧ match_here r post = Some m.
Proof.
  induction s as [|c s IH]; simpl.
  - destruct (match_here r "") eqn:E; [|done]. intros [= <-]. by exists "", "".
  - destruct (match_here r (String c s)) eqn:E.
    + intros [= <-]. by exists "", (String c s).
    + intros (pre & post & -> & H)%IH. by exists (String c pre), post.
Qed.

Lemma search_None r s :
  (∀ pre post, s = pre +:+ post → match_here r post = None) → search r s = None.
Proof.
  induction s as [|c s IH]; intros H; simpl.
  - by rewrite (H "" "").
  - rewrite (H "" (String c s)) by done. apply IH.
    intros pre post ->. by apply (H (String c pre) post).
Qed.
End RegexFacts.

Section PatternFacts.
Import Re Jobs.

Lemma length_append (a b : string) :
  String.length (a +:+ b) = (String.length a + String.length b)%nat.
Proof. induction a as [|c a IH]; [done|]. rewrite append_cons. simpl. by rewrite IH. Qed.

Lemma take_str_append (a b : string) : take_str (String.length a) (a +:+ b) = a.
Proof.
  induction a as [|c a IH]; [by destruct b|]. rewrite append_cons. simpl. by rewrite IH.
Qed.

Lemma consumed_append (a b : string) : consumed (a +:+ b) b = a.
Proof.
  unfold consumed. rewrite length_append.
  replace (String.length a + String.length b - String.length b)%nat
    with (String.length a) by lia.
  apply take_str_append.
Qed.

(** A match of ["Got job (\d+)"] reads [Got job ], then digits, and
    its group 1 is those digits. *)
Lemma got_job_here s m :
  match_here STANDALONE_JOB_RE s = Some m →
  ∃ ds, s = "Got job " +:+ ds +:+ rest m
        ∧ ds ≠ "" ∧ all_chars digit ds = true
        ∧ group m 1 = ds.
Proof.
  unfold match_here, STANDALONE_JOB_RE.
  rewrite exec_Cat, exec_lits.
  destruct (strip_prefix "Got job " s) as [t|] eqn:Hs; [|done].
  apply strip_prefix_Some in Hs. subst s.
  rewrite exec_Grp, exec_Plus.
  intros (ds & b & -> & Hne & Hall & [= <-])%plus_cls_Some.
  exists ds. rewrite consumed_append. done.
Qed.

(** A match of the Spark UI pattern reads [Started SparkUI at ] and
    then a URL: a scheme, a host, a port; group 1 is the URL. *)
Lemma spark_ui_here s m :
  match_here SPARK_UI_RE s = Some m →
  ∃ scheme host port,
    s = "Started SparkUI at " +:+ group m 1 +:+ rest m
    ∧ group m 1 = scheme +:+ "://" +:+ host +:+ ":" +:+ port
    ∧ (scheme = "http" ∨ scheme = "https")
    ∧ host ≠ "" ∧ all_chars host_char host = true
    ∧ port ≠ "" ∧ all_chars digit port = true.
Proof.
  unfold match_here, SPARK_UI_RE.
  rewrite exec_Cat, exec_lits.
  destruct (strip_prefix "Started SparkUI at " s) as [t|] eqn:Hs; [|done].
  apply strip_prefix_Some in Hs. subst s.
  rewrite exec_Grp, exec_Cat, exec_lits.
  destruct (strip_prefix "http" t) as [u|] eqn:Ht; [|done].
  apply strip_prefix_Some in Ht. subst t.
  rewrite exec_Cat, exec_Opt.
  assert (∀ v (g : groups) x,
            exec (Cat (lits "://")
                    (Cat (Grp 2 (Plus host_char)) (Cat (Lit ":") (Grp 3 (Plus digit)))))
              v g
              (λ s' g', Some {| captures := (1%nat, consumed ("http" +:+ u) s') :: g';
                                rest := s' |}) = Some x →
            ∃ host port,
              v = "://" +:+ host +:+ ":" +:+ port +:+ rest x
              ∧ lookup_group (captures x) 1 = Some (consumed ("http" +:+ u) (rest x))
              ∧ host ≠ "" ∧ all_chars host_char host = true
              ∧ port ≠ "" ∧ all_chars digit port = true) as Htail.
  { intros v g x. rewrite exec_Cat, exec_lits.
    destruct (strip_prefix "://" v) as [v1|] eqn:Hv; [|done].
    apply strip_prefix_Some in Hv. subst v.
    rewrite exec_Cat, exec_Grp, exec_Plus.
    intros (host & b & -> & Hh & Hhall & Hk)%plus_cls_Some.
    rewrite exec_Cat, exec_Lit in Hk.
    destruct (strip_prefix ":" b) as [b1|] eqn:Hb; [|done].
    apply strip_prefix_Some in Hb. subst b.
    rewrite exec_Grp, exec_Plus in Hk.
    apply plus_cls_Some in Hk as (port & b2 & -> & Hp & Hpall & [= <-]).
    exists host, port. by simpl. }
  intros Hm.
  assert (∃ scheme host port,
            "http" +:+ u = scheme +:+ "://" +:+ host +:+ ":" +:+ port +:+ rest m
            ∧ lookup_group (captures m) 1 = Some (consumed ("http" +:+ u) (rest m))
            ∧ (scheme = "http" ∨ scheme = "https")
            ∧ host ≠ "" ∧ all_chars host_char host = true
            ∧ port ≠ "" ∧ all_chars digit port = true)
    as (scheme & host & port & Hu & Hg & Hscheme & Hrest).
  { rewrite exec_Lit in Hm.
    destruct (strip_prefix "s" u) as [u1|] eqn:Hu.
    - apply strip_prefix_Some in Hu. subst u.
      match type of Hm with match ?x with _ => _ end = _ =>
        destruct x as [y|] eqn:Hy end.
      + injection Hm as ->. apply Htail in Hy as (host & port & -> & Hg & Hrest).
        exists "https", host, port. split_and!; try done; try apply Hrest. by right.
      + apply Htail in Hm as (host & port & [=] & _).
    - apply Htail in Hm as (host & port & -> & Hg & Hrest).
      exists "http", host, port. split_and!; try done; try apply Hrest. by left. }
  assert (group m 1 = scheme +:+ "://" +:+ host +:+ ":" +:+ port) as Hurl.
  { unfold group. rewrite Hg. simpl. rewrite Hu.
    rewrite <- !append_assoc. rewrite consumed_append. by rewrite !append_assoc. }
  exists scheme, host, port. split_and!; try done; try apply Hrest.
  rewrite Hurl, Hu. by rewrite !append_assoc.
Qed.
End PatternFacts.

(** ** Jobs read from the log *)

Section JobsProperties.
Import Re Jobs.

Lemma elem_of_job_ids_fold (l : list match_object) (acc : gset string) n :
  n ∈ fold_left (λ acc m, acc ∪ {[ group m 1 ]}) l acc
  ↔ n ∈ acc ∨ n ∈ map (λ m, group m 1) l.
Proof.
  revert acc. induction l as [|m l IH]; intros acc; simpl.
  - rewrite elem_of_nil. tauto.
  - rewrite IH, elem_of_union, elem_of_singleton, elem_of_cons. tauto.
Qed.

Lemma elem_of_job_ids logs n :
  n ∈ job_ids logs ↔ n ∈ map (λ m, group m 1) (finditer STANDALONE_JOB_RE logs).
Proof.
  unfold job_ids. rewrite elem_of_job_ids_fold. set_solver.
Qed.

(** C9.  When the Spark UI pattern matches nowhere in the log,
    [_get_standalone_jobs] returns no job and logs one warning.  When
    it matches exactly once, with [m], and the job numbers found by
    ["Got job (\d+)"] are exactly [n1] and [n2], different from each
    other, nothing is logged and the jobs are the two entries named
    [n1] and [n2], each with the URL of [m] followed by
    [/jobs/job/?id=] and its number (in the order of the set). *)
Theorem standalone_jobs_from_log :
  (∀ logs,
     (∀ pre post, logs = pre +:+ post → match_here SPARK_UI_RE post = None) →
     _get_standalone_jobs logs = ([no_ui_warning], []))
  ∧ (∀ logs m n1 n2,
       finditer SPARK_UI_RE logs = [m] →
       n1 ≠ n2 →
       (∀ n, n ∈ map (λ j, group j 1) (finditer STANDALONE_JOB_RE logs)
             ↔ n = n1 ∨ n = n2) →
       (_get_standalone_jobs logs).1 = []
       ∧ length (_get_standalone_jobs logs).2 = 2%nat
       ∧ (_get_standalone_jobs logs).2
           ≡ₚ [job_entry (group m 1) n1; job_entry (group m 1) n2]).
Proof.
  split.
  - intros logs H. unfold _get_standalone_jobs. by rewrite (search_None _ _ H).
  - intros logs m n1 n2 Hui Hne Hjobs.
    unfold _get_standalone_jobs. rewrite search_finditer, Hui. simpl.
    assert (job_ids logs = {[n1; n2]}) as ->.
    { apply set_eq. intros n. rewrite elem_of_job_ids, Hjobs. set_solver. }
    assert (elements ({[n1; n2]} : gset string) ≡ₚ [n1; n2]) as Hel.
    { rewrite elements_disj_union by set_solver. by rewrite !elements_singleton. }
    split; [done|]. split.
    + rewrite length_map. by rewrite Hel.
    + by rewrite Hel.
Qed.
End JobsProperties.

(** ** Closing sessions *)

Section CloseSession.
Import Py SparkApi Runs.
Context {R : Type} `{!LivyApi R}.
Variable self : Self.

Lemma forget_closed_run (session_id : option Z) (w : World R) :
  forget_closed self session_id w
  = (Ok tt, {| remote := remote w;
               profile := profile_after_close self session_id (profile w);
               trace := forget_trace self session_id (profile w) ++ trace w |}).
Proof.
  unfold forget_closed, profile_after_close, forget_trace, mbind, M_bind,
    _get_session_info_from_user.
  destruct (profile w !! _get_session_key self) as [info|] eqn:Hinfo; [|done].
  case_bool_decide; [|done].
  unfold _remove_session_info_from_user. simpl. by rewrite Hinfo.
Qed.

Lemma close_session_run (i : Z) (w : World R) (r : result unit) (remote' : R) :
  api_close (Some i) (remote w) = (r, remote') →
  close_session self (Some i) w
  = (close_result i r,
     {| remote := remote';
        profile := profile_after_close self (Some i) (profile w);
        trace := forget_trace self (Some i) (profile w)
                   ++ Close (Some i) r :: trace w |}).
Proof.
  intros Hclose.
  unfold close_session, try_finally, try_except, close, call, mbind, M_bind.
  rewrite Hclose.
  destruct r as [[]|e]; simpl.
  - by rewrite forget_closed_run.
  - destruct e; simpl; rewrite ?forget_closed_run; try done.
    destruct ((code =? 404) || (code =? 500)); simpl; by rewrite forget_closed_run.
Qed.

Lemma profile_after_close_other session_id (p : gmap string SessionInfo) key :
  key ≠ _get_session_key self →
  profile_after_close self session_id p !! key = p !! key.
Proof.
  intros Hkey. unfold profile_after_close.
  destruct (p !! _get_session_key self); [|done].
  case_bool_decide; [|done]. by rewrite lookup_delete_ne.
Qed.

Lemma profile_after_close_key session_id (p : gmap string SessionInfo) :
  profile_after_close self session_id p !! _get_session_key self
  = info ← p !! _get_session_key self;
    if bool_decide (session_id = si_id info) then None else Some info.
Proof.
  unfold profile_after_close.
  destruct (p !! _get_session_key self) as [info|] eqn:Hinfo; simpl; [|done].
  case_bool_decide; [by rewrite lookup_delete_eq | done].
Qed.

(** C10.  Without a session id, [close_session] answers
    [{'status': -1}] and leaves the world as it was: no event is added
    to the trace, so neither Livy nor the profile was touched. *)
Theorem close_session_without_id (w : World R) :
  ∃ w',
    close_session self None w
    = (Ok (Some {| cr_session := None; cr_status := -1 |}), w')
    ∧ remote w' = remote w
    ∧ profile w' = profile w
    ∧ trace w' = trace w.
Proof. exists w. split_and!; reflexivity. Qed.

(** C6.  When the remote [close] answers 404 or 500, [close_session]
    raises [SessionExpired] around that exception; when it succeeds,
    the session id comes back with status 0.  Either way the entry of
    the profile under the session key is gone afterwards exactly when
    the stored id is the closed one, and no other key is touched. *)
Theorem close_session_expired (w : World R) (i : Z) (r : result unit) (remote' : R) :
  api_close (Some i) (remote w) = (r, remote') →
  r = Ok tt ∨ gone r →
  ∃ w',
    close_session self (Some i) w
    = (match r with
       | Ok _ => Ok (Some {| cr_session := Some i; cr_status := 0 |})
       | Raise e => Raise (SessionExpired e)
       end, w')
    ∧ (∀ info, profile w !! _get_session_key self = Some info →
               profile w' !! _get_session_key self = None ↔ si_id info = Some i)
    ∧ (profile w !! _get_session_key self = None →
       profile w' !! _get_session_key self = None)
    ∧ (∀ key, key ≠ _get_session_key self → profile w' !! key = profile w !! key).
Proof.
  intros Hclose Hr. rewrite (close_session_run _ _ _ _ Hclose).
  eexists. split_and!.
  - f_equal. destruct Hr as [-> | (code & msg & -> & [-> | ->])]; reflexivity.
  - intros info Hinfo. simpl. rewrite profile_after_close_key, Hinfo. simpl.
    case_bool_decide; split; congruence.
  - intros Hnone. simpl. by rewrite profile_after_close_key, Hnone.
  - intros key Hkey. simpl. by apply profile_after_close_other.
Qed.

Lemma profile_after_close_stored (p : gmap string SessionInfo) info i :
  p !! _get_session_key self = Some info →
  Some i ≠ si_id info →
  profile_after_close self (Some i) p = p
  ∧ forget_trace self (Some i) p = [StoreGet (_get_session_key self)].
Proof.
  intros Hinfo Hne. unfold profile_after_close, forget_trace. rewrite Hinfo.
  by rewrite bool_decide_eq_false_2.
Qed.

Lemma close_each_run (info : SessionInfo) (sessions : list LivySession)
  (w : World R) r w' :
  profile w !! _get_session_key self = Some info →
  close_each self (Some info) sessions w = (r, w') →
  ∃ evs,
    trace w' = evs ++ trace w
    ∧ ((∀ i res, Close i res ∈ evs → let_pass res) →
       r = Ok tt
       ∧ closed evs
         = rev (map (λ s, Some (ls_id s)) (filter (λ s, unused self info s = true) sessions))
       ∧ logged evs = []
       ∧ profile w' = profile w).
Proof.
  revert w. induction sessions as [|session rest IH]; intros w Hinfo.
  - intros [= <- <-]. by exists [].
  - cbn [close_each]. rewrite filter_cons.
    assert (close_each self (Some info) (session :: rest) w
            = (_ ← (if unused self info session
                    then _ ← close_session self (Some (ls_id session)); mret tt
                    else mret tt);
               close_each self (Some info) rest) w) as Hstep.
    { cbn [close_each]. unfold unused, mbind, M_bind.
      by destruct (bool_decide (ls_owner session = Some (username self))). }
    cbn [close_each] in Hstep. rewrite Hstep. clear Hstep.
    unfold mbind at 1, M_bind at 1.
    destruct (unused self info session) eqn:Hun.
    + unfold mbind at 1, M_bind at 1.
      destruct (api_close (Some (ls_id session)) (remote w)) as [r1 remote1] eqn:Hclose.
      rewrite (close_session_run _ _ _ _ Hclose).
      unfold unused in Hun. apply andb_prop in Hun as [[_ Hne]%andb_prop _].
      apply bool_decide_eq_true_1 in Hne.
      destruct (profile_after_close_stored _ _ _ Hinfo Hne) as [-> ->].
      destruct (close_result (ls_id session) r1) as [a|e] eqn:Hres.
      * intros Hrest. apply IH in Hrest as (evs & Htr & Hevs); [|done].
        simpl in Htr. eexists (evs ++ [_; _]). split.
        { rewrite Htr. by rewrite <- app_assoc. }
        intros Hpass.
        destruct Hevs as (-> & Hclosed & Hlogged & Hprofile).
        { intros i res Hin. apply (Hpass i res). apply elem_of_app. by left. }
        split_and!; [done | | | done].
        -- unfold closed in *. by rewrite omap_app, Hclosed.
        -- unfold logged in *. by rewrite omap_app, Hlogged.
      * intros [= <- <-]. simpl. eexists [_; _]. split; [done|].
        intros Hpass.
        assert (let_pass r1) as Hr1.
        { apply (Hpass (Some (ls_id session))). apply elem_of_cons. right. left. }
        destruct Hr1 as [-> | (code & msg & -> & H404 & H500)]; [done|].
        simpl in Hres.
        apply Z.eqb_neq in H404, H500. by rewrite H404, H500 in Hres.
    + intros Hrest. apply IH in Hrest as (evs & Htr & Hevs); [|done].
      exists evs. split; [done|]. intros Hpass.
      destruct (Hevs Hpass) as (-> & Hclosed & Hlogged & Hprofile).
      split_and!; done.
Qed.

Lemma close_each_trace stored (sessions : list LivySession) (w : World R) r w' :
  close_each self stored sessions w = (r, w') → ∃ evs, trace w' = evs ++ trace w.
Proof.
  revert w. induction sessions as [|session rest IH]; intros w.
  - intros [= <- <-]. by exists [].
  - cbn [close_each]. unfold mbind, M_bind, mret, M_ret, raise.
    destruct (bool_decide (ls_owner session = Some (username self))).
    + destruct stored as [info|]; [|intros [= <- <-]; by exists []].
      destruct (bool_decide (Some (ls_id session) ≠ si_id info) && is_unused (ls_state session)).
      * destruct (api_close (Some (ls_id session)) (remote w)) as [r1 remote1] eqn:Hclose.
        rewrite (close_session_run _ _ _ _ Hclose).
        destruct (close_result (ls_id session) r1).
        -- intros (evs & Htr)%IH. simpl in Htr.
           exists (evs ++ forget_trace self (Some (ls_id session)) (profile w)
                     ++ [Close (Some (ls_id session)) r1]).
           rewrite Htr. by rewrite <- !app_assoc.
        -- intros [= <- <-]. simpl.
           exists (forget_trace self (Some (ls_id session)) (profile w)
                     ++ [Close (Some (ls_id session)) r1]).
           by rewrite <- app_assoc.
      * apply IH.
    + apply IH.
Qed.

(** C8, amended.  When the list of sessions cannot be had,
    [_close_unused_sessions] logs the lowered message at debug level
    and returns with nothing closed.  When it can, and a session is
    stored, and every [close] of the sweep either succeeds or fails
    with an HTTP status other than 404 and 500, the sweep returns
    after it has asked Livy to close, in the order listed, exactly the
    sessions of the user that are idle, shutting down, in error, dead
    or killed and are not the stored one; it logs nothing and leaves
    the profile as it was. *)
Theorem close_unused_sessions_sweep (w : World R) r w' :
  _close_unused_sessions self w = (r, w') →
  ∃ evs,
    trace w' = evs ++ trace w
    ∧ (∀ e remote',
         api_get_sessions (remote w) = (Raise e, remote') →
         r = Ok tt
         ∧ evs = [Log DEBUG (lower (str_exn e)); GetSessions (Raise e)]
         ∧ profile w' = profile w)
    ∧ (∀ sessions remote' info,
         api_get_sessions (remote w) = (Ok sessions, remote') →
         profile w !! _get_session_key self = Some info →
         (∀ i res, Close i res ∈ evs → let_pass res) →
         r = Ok tt
         ∧ closed evs
           = rev (map (λ s, Some (ls_id s))
                    (filter (λ s, unused self info s = true) sessions))
         ∧ logged evs = []
         ∧ profile w' = profile w).
Proof.
  unfold _close_unused_sessions, try_except, get_sessions, call, emit,
    _get_session_info_from_user.
  unfold mbind, M_bind, mret, M_ret.
  destruct (api_get_sessions (remote w)) as [[sessions|e] remote1] eqn:Hget; simpl.
  - destruct (profile w !! _get_session_key self) as [info|] eqn:Hinfo.
    + intros Hrun. apply close_each_run in Hrun as (evs & Htr & Hevs); [|done].
      simpl in Htr.
      exists (evs ++ [StoreGet (_get_session_key self); GetSessions (Ok sessions)]).
      split; [by rewrite Htr, <- app_assoc|]. split; [by intros ? ? [=]|].
      intros ? ? info' [= <-] [= <-] Hpass.
      destruct Hevs as (-> & Hclosed & Hlogged & Hprofile).
      { intros i res Hin. apply (Hpass i res), elem_of_app. by left. }
      split_and!; [done | | | done].
      * unfold closed in *. by rewrite omap_app, Hclosed, app_nil_r.
      * unfold logged in *. by rewrite omap_app, Hlogged.
    + intros (evs & Htr)%close_each_trace. simpl in Htr.
      exists (evs ++ [StoreGet (_get_session_key self); GetSessions (Ok sessions)]).
      split; [by rewrite Htr, <- app_assoc|]. split; [by intros ? ? [=]|].
      intros ? ? ? _ [=].
  - intros [= <- <-].
    exists [Log DEBUG (lower (str_exn e)); GetSessions (Raise e)].
    split; [reflexivity|]. split.
    + by intros ? ? [= <-].
    + by intros ? ? ? [=].
Qed.
End CloseSession.

(** ** Creating a session *)

(** Close the side conditions of a loop that stops here. *)
Ltac loop_end :=
  try done; try (by constructor); try (simpl; lia);
  try (by intros (? & [= <-] & ?)); try (by intros (? & [=] & ?)).

Section CreateSession.
Import Py SparkApi Runs.
Context {R : Type} `{!LivyApi R}.
Variable self : Self.

Lemma check_session_run (session_id : option Z) (w : World R) r remote' :
  api_get_session session_id (remote w) = (r, remote') →
  _check_session session_id w
  = (Ok (check_result r),
     {| remote := remote'; profile := profile w;
        trace := GetSession session_id r :: trace w |}).
Proof.
  intros Hget.
  unfold _check_session, try_except, get_session, call, mbind, M_bind, mret, M_ret.
  rewrite Hget. destruct r as [s|e]; simpl; [|done].
  by destruct (is_unhealthy (ls_state s)).
Qed.

(** The loop of [create_session]. *)
Lemma wait_while_starting_run (n : nat) (id : Z) (st : LivySession) (w : World R) r w' :
  wait_while_starting n id st w = (r, w') →
  ∃ evs,
    trace w' = evs ++ trace w
    ∧ profile w' = profile w
    ∧ Forall (wait_event id) evs
    ∧ (length (observations evs) ≤ n)%nat
    ∧ (length (sleeps evs) ≤ n)%nat
    ∧ Forall starting (tail (observations evs ++ [Ok st]))
    ∧ head (observations evs ++ [Ok st]) = Some r
    ∧ (starting r → length (observations evs) = n).
Proof.
  revert st w. induction n as [|n IH]; intros st w; cbn [wait_while_starting].
  - destruct (String.eqb_spec (ls_state st) "starting") as [Hst|Hst].
    + intros [= <- <-]. exists []. split_and!; loop_end.
    + intros [= <- <-]. exists []. split_and!; loop_end.
  - destruct (String.eqb_spec (ls_state st) "starting") as [Hst|Hst].
    + unfold mbind, M_bind, get_session, call, sleep, emit.
      destruct (api_get_session (Some id) (remote w)) as [[st1|e] remote1] eqn:Hget.
      * intros Hrun. apply IH in Hrun as (evs & Htr & Hp & Hevs & Hobs & Hsl & Hst' & Hhd & Hn).
        simpl in Htr, Hp.
        exists (evs ++ [Sleep 1; GetSession (Some id) (Ok st1)]).
        unfold observations, sleeps in *. rewrite !omap_app. simpl.
        split_and!.
        -- by rewrite Htr, <- app_assoc.
        -- done.
        -- apply Forall_app. split; [done|].
           apply Forall_cons. split; [by right|].
           apply Forall_cons. split; [left; eauto | constructor].
        -- rewrite length_app. simpl. lia.
        -- rewrite length_app. simpl. lia.
        -- rewrite <- app_assoc. simpl.
           destruct (omap _ evs) as [|o obs] eqn:Hom; simpl in *.
           ++ repeat constructor. by exists st.
           ++ change [Ok st1; Ok st] with ([Ok st1] ++ [Ok st]).
              rewrite app_assoc.
              apply Forall_app. split; [done|]. repeat constructor. by exists st.
        -- rewrite <- app_assoc. simpl.
           by destruct (omap _ evs).
        -- intros Hr. rewrite length_app. simpl. rewrite (Hn Hr). lia.
      * intros [= <- <-]. exists [GetSession (Some id) (Raise e)].
        split_and!; loop_end.
        -- apply Forall_cons. split; [left; eauto | constructor].
        -- simpl. repeat constructor. by exists st.
    + intros [= <- <-]. exists []. split_and!; loop_end.
Qed.

Lemma new_session_run lang properties (w : World R) r w' :
  new_session self lang properties w = (r, w') →
  (∃ e, r = Raise e ∧ trace w' = trace w ∧ profile w' = profile w)
  ∨ (∃ props e,
       r = Raise e
       ∧ trace w' = CreateSession props (Raise e) :: trace w
       ∧ profile w' = profile w)
  ∨ (∃ props rid o loop tail,
       trace w' = tail ++ loop ++ GetSession (Some rid) o
                    :: CreateSession props (Ok rid) :: trace w
       ∧ created self lang props rid o loop r (profile w) (profile w') tail).
Proof.
  unfold new_session.
  match goal with |- context [Props.get_livy_props lang ?p] =>
    destruct (Props.get_livy_props lang p) as [props|e] end.
  2: { intros [= <- <-]. left. eauto. }
  unfold lift. unfold mbind at 1, M_bind at 1.
  unfold mbind at 1, M_bind at 1. unfold call at 1.
  destruct (api_create_session props (remote w)) as [[rid|e] remote1].
  2: { intros [= <- <-]. right. left. eauto 10. }
  unfold mbind at 1, M_bind at 1. unfold get_session at 1, call at 1. cbn [remote].
  destruct (api_get_session (Some rid) remote1) as [[st0|e] remote2].
  2: { intros [= <- <-]. right. right. exists props, rid, (Raise e), [], []. 
       split; [done|]. exists (Raise e). cbn [profile]. split_and!; loop_end. }
  unfold mbind at 1, M_bind at 1.
  match goal with |- context [wait_while_starting 120 rid st0 ?w1] =>
    destruct (wait_while_starting 120 rid st0 w1) as [rl wl] eqn:Hloop end.
  apply wait_while_starting_run in Hloop
    as (loop & Htr & Hp & Hevs & Hobs & Hsl & Hst & Hhd & Hn).
  cbn [trace profile] in Htr, Hp.
  intros Hrun. right. right. exists props, rid, (Ok st0), loop.
  destruct rl as [st|e].
  - destruct (String.eqb (ls_state st) "idle") eqn:Hidle; cbn [negb] in Hrun.
    + unfold mbind, M_bind, mret, M_ret, _set_session_info_to_user in Hrun.
      injection Hrun as <- <-. eexists [_]. cbn [trace profile]. split.
      * by rewrite Htr.
      * exists (Ok st). rewrite Hidle, Hp. split_and!; done.
    + injection Hrun as <- <-. exists []. split; [by rewrite Htr|].
      exists (Ok st). rewrite Hidle, Hp. split_and!; done.
  - injection Hrun as <- <-. exists []. split; [by rewrite Htr|].
    exists (Raise e). rewrite Hp. split_and!; done.
Qed.

(** The ways [create_session] runs. *)
Lemma create_session_cases lang properties (w : World R) r w' :
  create_session self lang properties w = (r, w') →
  (∃ info st,
     profile w !! _get_session_key self = Some info
     ∧ r = Ok info
     ∧ is_unhealthy (ls_state st) = false
     ∧ trace w' = GetSession (si_id info) (Ok st)
                    :: StoreGet (_get_session_key self) :: trace w
     ∧ profile w' = profile w)
  ∨ (∃ pre,
       looked_up self pre
       ∧ ((∃ e, r = Raise e ∧ trace w' = pre ++ trace w ∧ profile w' = profile w)
          ∨ (∃ props e,
               r = Raise e
               ∧ trace w' = CreateSession props (Raise e) :: pre ++ trace w
               ∧ profile w' = profile w)
          ∨ (∃ props rid o loop tail,
               trace w' = tail ++ loop ++ GetSession (Some rid) o
                            :: CreateSession props (Ok rid) :: pre ++ trace w
               ∧ created self lang props rid o loop r (profile w) (profile w') tail))).
Proof.
  unfold create_session.
  unfold mbind at 1, M_bind at 1. unfold _get_session_info_from_user at 1.
  destruct (profile w !! _get_session_key self) as [info|] eqn:Hinfo.
  - unfold mbind at 1, M_bind at 1. unfold mbind at 1, M_bind at 1. cbn [remote].
    destruct (api_get_session (si_id info) (remote w)) as [o remote1] eqn:Hget.
    erewrite (check_session_run _ _ o remote1) by exact Hget.
    unfold mret at 1, M_ret at 1.
    destruct (check_result o) as [s|] eqn:Hcheck.
    + intros [= <- <-]. left.
      destruct o as [st|e]; [|done]. simpl in Hcheck.
      destruct (is_unhealthy (ls_state st)) eqn:Hst; [done|].
      exists info, st. split_and!; done.
    + intros Hnew. right. exists [GetSession (si_id info) o; StoreGet (_get_session_key self)].
      split; [right; eauto|].
      apply new_session_run in Hnew. cbn [trace profile] in Hnew.
      destruct Hnew as [(e & -> & Htr & Hp) | [(props & e & -> & Htr & Hp)
                       | (props & rid & o' & loop & tail & Htr & Hc)]].
      * left. eauto.
      * right. left. eauto 10.
      * right. right. exists props, rid, o', loop, tail. split; [|done]. by rewrite Htr.
  - unfold mbind at 1, M_bind at 1. unfold mret at 1, M_ret at 1.
    intros Hnew. right. exists [StoreGet (_get_session_key self)].
    split; [by left|].
    apply new_session_run in Hnew. cbn [trace profile] in Hnew.
    destruct Hnew as [(e & -> & Htr & Hp) | [(props & e & -> & Htr & Hp)
                     | (props & rid & o' & loop & tail & Htr & Hc)]].
    + left. eauto.
    + right. left. eauto 10.
    + right. right. exists props, rid, o', loop, tail. split; [|done]. by rewrite Htr.
Qed.

Lemma last_observed_wait rid loop o rest :
  Forall (wait_event rid) loop →
  last_observed (Some rid) (loop ++ GetSession (Some rid) o :: rest)
  = head (observations loop ++ [o]).
Proof.
  induction 1 as [|e loop [[o' ->] | ->] _ IH]; simpl.
  - by rewrite bool_decide_eq_true_2.
  - by rewrite bool_decide_eq_true_2.
  - done.
Qed.






(** C1.  A session that [create_session] returns was seen healthy in
    this very call: the latest answer of [get_session] for its id,
    among the events of the call, carries a state that is none of
    [dead], [shutting_down], [error], [killed].  The session is either
    the one stored in the profile, returned after that check, or a new
    one whose latest state is [idle]. *)
Theorem create_session_returns_healthy lang properties (w : World R) info w' :
  create_session self lang properties w = (Ok info, w') →
  ∃ evs st,
    trace w' = evs ++ trace w
    ∧ last_observed (si_id info) evs = Some (Ok st)
    ∧ is_unhealthy (ls_state st) = false
    ∧ (profile w !! _get_session_key self = Some info ∨ ls_state st = "idle").
Proof.
  intros Hrun. apply create_session_cases in Hrun
    as [(info' & st & Hinfo & [= <-] & Hst & Htr & _)
       | (pre & Hpre & [(e & [=] & _) | [(props & e & [=] & _)
       | (props & rid & o & loop & last & Htr & rl & Hloop & _ & _ & _ & Hhd & _ & Hr)]])].
  - exists [GetSession (si_id info) (Ok st); StoreGet (_get_session_key self)], st.
    split_and!; [done | | done | by left].
    simpl. by rewrite bool_decide_eq_true_2.
  - destruct rl as [st|e]; [|by destruct Hr].
    destruct (String.eqb_spec (ls_state st) "idle") as [Hidle|Hidle];
      [|by destruct Hr].
    destruct Hr as ([= ->] & -> & _).
    exists ([StorePut (_get_session_key self)
               {| si_type := lang; si_id := Some rid;
                  si_properties := Props.to_properties (Some props) |}]
              ++ loop ++ GetSession (Some rid) o :: CreateSession props (Ok rid) :: pre), st.
    split_and!.
    + rewrite Htr. by rewrite <- !app_assoc.
    + simpl. by rewrite (last_observed_wait _ _ _ _ Hloop).
    + by rewrite Hidle.
    + by right.
Qed.

End CreateSession.

(** ** Statements *)

Section Statements.
Import Py SparkApi Runs.
Context {R : Type} `{!LivyApi R}.
Variable self : Self.

(** The loop of [_check_status_and_fetch_result]. *)
Lemma poll_until_done_run (n : nat) sid cell (st : FetchResponse) (w : World R) r w' :
  poll_until_done n sid cell st w = (r, w') →
  ∃ evs,
    trace w' = evs ++ trace w
    ∧ profile w' = profile w
    ∧ Forall (λ e, (∃ o, e = FetchData sid cell o) ∨ e = Sleep 1) evs
    ∧ (length (fetches evs) ≤ n)%nat
    ∧ (length (sleeps evs) ≤ n)%nat
    ∧ Forall pending (tail (fetches evs ++ [Ok st]))
    ∧ head (fetches evs ++ [Ok st]) = Some r
    ∧ (pending r → length (fetches evs) = n).
Proof.
  revert st w. induction n as [|n IH]; intros st w; cbn [poll_until_done].
  - destruct (is_pending (fr_state st)) eqn:Hst.
    + intros [= <- <-]. exists []. split_and!; loop_end.
    + intros [= <- <-]. exists []. split_and!; loop_end.
  - destruct (is_pending (fr_state st)) eqn:Hst.
    + unfold mbind, M_bind, fetch_data, call, sleep, emit.
      destruct (api_fetch_data sid cell (remote w)) as [[st1|e] remote1] eqn:Hget.
      * intros Hrun. apply IH in Hrun as (evs & Htr & Hp & Hevs & Hobs & Hsl & Hst' & Hhd & Hn).
        simpl in Htr, Hp.
        exists (evs ++ [Sleep 1; FetchData sid cell (Ok st1)]).
        unfold fetches, sleeps in *. rewrite !omap_app. simpl.
        split_and!.
        -- by rewrite Htr, <- app_assoc.
        -- done.
        -- apply Forall_app. split; [done|].
           apply Forall_cons. split; [by right|].
           apply Forall_cons. split; [left; eauto | constructor].
        -- rewrite length_app. simpl. lia.
        -- rewrite length_app. simpl. lia.
        -- rewrite <- app_assoc. simpl.
           destruct (omap _ evs) as [|o obs] eqn:Hom; simpl in *.
           ++ repeat constructor. by exists st.
           ++ change [Ok st1; Ok st] with ([Ok st1] ++ [Ok st]).
              rewrite app_assoc.
              apply Forall_app. split; [done|]. repeat constructor. by exists st.
        -- rewrite <- app_assoc. simpl.
           by destruct (omap _ evs).
        -- intros Hr. rewrite length_app. simpl. rewrite (Hn Hr). lia.
      * intros [= <- <-]. exists [FetchData sid cell (Raise e)].
        split_and!; loop_end.
        -- apply Forall_cons. split; [left; eauto | constructor].
        -- simpl. repeat constructor. by exists st.
    + intros [= <- <-]. exists []. split_and!; loop_end.
      intros (s & [= <-] & Hs). congruence.
Qed.
End Statements.

Lemma not_its_own_cause (e : Py.exn) : e ≠ Py.SessionExpired e.
Proof. induction e; congruence. Qed.

Section Execute.
Import Py SparkApi Runs.
Context {R : Type} `{!LivyApi R}.
Variable self : Self.

(** C7.  When [submit_statement] raises [e], [_execute] raises
    [SessionExpired e] if the message of [e], lowered, says
    [session not found] or [session '<digits>' not found], or holds
    [connection refused] or [session is in state busy]; otherwise it
    raises [e] itself. *)
Theorem execute_translates_errors session snippet_type statement
  (w : World R) s w1 e remote' :
  session_to_use self session snippet_type w = (Ok s, w1) →
  api_submit_statement (si_id s) statement (remote w1) = (Raise e, remote') →
  ∃ r w',
    _execute self session snippet_type statement w = (Raise r, w')
    ∧ (r = SessionExpired e ↔ expired_message (lower (str_exn e)))
    ∧ (¬ expired_message (lower (str_exn e)) → r = e)
    ∧ trace w' = SubmitStatement (si_id s) statement (Raise e) :: trace w1.
Proof.
  intros Hs Hsubmit.
  unfold _execute, try_except, submit_statement, call, mbind, M_bind.
  rewrite Hs, Hsubmit.
  pose proof (is_expired_message_spec (lower (str_exn e))) as Hspec.
  destruct (is_expired_message (lower (str_exn e))); eexists _, _;
    (split; [reflexivity|]); split_and!; try done.
  - split; [intros _; by apply Hspec | done].
  - intros Hno. exfalso. by apply Hno, Hspec.
  - split; [intros He; by apply not_its_own_cause in He | intros Hyes%Hspec; done].
Qed.
End Execute.

Section Normalize.
Import Py SparkApi Runs.
Variable str_value : value → string.

Lemma columns_total headers : Forall is_column headers → ∃ cols, columns headers = Ok cols.
Proof.
  induction 1 as [|h hs (d & n & t & -> & Hn & Ht) _ [cols IH]]; [by exists []|].
  cbn [columns]. unfold getitem. rewrite Hn, Ht. simpl. rewrite IH. simpl. eauto.
Qed.

Lemma fetch_result_content_ok content start_over :
  getitem content "status" = Ok (VStr "ok") →
  fetch_result_content str_value content start_over
  = (data ← getitem content "data";
     '(data, images, meta, type) ← read_data data;
     mret (Some {| rp_data := if negb start_over then VList [] else data;
                   rp_images := images; rp_meta := meta; rp_type := type |})).
Proof. intros H. unfold fetch_result_content. rewrite H. reflexivity. Qed.

Lemma read_data_shaped data : shaped data → ∃ x, read_data data = Ok x.
Proof.
  intros [d t rows headers Ht Hrows Hh Hcols
         | d j rows schema fields Ht Hj Hrows Hs Hf Hcols
         | d text Ht Hj Htext]; unfold read_data, getitem, dict_mem.
  - rewrite Ht, Hrows, Hh. simpl.
    destruct (columns_total _ Hcols) as [cols ->]. simpl. eauto.
  - rewrite Ht, Hj. destruct (dict_get d (VStr "image/png")); simpl;
      rewrite Hrows, Hs; simpl; rewrite Hf; simpl;
      destruct (columns_total _ Hcols) as [cols ->]; simpl; eauto.
  - rewrite Ht, Hj, Htext. destruct (dict_get d (VStr "image/png")); simpl; eauto.
Qed.

(** Without [start_over] the rows are gone, and nothing else changes. *)
Lemma fetch_result_content_rows content :
  getitem content "status" = Ok (VStr "ok") →
  (∀ p, fetch_result_content str_value content false = Ok p →
        ∃ q, p = Some q ∧ rp_data q = VList [])
  ∧ fetch_result_content str_value content false
    = emptied (fetch_result_content str_value content true)
  ∧ (∀ data, getitem content "data" = Ok data → shaped data →
             ∃ q, fetch_result_content str_value content false = Ok (Some q)
                  ∧ rp_data q = VList []).
Proof.
  intros Hok. rewrite !(fetch_result_content_ok _ _ Hok). split_and!.
  - intros p Hp.
    apply bind_Ok in Hp as (data & _ & Hp).
    apply bind_Ok in Hp as ([[[rows images] meta] type] & _ & [= <-]). eauto.
  - destruct (getitem content "data") as [data|e]; [|done]. simpl.
    by destruct (read_data data) as [[[[rows images] meta] type]|e].
  - intros data -> [[[[rows images] meta] type] Hx]%read_data_shaped. simpl.
    rewrite Hx. simpl. eauto.
Qed.
End Normalize.

(** ** The claims, with runs against the scripted service *)

Section Claims.
Import Py SparkApi Runs.



Lemma create_session_returns_healthy_witness :
  ∃ info w' evs st,
    create_session Mock.alice "pyspark" None (Mock.world Mock.starting_twice ∅)
    = (Ok info, w')
    ∧ trace w' = evs ++ []
    ∧ last_observed (si_id info) evs = Some (Ok st)
    ∧ is_unhealthy (ls_state st) = false.
Proof.
  eassert (create_session Mock.alice "pyspark" None (Mock.world Mock.starting_twice ∅)
           = (Ok _, _)) as Hrun by (vm_compute; reflexivity).
  destruct (create_session_returns_healthy _ _ _ _ _ _ Hrun)
    as (evs & st & Htr & Hlast & Hst & _).
  eexists _, _, evs, st. split; [exact Hrun|]. split_and!; assumption.
Defined.

(** C4.  The loop of [_check_status_and_fetch_result] always returns,
    after at most 120 rounds (fetches and sleeps) whatever the states
    it is given; every status it went on from is [running] or
    [waiting], and it returns the latest one (or the exception of the
    fetch).  With [running] for the first five fetches and [available]
    then, the loop returns the [available] status after the sixth
    fetch; [_check_status_and_fetch_result] then fetches once more, for
    the result. *)
Theorem poll_until_done_bounded :
  (∀ R (api : LivyApi R) sid cell st (w : World R),
     ∃ evs,
       trace (poll_until_done 120 sid cell st w).2 = evs ++ trace w
       ∧ (length (fetches evs) ≤ 120)%nat
       ∧ (length (sleeps evs) ≤ 120)%nat
       ∧ Forall pending (tail (fetches evs ++ [Ok st]))
       ∧ head (fetches evs ++ [Ok st]) = Some (poll_until_done 120 sid cell st w).1)
  ∧ (∃ w',
       (check_status ← fetch_data (Some 5) 0;
        poll_until_done 120 (Some 5) 0 check_status) (Mock.world Mock.running_five ∅)
       = (Ok (Mock.status "available"), w')
       ∧ length (fetches (trace w')) = 6%nat
       ∧ length (sleeps (trace w')) = 5%nat)
  ∧ (∃ p w',
       _check_status_and_fetch_result (λ _, "") (Some 5) 0
         (Mock.world Mock.running_five ∅) = (Ok (Some p), w')
       ∧ length (fetches (trace w')) = 7%nat).
Proof.
  split_and!.
  - intros R api sid cell st w.
    destruct (poll_until_done 120 sid cell st w) as [r w'] eqn:Hrun.
    apply poll_until_done_run in Hrun as (evs & Htr & _ & _ & Hf & Hs & Hp & Hhd & _).
    exists evs. split_and!; done.
  - eexists. split; [vm_compute; reflexivity|]. split; reflexivity.
  - eexists _, _. split; [vm_compute; reflexivity|]. reflexivity.
Qed.

Section FetchResult.
Context {R : Type} `{!LivyApi R}.
Variable str_value : value → string.

Lemma fetch_result_run sid cell start_over (w : World R) response remote' :
  api_fetch_data sid cell (remote w) = (Ok response, remote') →
  _fetch_result str_value sid cell start_over w
  = (fetch_result_content str_value (fr_output response) start_over,
     {| remote := remote'; profile := profile w;
        trace := FetchData sid cell (Ok response) :: trace w |}).
Proof.
  intros Hfetch. unfold _fetch_result, try_except, fetch_data, call, lift, mbind, M_bind.
  by rewrite Hfetch.
Qed.

(** C5.  For a statement whose output has the status [ok],
    [_fetch_result] without [start_over] never returns rows: whatever
    it returns is a payload whose data is the empty list, and its
    outcome is that of the call with [start_over] with the rows
    emptied.  It does return, for a Livy table, a JSON result, and
    plain text with or without an image. *)
Theorem no_start_over_no_rows sid cell (w : World R) response remote' :
  api_fetch_data sid cell (remote w) = (Ok response, remote') →
  getitem (fr_output response) "status" = Ok (VStr "ok") →
  (∀ p w', _fetch_result str_value sid cell false w = (Ok p, w') →
           ∃ q, p = Some q ∧ rp_data q = VList [])
  ∧ (_fetch_result str_value sid cell false w).1
    = emptied (_fetch_result str_value sid cell true w).1
  ∧ (∀ data, getitem (fr_output response) "data" = Ok data → shaped data →
             ∃ q w', _fetch_result str_value sid cell false w = (Ok (Some q), w')
                     ∧ rp_data q = VList []).
Proof.
  intros Hfetch Hok. rewrite !(fetch_result_run _ _ _ _ _ _ Hfetch).
  destruct (fetch_result_content_rows str_value _ Hok) as (Hrows & Hsame & Hshaped).
  split_and!.
  - intros p w' [= Hp _]. by apply Hrows.
  - done.
  - intros data Hdata Hsh. destruct (Hshaped data Hdata Hsh) as (q & -> & Hq). eauto.
Qed.
End FetchResult.


Lemma no_start_over_no_rows_witness :
  Forall (λ output,
            ∃ q w', _fetch_result (λ _, "") (Some 5) 0 false (Mock.fetching output)
                    = (Ok (Some q), w')
                    ∧ rp_data q = VList [])
    [Mock.table_output; Mock.json_output; Mock.image_output; Mock.text_output].
Proof.
  repeat apply Forall_cons_2; [| | | |apply Forall_nil_2].
  all: match goal with |- ∃ q w', _fetch_result _ _ _ _ (Mock.fetching ?output) = _ ∧ _ =>
         eassert (api_fetch_data (Some 5) 0 (remote (Mock.fetching output)) = (Ok _, _))
           as Hfetch by reflexivity;
         pose proof (no_start_over_no_rows (λ _, "") _ _ _ _ _ Hfetch eq_refl)
           as (_ & _ & Hshaped);
         eapply Hshaped; [reflexivity|]
       end.
  - eapply shaped_table; [reflexivity..|].
    apply Forall_cons_2; [|apply Forall_nil_2]. by eexists _, _, _.
  - eapply shaped_json; [reflexivity..|].
    apply Forall_cons_2; [|apply Forall_nil_2]. by eexists _, _, _.
  - eapply shaped_text; reflexivity.
  - eapply shaped_text; reflexivity.
Defined.

(** An image that comes without ['text/plain'] is not normalized: the
    fall back to text raises [KeyError]. *)
Lemma bare_image_raises :
  (_fetch_result (λ _, "") (Some 5) 0 false (Mock.fetching Mock.bare_image_output)).1
  = Raise (KeyError "text/plain").
Proof. reflexivity. Qed.

Lemma close_session_expired_witness :
  ∃ w',
    close_session Mock.alice (Some 5)
      (Mock.world (Mock.answering (Raise (RestException 404 "Session '5' not found."))
                     (Ok 0)) (Mock.stored 5))
    = (Raise (SessionExpired (RestException 404 "Session '5' not found.")), w')
    ∧ profile w' !! "alice-pyspark" = None.
Proof.
  eassert (api_close (Some 5)
             (remote (Mock.world (Mock.answering
                                    (Raise (RestException 404 "Session '5' not found."))
                                    (Ok 0)) (Mock.stored 5))) = (_, _))
    as Hclose by reflexivity.
  destruct (close_session_expired Mock.alice _ _ _ _ Hclose) as (w' & Hrun & Hstored & _).
  { right. eexists _, _. split; [reflexivity | by left]. }
  exists w'. split; [exact Hrun|].
  apply (Hstored (Mock.info 5)); reflexivity.
Defined.

Lemma execute_translates_errors_witness :
  ∃ w',
    _execute Mock.alice (Some (Mock.info 5)) "pyspark" "1 + 1"
      (Mock.world (Mock.answering (Ok tt)
                     (Raise (Exception "[Errno 111] Connection refused"))) ∅)
    = (Raise (SessionExpired (Exception "[Errno 111] Connection refused")), w').
Proof.
  eassert (session_to_use Mock.alice (Some (Mock.info 5)) "pyspark"
             (Mock.world (Mock.answering (Ok tt)
                            (Raise (Exception "[Errno 111] Connection refused"))) ∅)
           = (Ok _, _)) as Hs by (vm_compute; reflexivity).
  destruct (execute_translates_errors Mock.alice _ _ "1 + 1" _ _ _ _ _ Hs eq_refl)
    as (r & w' & Hrun & Hyes & _).
  exists w'. rewrite Hrun. f_equal. f_equal. apply Hyes.
  right. left. by exists "[errno 111] ", "".
Defined.

(** C8, as the specification states it, fails: a [close] that Livy
    refuses with 403 is passed over and the sweep goes on to the other
    sessions, but nothing is logged. *)
Lemma close_failure_is_not_logged :
  ∃ w',
    _close_unused_sessions Mock.alice
      (Mock.world (Mock.listing (Raise (RestException 403 "Forbidden"))) (Mock.stored 3))
    = (Ok tt, w')
    ∧ In (Close (Some 1) (Raise (RestException 403 "Forbidden"))) (trace w')
    ∧ closed (trace w') = [Some 5; Some 4; Some 1]
    ∧ logged (trace w') = [].
Proof.
  eexists. split; [vm_compute; reflexivity|].
  split; [|split; reflexivity]. simpl. tauto.
Qed.

(** With 404 or 500 for an answer the sweep ends there: [close_session]
    raises [SessionExpired], which [_close_unused_sessions] does not
    catch, and the sessions further down the list stay open. *)
Lemma expired_session_ends_the_sweep :
  ∃ w',
    _close_unused_sessions Mock.alice
      (Mock.world (Mock.listing (Raise (RestException 404 "Session '1' not found.")))
         (Mock.stored 3))
    = (Raise (SessionExpired (RestException 404 "Session '1' not found.")), w')
    ∧ closed (trace w') = [Some 1]
    ∧ logged (trace w') = [].
Proof. eexists. split; [vm_compute; reflexivity|]. split; reflexivity. Qed.

Lemma close_unused_sessions_sweep_witness :
  (∃ w',
     _close_unused_sessions Mock.alice (Mock.world (Mock.listing (Ok tt)) (Mock.stored 3))
     = (Ok tt, w')
     ∧ closed (trace w') = [Some 5; Some 4; Some 1])
  ∧ (∃ w',
       _close_unused_sessions Mock.alice (Mock.world Mock.unreachable (Mock.stored 3))
       = (Ok tt, w')
       ∧ trace w' = [Log DEBUG "connection refused";
                     GetSessions (Raise (Exception "Connection Refused"))]).
Proof.
  split.
  - eassert (_close_unused_sessions Mock.alice
               (Mock.world (Mock.listing (Ok tt)) (Mock.stored 3)) = (_, _))
      as Hrun by (vm_compute; reflexivity).
    destruct (close_unused_sessions_sweep Mock.alice _ _ _ Hrun) as (evs & Htr & _ & Hsweep).
    match type of Hrun with _ = (_, ?w1) => exists w1 end.
    simpl in Htr. rewrite app_nil_r in Htr. subst evs.
    edestruct (Hsweep _ _ (Mock.info 3) eq_refl eq_refl) as (Hr & Hclosed & _).
    { intros i res Hin. left.
      repeat (apply elem_of_cons in Hin as [Hin | Hin];
              [by (discriminate Hin || injection Hin as -> ->)|]).
      by apply elem_of_nil in Hin. }
    split; [exact Hrun | exact Hclosed].
  - eassert (_close_unused_sessions Mock.alice
               (Mock.world Mock.unreachable (Mock.stored 3)) = (_, _))
      as Hrun by (vm_compute; reflexivity).
    destruct (close_unused_sessions_sweep Mock.alice _ _ _ Hrun) as (evs & Htr & Hfail & _).
    match type of Hrun with _ = (_, ?w1) => exists w1 end.
    simpl in Htr. rewrite app_nil_r in Htr. subst evs.
    edestruct (Hfail _ _ eq_refl) as (Hr & Hevs & _).
    split; [exact Hrun | exact Hevs].
Defined.

Lemma split_suffix (s pre post : string) : s = pre +:+ post → post ∈ Re.suffixes s.
Proof.
  revert s. induction pre as [|c pre IH]; intros s ->.
  - rewrite append_nil_l. destruct post; left.
  - rewrite append_cons. cbn [Re.suffixes]. right. by apply IH.
Qed.

Lemma standalone_jobs_from_log_witness :
  Jobs._get_standalone_jobs Jobs.quiet_log = ([Jobs.no_ui_warning], [])
  ∧ (Jobs._get_standalone_jobs Jobs.sample_log).1 = []
  ∧ (Jobs._get_standalone_jobs Jobs.sample_log).2
      ≡ₚ [Jobs.job_entry "http://host-1.example.com:4040" "0";
          Jobs.job_entry "http://host-1.example.com:4040" "12"].
Proof.
  split.
  - apply (proj1 standalone_jobs_from_log). intros pre post Hpost.
    apply split_suffix in Hpost. revert post Hpost. apply Forall_forall.
    repeat (apply Forall_cons_2; [reflexivity|]). apply Forall_nil_2.
  - eassert (Re.finditer Jobs.SPARK_UI_RE Jobs.sample_log = [_]) as Hui
      by (vm_compute; reflexivity).
    destruct (proj2 standalone_jobs_from_log Jobs.sample_log _ "0" "12" Hui)
      as (Hlog & _ & Hjobs); [done | | by split].
    intros n.
    assert (map (λ j, Re.group j 1) (Re.finditer Jobs.STANDALONE_JOB_RE Jobs.sample_log)
            = ["0"; "12"; "0"]) as -> by (vm_compute; reflexivity).
    rewrite !elem_of_cons, elem_of_nil. tauto.
Defined.
End Claims.

(** ** Beyond the specification

    Properties of the connector that the code shows and the
    specification does not state. *)

Section TraceFacts.
Import Py SparkApi Runs.

Lemma last_observed_app sid l1 l2 :
  last_observed sid (l1 ++ l2)
  = match last_observed sid l1 with
    | Some r => Some r
    | None => last_observed sid l2
    end.
Proof.
  induction l1 as [|e l1 IH]; [done|].
  destruct e; simpl; try done. by case_bool_decide.
Qed.

Lemma closed_app l1 l2 : closed (l1 ++ l2) = closed l1 ++ closed l2.
Proof. apply omap_app. Qed.

Lemma logged_app l1 l2 : logged (l1 ++ l2) = logged l1 ++ logged l2.
Proof. apply omap_app. Qed.

Lemma observations_app l1 l2 : observations (l1 ++ l2) = observations l1 ++ observations l2.
Proof. apply omap_app. Qed.

Lemma sleeps_app l1 l2 : sleeps (l1 ++ l2) = sleeps l1 ++ sleeps l2.
Proof. apply omap_app. Qed.

Lemma fetches_app l1 l2 : fetches (l1 ++ l2) = fetches l1 ++ fetches l2.
Proof. apply omap_app. Qed.

Lemma closed_wait rid loop : Forall (wait_event rid) loop → closed loop = [].
Proof.
  induction 1 as [|e loop [[o' ->] | ->] _ IH]; simpl; done.
Qed.

End TraceFacts.

Section Sessions.
Import Py SparkApi Runs.
Context {R : Type} `{!LivyApi R}.
Variable self : Self.

Lemma looked_up_quiet pre : looked_up self pre → closed pre = [].
Proof. by intros [-> | (sid & o & ->)]. Qed.

(** What a run of [create_session] leaves in the trace and in the
    profile. *)
Lemma create_session_effects lang properties (w : World R) r w' :
  create_session self lang properties w = (r, w') →
  ∃ evs,
    trace w' = evs ++ trace w
    ∧ closed evs = []
    ∧ match r with
      | Ok info =>
          (profile w' = profile w
           ∨ profile w' = <[_get_session_key self := info]> (profile w))
          ∧ profile w' !! _get_session_key self = Some info
          ∧ ∃ st, last_observed (si_id info) evs = Some (Ok st)
                  ∧ is_unhealthy (ls_state st) = false
      | Raise _ => profile w' = profile w
      end.
Proof.
  intros Hrun. apply create_session_cases in Hrun
    as [(info' & st & Hinfo & -> & Hst & Htr & Hp)
       | (pre & Hpre & [(e & -> & Htr & Hp) | [(props & e & -> & Htr & Hp)
       | (props & rid & o & loop & last & Htr & rl & Hloop & _ & _ & _ & Hhd & _ & Hr)]])].
  - exists [GetSession (si_id info') (Ok st); StoreGet (_get_session_key self)].
    do 2 (split; [done|]). split_and!; [by left | by rewrite Hp |].
    exists st. simpl. by rewrite bool_decide_eq_true_2.
  - pose proof (looked_up_quiet _ Hpre) as Hc. exists pre. by do 2 (split; [done|]).
  - pose proof (looked_up_quiet _ Hpre) as Hc.
    exists (CreateSession props (Raise e) :: pre). by do 2 (split; [done|]).
  - pose proof (looked_up_quiet _ Hpre) as Hc.
    exists (last ++ loop ++ GetSession (Some rid) o :: CreateSession props (Ok rid) :: pre).
    assert (closed last = []) as Hcl.
    { destruct rl as [st|e]; [|by destruct Hr as (_ & -> & _)].
      destruct (String.eqb (ls_state st) "idle"); by destruct Hr as (_ & -> & _). }
    split; [|split].
    + rewrite Htr. by rewrite <- !app_assoc.
    + change (GetSession (Some rid) o :: CreateSession props (Ok rid) :: pre)
        with ([GetSession (Some rid) o; CreateSession props (Ok rid)] ++ pre).
      by rewrite !closed_app, Hcl, Hc, (closed_wait _ _ Hloop).
    + destruct rl as [st|e]; [|by destruct Hr as (-> & _ & ->)].
      destruct (String.eqb_spec (ls_state st) "idle") as [Hidle|Hidle];
        [|by destruct Hr as (-> & _ & ->)].
      destruct Hr as (-> & -> & ->). split_and!.
      * by right.
      * by rewrite lookup_insert_eq.
      * exists st. cbn [si_id]. split; [|by rewrite Hidle].
        simpl. by rewrite (last_observed_wait _ _ _ _ Hloop).
Qed.

Lemma create_session_reuse_run lang properties (w : World R) info st remote' :
  profile w !! _get_session_key self = Some info →
  api_get_session (si_id info) (remote w) = (Ok st, remote') →
  is_unhealthy (ls_state st) = false →
  create_session self lang properties w
  = (Ok info, {| remote := remote'; profile := profile w;
                 trace := GetSession (si_id info) (Ok st)
                            :: StoreGet (_get_session_key self) :: trace w |}).
Proof.
  intros Hinfo Hget Hst. unfold create_session.
  unfold mbind at 1, M_bind at 1. unfold _get_session_info_from_user at 1.
  rewrite Hinfo.
  unfold mbind at 1, M_bind at 1. unfold mbind at 1, M_bind at 1. cbn [remote].
  erewrite (check_session_run _ _ (Ok st) remote') by exact Hget.
  simpl. by rewrite Hst.
Qed.

(** X4. A session that is stored in the profile and that Livy reports in
    a healthy state is what [create_session] returns, whatever language
    and properties it is asked for: Livy is not asked for a new session,
    and the profile stays as it is. *)
Theorem create_session_reuses_stored lang properties (w : World R) info st remote' :
  profile w !! _get_session_key self = Some info →
  api_get_session (si_id info) (remote w) = (Ok st, remote') →
  is_unhealthy (ls_state st) = false →
  ∃ w',
    create_session self lang properties w = (Ok info, w')
    ∧ remote w' = remote'
    ∧ profile w' = profile w
    ∧ trace w' = GetSession (si_id info) (Ok st)
                   :: StoreGet (_get_session_key self) :: trace w.
Proof.
  intros Hinfo Hget Hst. eexists. split; [by apply create_session_reuse_run|done].
Qed.

(** X5. [create_session] closes no session. When it raises, the profile
    is as before; when it returns a session, that session is the one
    stored under the session key afterwards, and no other key of the
    profile has changed. *)
Theorem create_session_stores_its_result lang properties (w : World R) r w' :
  create_session self lang properties w = (r, w') →
  ∃ evs,
    trace w' = evs ++ trace w
    ∧ closed evs = []
    ∧ match r with
      | Ok info =>
          profile w' !! _get_session_key self = Some info
          ∧ ∀ key, key ≠ _get_session_key self → profile w' !! key = profile w !! key
      | Raise _ => profile w' = profile w
      end.
Proof.
  intros (evs & Htr & Hc & Hr)%create_session_effects.
  exists evs. do 2 (split; [done|]).
  destruct r as [info|e]; [|done].
  destruct Hr as ([Hp | Hp] & Hkey & _); (split; [done|]); intros key Hne; rewrite Hp; [done|].
  by rewrite lookup_insert_ne.
Qed.

(** X6. Calling [create_session] again returns the session of the first
    call, whatever language and properties the second call names, as
    long as Livy reports that session in a healthy state: the second
    call asks Livy for nothing but that state. *)
Theorem create_session_twice lang properties lang' properties'
  (w : World R) info w1 st remote' :
  create_session self lang properties w = (Ok info, w1) →
  api_get_session (si_id info) (remote w1) = (Ok st, remote') →
  is_unhealthy (ls_state st) = false →
  ∃ w2,
    create_session self lang' properties' w1 = (Ok info, w2)
    ∧ profile w2 = profile w1
    ∧ trace w2 = GetSession (si_id info) (Ok st)
                   :: StoreGet (_get_session_key self) :: trace w1.
Proof.
  intros (evs & _ & _ & _ & Hkey & _)%create_session_effects Hget Hst.
  eexists. split; [by apply create_session_reuse_run|done].
Qed.
End Sessions.

(** Close the side conditions of a look for a session. *)
Ltac looked_up_so_far :=
  repeat (apply Forall_cons; split; [unfold Looks.lookup_event; eauto|]); done.
Ltac count_looks := rewrite ?observations_app, ?length_app; simpl; lia.

Section Health.
Import Py SparkApi Runs Endpoints Looks.
Context {R : Type} `{!LivyApi R}.
Variable self : Self.

(** The ways [_handle_session_health_check] runs. *)
Lemma health_check_run session (w : World R) r w' :
  _handle_session_health_check self session w = (r, w') →
  ∃ evs,
    trace w' = evs ++ trace w
    ∧ profile w' = profile w
    ∧ Forall (lookup_event self) evs
    ∧ (length (observations evs) ≤ 2)%nat
    ∧ match r with
      | Ok s =>
          (session = Some s ∨ profile w !! _get_session_key self = Some s)
          ∧ ∃ st rest, evs = GetSession (si_id s) (Ok st) :: rest
                       ∧ is_unhealthy (ls_state st) = false
      | Raise e =>
          e = PopupException "Session expired. Please create new session and try again."
      end.
Proof.
  unfold _handle_session_health_check.
  assert (∀ (w1 : World R) pre,
            trace w1 = pre ++ trace w → profile w1 = profile w →
            (length (observations pre) ≤ 1)%nat →
            Forall (lookup_event self) pre →
            (stored_session_info ← _get_session_info_from_user self;
             stored_ok ← match stored_session_info with
                         | Some info =>
                             session_present ← _check_session (si_id info);
                             mret (match session_present : option LivySession with
                                   | Some _ => Some info
                                   | None => None
                                   end)
                         | None => mret None
                         end;
             match stored_ok with
             | Some info => mret info
             | None =>
                 raise (PopupException
                          "Session expired. Please create new session and try again.")
             end) w1 = (r, w') →
            ∃ evs,
              trace w' = evs ++ trace w
              ∧ profile w' = profile w
              ∧ Forall (lookup_event self) evs
              ∧ (length (observations evs) ≤ 2)%nat
              ∧ match r with
                | Ok s =>
                    (session = Some s ∨ profile w !! _get_session_key self = Some s)
                    ∧ ∃ st rest, evs = GetSession (si_id s) (Ok st) :: rest
                                 ∧ is_unhealthy (ls_state st) = false
                | Raise e =>
                    e = PopupException
                          "Session expired. Please create new session and try again."
                end) as Hstored.
  { intros w1 pre Htr Hp Hlen Hpre.
    unfold mbind at 1, M_bind at 1. unfold _get_session_info_from_user at 1.
    destruct (profile w1 !! _get_session_key self) as [info|] eqn:Hinfo.
    - unfold mbind at 1, M_bind at 1. unfold mbind at 1, M_bind at 1. cbn [remote].
      destruct (api_get_session (si_id info) (remote w1)) as [o remote1] eqn:Hget.
      erewrite (check_session_run _ _ o remote1) by exact Hget.
      unfold mret at 1, M_ret at 1.
      destruct o as [st|e]; simpl.
      + destruct (is_unhealthy (ls_state st)) eqn:Hst; simpl.
        * intros [= <- <-]. simpl.
          exists ([GetSession (si_id info) (Ok st); StoreGet (_get_session_key self)] ++ pre).
          rewrite Htr. do 2 (split; [done|]). split; [|split; [count_looks | done]].
          looked_up_so_far.
        * intros [= <- <-]. simpl.
          exists ([GetSession (si_id info) (Ok st); StoreGet (_get_session_key self)] ++ pre).
          rewrite Htr. do 2 (split; [done|]). split.
          { looked_up_so_far. }
          split; [count_looks|].
          split; [right; by rewrite <- Hp | eauto].
      + intros [= <- <-]. simpl.
        exists ([GetSession (si_id info) (Raise e); StoreGet (_get_session_key self)] ++ pre).
        rewrite Htr. do 2 (split; [done|]). split; [|split; [count_looks | done]].
        looked_up_so_far.
    - simpl. intros [= <- <-]. simpl.
      exists ([StoreGet (_get_session_key self)] ++ pre).
      rewrite Htr. do 2 (split; [done|]). split; [|split; [count_looks | done]].
      looked_up_so_far. }
  destruct session as [s|].
  - unfold mbind at 1, M_bind at 1. unfold mbind at 1, M_bind at 1.
    destruct (api_get_session (si_id s) (remote w)) as [o remote1] eqn:Hget.
    rewrite (check_session_run _ _ _ _ Hget).
    unfold mret at 1, M_ret at 1.
    destruct (check_result o) as [st'|] eqn:Hcheck.
    + intros [= <- <-]. simpl.
      destruct o as [st|e]; [|done]. simpl in Hcheck.
      destruct (is_unhealthy (ls_state st)) eqn:Hst; [done|].
      exists [GetSession (si_id s) (Ok st)]. do 2 (split; [done|]). split.
      { looked_up_so_far. }
      split; [count_looks|].
      split; [by left | eauto].
    + apply (Hstored _ [GetSession (si_id s) o]); [done | done | count_looks |].
      looked_up_so_far.
  - unfold mbind at 1, M_bind at 1. unfold mret at 1, M_ret at 1.
    apply (Hstored _ []); [done | done | count_looks | done].
Qed.

Lemma quiet_lookups (evs : list event) :
  Forall (lookup_event self) evs →
  (∀ props o, CreateSession props o ∉ evs) ∧ closed evs = [] ∧ logged evs = []
  ∧ sleeps evs = [] ∧ fetches evs = []
  ∧ (∀ i s o, SubmitStatement i s o ∉ evs).
Proof.
  induction 1 as [|e evs [(i & o & ->) | ->] _ (IH1 & IH2 & IH3 & IH4 & IH5 & IH6)].
  - split_and!; try done; intros; apply not_elem_of_nil.
  - split_and!; try done; intros; apply not_elem_of_cons; by split.
  - split_and!; try done; intros; apply not_elem_of_cons; by split.
Qed.

(** X9. [_handle_session_health_check] either returns a session that
    Livy has just reported in a healthy state, the one it was given or
    the one stored in the profile, or raises [PopupException]. It asks
    Livy for the state of at most two sessions and for nothing else: no
    session is created or closed, and the profile is left alone. *)
Theorem health_check_never_creates session (w : World R) r w' :
  _handle_session_health_check self session w = (r, w') →
  ∃ evs,
    trace w' = evs ++ trace w
    ∧ profile w' = profile w
    ∧ (∀ props o, CreateSession props o ∉ evs)
    ∧ closed evs = []
    ∧ (length (observations evs) ≤ 2)%nat
    ∧ match r with
      | Ok s =>
          (session = Some s ∨ profile w !! _get_session_key self = Some s)
          ∧ ∃ st, last_observed (si_id s) evs = Some (Ok st)
                  ∧ is_unhealthy (ls_state st) = false
      | Raise e =>
          e = PopupException "Session expired. Please create new session and try again."
      end.
Proof.
  intros (evs & Htr & Hp & Hevs & Hlen & Hr)%health_check_run.
  destruct (quiet_lookups _ Hevs) as (Hcr & Hcl & _).
  exists evs. do 4 (split; [done|]). split.
  - done.
  - destruct r as [s|e]; [|done].
    destruct Hr as (Hs & st & rest & -> & Hst). split; [done|].
    exists st. simpl. by rewrite bool_decide_eq_true_2.
Qed.
End Health.

Section Submit.
Import Py SparkApi Runs Looks.
Context {R : Type} `{!LivyApi R}.
Variable self : Self.

Lemma create_session_submits_nothing lang properties (w : World R) r w' evs :
  create_session self lang properties w = (r, w') →
  trace w' = evs ++ trace w →
  ∀ i s o, SubmitStatement i s o ∉ evs.
Proof.
  intros Hrun Htr i s o.
  apply create_session_cases in Hrun
    as [(info' & st & Hinfo & _ & Hst & Htr' & _)
       | (pre & Hpre & [(e & _ & Htr' & _) | [(props' & e & _ & Htr' & _)
       | (props' & rid' & o' & loop & last & Htr' & rl & Hloop & _ & _ & _ & _ & _ & Hr)]])].
  - rewrite Htr in Htr'.
    change (evs ++ trace w = [GetSession (si_id info') (Ok st);
                              StoreGet (_get_session_key self)] ++ trace w) in Htr'.
    apply app_inv_tail in Htr'. subst evs. set_solver.
  - rewrite Htr in Htr'. apply app_inv_tail in Htr'. subst evs.
    destruct Hpre as [-> | (sid & o1 & ->)]; set_solver.
  - rewrite Htr in Htr'.
    change (evs ++ trace w = (CreateSession props' (Raise e) :: pre) ++ trace w) in Htr'.
    apply app_inv_tail in Htr'. subst evs.
    destruct Hpre as [-> | (sid & o1 & ->)]; set_solver.
  - assert (last = [] ∨ ∃ info, last = [StorePut (_get_session_key self) info]) as Hlast.
    { destruct rl as [st|e]; [|left; by destruct Hr as (_ & -> & _)].
      destruct (String.eqb (ls_state st) "idle"); destruct Hr as (_ & -> & _); eauto. }
    assert (evs = last ++ loop ++ [GetSession (Some rid') o'; CreateSession props' (Ok rid')]
                    ++ pre) as ->.
    { apply (app_inv_tail (trace w)). rewrite <- Htr, Htr'.
      by rewrite <- !app_assoc. }
    rewrite !elem_of_app. intros [H1 | [H1 | [H1 | H1]]].
    + destruct Hlast as [-> | [info ->]]; set_solver.
    + rewrite Forall_forall in Hloop. by destruct (Hloop _ H1) as [[? ?] | ?].
    + set_solver.
    + destruct Hpre as [-> | (sid & o1 & ->)]; set_solver.
Qed.

(** The ways [session_to_use] runs. *)
Lemma session_to_use_run session snippet_type (w : World R) r w' :
  session_to_use self session snippet_type w = (r, w') →
  ∃ evs,
    trace w' = evs ++ trace w
    ∧ closed evs = []
    ∧ (∀ i s o, SubmitStatement i s o ∉ evs)
    ∧ match r with
      | Ok s => ∃ st, last_observed (si_id s) evs = Some (Ok st)
                      ∧ is_unhealthy (ls_state st) = false
      | Raise _ => profile w' = profile w
      end.
Proof.
  unfold session_to_use.
  assert (∀ (w1 : World R) pre,
            trace w1 = pre ++ trace w → profile w1 = profile w →
            Forall (lookup_event self) pre →
            (stored_session_info ← _get_session_info_from_user self;
             stored_ok ← match stored_session_info with
                         | Some info =>
                             session_present ← _check_session (si_id info);
                             mret (match session_present : option LivySession with
                                   | Some _ => Some info
                                   | None => None
                                   end)
                         | None => mret None
                         end;
             match stored_ok with
             | Some info => mret info
             | None => create_session self snippet_type None
             end) w1 = (r, w') →
            ∃ evs,
              trace w' = evs ++ trace w
              ∧ closed evs = []
              ∧ (∀ i s o, SubmitStatement i s o ∉ evs)
              ∧ match r with
                | Ok s => ∃ st, last_observed (si_id s) evs = Some (Ok st)
                                ∧ is_unhealthy (ls_state st) = false
                | Raise _ => profile w' = profile w
                end) as Hstored.
  { intros w1 pre Htr Hp Hpre.
    assert (∀ (w2 : World R) pre2,
              trace w2 = pre2 ++ trace w → profile w2 = profile w →
              Forall (lookup_event self) pre2 →
              create_session self snippet_type None w2 = (r, w') →
              ∃ evs,
                trace w' = evs ++ trace w
                ∧ closed evs = []
                ∧ (∀ i s o, SubmitStatement i s o ∉ evs)
                ∧ match r with
                  | Ok s => ∃ st, last_observed (si_id s) evs = Some (Ok st)
                                  ∧ is_unhealthy (ls_state st) = false
                  | Raise _ => profile w' = profile w
                  end) as Hcreate.
    { intros w2 pre2 Htr2 Hp2 Hpre2 Hrun.
      destruct (quiet_lookups self _ Hpre2) as (_ & Hcl & _ & _ & _ & Hsub).
      pose proof Hrun as (evs & Htr' & Hc & Hr)%create_session_effects.
      pose proof (create_session_submits_nothing _ _ _ _ _ _ Hrun Htr') as Hns.
      exists (evs ++ pre2). split; [by rewrite Htr', Htr2, app_assoc|].
      rewrite closed_app, Hc, Hcl. split; [done|].
      split.
      { intros i s o [?|?]%elem_of_app; [by eapply Hns | by eapply Hsub]. }
      destruct r as [s|e]; [|by rewrite Hr].
      destruct Hr as (_ & _ & st & Hlast & Hst). exists st.
      by rewrite last_observed_app, Hlast. }
    unfold mbind at 1, M_bind at 1. unfold _get_session_info_from_user at 1.
    destruct (profile w1 !! _get_session_key self) as [info|] eqn:Hinfo.
    - unfold mbind at 1, M_bind at 1. unfold mbind at 1, M_bind at 1. cbn [remote].
      destruct (api_get_session (si_id info) (remote w1)) as [o remote1] eqn:Hget.
      erewrite (check_session_run _ _ o remote1) by exact Hget.
      unfold mret at 1, M_ret at 1.
      destruct (check_result o) as [st'|] eqn:Hcheck.
      + intros [= <- <-]. simpl.
        destruct o as [st|e]; [|done]. simpl in Hcheck.
        destruct (is_unhealthy (ls_state st)) eqn:Hst; [done|].
        assert (Forall (lookup_event self)
                  ([GetSession (si_id info) (Ok st); StoreGet (_get_session_key self)] ++ pre))
          as (_ & Hcl & _ & _ & _ & Hsub)%quiet_lookups.
        { looked_up_so_far. }
        exists ([GetSession (si_id info) (Ok st); StoreGet (_get_session_key self)] ++ pre).
        rewrite Htr. do 3 (split; [done|]).
        exists st. simpl. by rewrite bool_decide_eq_true_2.
      + apply (Hcreate _ ([GetSession (si_id info) o; StoreGet (_get_session_key self)]
                            ++ pre)).
        * simpl. by rewrite Htr.
        * done.
        * looked_up_so_far.
    - unfold mbind at 1, M_bind at 1. unfold mret at 1, M_ret at 1.
      apply (Hcreate _ ([StoreGet (_get_session_key self)] ++ pre)).
      + simpl. by rewrite Htr.
      + done.
      + looked_up_so_far. }
  destruct session as [s|].
  - unfold mbind at 1, M_bind at 1. unfold mbind at 1, M_bind at 1.
    destruct (api_get_session (si_id s) (remote w)) as [o remote1] eqn:Hget.
    rewrite (check_session_run _ _ _ _ Hget).
    unfold mret at 1, M_ret at 1.
    destruct (check_result o) as [st'|] eqn:Hcheck.
    + intros [= <- <-]. simpl.
      destruct o as [st|e]; [|done]. simpl in Hcheck.
      destruct (is_unhealthy (ls_state st)) eqn:Hst; [done|].
      exists [GetSession (si_id s) (Ok st)]. do 2 (split; [done|]). split; [set_solver|].
      exists st. simpl. by rewrite bool_decide_eq_true_2.
    + apply (Hstored _ [GetSession (si_id s) o]); [done..|].
      looked_up_so_far.
  - unfold mbind at 1, M_bind at 1. unfold mret at 1, M_ret at 1.
    by apply (Hstored _ []).
Qed.

(** X8. [_execute] submits at most one statement, and only to a session
    that Livy has reported in a healthy state earlier in the same call:
    the latest answer of [get_session] for that session says so. When no
    such session can be had, no statement is submitted and the profile
    is as before. [_execute] closes no session. *)
Theorem execute_submits_to_healthy session snippet_type statement (w : World R) r w' :
  _execute self session snippet_type statement w = (r, w') →
  ∃ evs,
    trace w' = evs ++ trace w
    ∧ closed evs = []
    ∧ ((∃ e, r = Raise e ∧ profile w' = profile w
             ∧ ∀ i s o, SubmitStatement i s o ∉ evs)
       ∨ (∃ s st res rest,
            evs = SubmitStatement (si_id s) statement res :: rest
            ∧ (∀ i s' o, SubmitStatement i s' o ∉ rest)
            ∧ last_observed (si_id s) rest = Some (Ok st)
            ∧ is_unhealthy (ls_state st) = false
            ∧ match res with
              | Ok id => r = Ok {| er_id := id; er_has_result_set := true;
                                   er_sync := false |}
              | Raise e => r = Raise e ∨ r = Raise (SessionExpired e)
              end)).
Proof.
  unfold _execute. unfold mbind at 1, M_bind at 1.
  destruct (session_to_use self session snippet_type w) as [[s|e] w1] eqn:Hs.
  - apply session_to_use_run in Hs as (evs & Htr & Hc & Hsub & st & Hlast & Hst).
    unfold try_except, submit_statement, call, mbind, M_bind.
    destruct (api_submit_statement (si_id s) statement (remote w1)) as [res remote1].
    intros Hrun.
    exists (SubmitStatement (si_id s) statement res :: evs).
    assert (trace w' = (SubmitStatement (si_id s) statement res :: evs) ++ trace w) as Htr'.
    { destruct res as [id|e]; simpl in Hrun.
      - injection Hrun as <- <-. simpl. by rewrite Htr.
      - destruct (is_expired_message (lower (str_exn e))); injection Hrun as <- <-;
          simpl; by rewrite Htr. }
    split; [done|]. split; [done|]. right.
    exists s, st, res, evs. do 4 (split; [done|]).
    destruct res as [id|e]; simpl in Hrun.
    + by injection Hrun as <- <-.
    + destruct (is_expired_message (lower (str_exn e))); injection Hrun as <- <-; eauto.
  - apply session_to_use_run in Hs as (evs & Htr & Hc & Hsub & Hp).
    intros [= <- <-]. exists evs. do 2 (split; [done|]). left. eauto.
Qed.
End Submit.

Section NotebookCalls.
Import Py SparkApi Runs Endpoints.
Context {R : Type} `{!LivyApi R} `{!LivyLogApi R}.
Variable self : Self.
Variable str_value : value → string.

Lemma session_not_found_test (e : exn) :
  (if bool_decide (is_Some (Re.search SESSION_NOT_FOUND_RE (lower (str_exn e))))
   then SessionExpired e else e) = SessionExpired e
  ↔ says_session_not_found (lower (str_exn e)).
Proof.
  rewrite <- session_not_found_spec. case_bool_decide; [done|].
  split; [intros He; by apply not_its_own_cause in He | done].
Qed.

(** X10. [check_status] gives back the state that [fetch_data] answers.
    When [fetch_data] raises [e], it raises [SessionExpired e] if the
    lowered message of [e] says [session not found] or [session
    '<digits>' not found], and [e] itself otherwise: unlike [_execute]
    it does not take [connection refused] or a busy session for an
    expired one. *)
Theorem check_status_translates_errors session cell (w : World R) s w1 o remote' :
  _handle_session_health_check self session w = (Ok s, w1) →
  api_fetch_data (si_id s) cell (remote w1) = (o, remote') →
  ∃ r w',
    check_status self session cell w = (r, w')
    ∧ trace w' = FetchData (si_id s) cell o :: trace w1
    ∧ profile w' = profile w
    ∧ match o with
      | Ok response => r = Ok {| sr_status := fr_state response |}
      | Raise e =>
          ∃ e', r = Raise e'
                ∧ (e' = SessionExpired e ↔ says_session_not_found (lower (str_exn e)))
                ∧ (¬ says_session_not_found (lower (str_exn e)) → e' = e)
      end.
Proof.
  intros Hs Hfetch.
  pose proof Hs as (evs & _ & Hp & _)%health_check_run.
  unfold check_status, try_except, fetch_data, call, mbind, M_bind.
  rewrite Hs, Hfetch. destruct o as [response|e].
  - eexists _, _. split; [reflexivity|]. by split_and!.
  - pose proof (session_not_found_test e) as Htest.
    destruct (bool_decide (is_Some (Re.search SESSION_NOT_FOUND_RE (lower (str_exn e))))).
    + eexists _, _. split; [reflexivity|]. do 2 (split; [done|]).
      eexists. split; [reflexivity|]. split; [done|].
      intros Hno. exfalso. by apply Hno, Htest.
    + eexists _, _. split; [reflexivity|]. do 2 (split; [done|]).
      eexists. split; [reflexivity|]. split; [done|]. done.
Qed.

Lemma fetch_result_raise sid cell start_over (w : World R) e remote' :
  api_fetch_data sid cell (remote w) = (Raise e, remote') →
  _fetch_result str_value sid cell start_over w
  = (Raise (if bool_decide (is_Some (Re.search SESSION_NOT_FOUND_RE (lower (str_exn e))))
            then SessionExpired e else e),
     {| remote := remote'; profile := profile w;
        trace := FetchData sid cell (Raise e) :: trace w |}).
Proof.
  intros Hfetch. unfold _fetch_result, try_except, fetch_data, call, lift, mbind, M_bind.
  rewrite Hfetch. by case_bool_decide.
Qed.

Lemma fetch_result_world sid cell start_over (w : World R) r w' :
  _fetch_result str_value sid cell start_over w = (r, w') →
  profile w' = profile w
  ∧ ∃ o, trace w' = FetchData sid cell o :: trace w.
Proof.
  destruct (api_fetch_data sid cell (remote w)) as [[response|e] remote1] eqn:Hfetch.
  - rewrite (fetch_result_run _ _ _ _ _ _ _ Hfetch). intros [= <- <-]. eauto.
  - rewrite (fetch_result_raise _ _ _ _ _ _ Hfetch). intros [= <- <-]. eauto.
Qed.

(** X11. When [fetch_data] raises [e], [_fetch_result] raises
    [SessionExpired e] if the lowered message of [e] says [session not
    found] or [session '<digits>' not found], and [e] itself otherwise;
    no result is read. *)
Theorem fetch_result_translates_errors sid cell start_over (w : World R) e remote' :
  api_fetch_data sid cell (remote w) = (Raise e, remote') →
  ∃ e' w',
    _fetch_result str_value sid cell start_over w = (Raise e', w')
    ∧ (e' = SessionExpired e ↔ says_session_not_found (lower (str_exn e)))
    ∧ (¬ says_session_not_found (lower (str_exn e)) → e' = e)
    ∧ trace w' = FetchData sid cell (Raise e) :: trace w
    ∧ profile w' = profile w.
Proof.
  intros Hfetch. rewrite (fetch_result_raise _ _ _ _ _ _ Hfetch).
  eexists _, _. split; [reflexivity|].
  pose proof (session_not_found_test e) as Htest.
  destruct (bool_decide (is_Some (Re.search SESSION_NOT_FOUND_RE (lower (str_exn e))))).
  - split; [done|]. split; [|done]. intros Hno. exfalso. by apply Hno, Htest.
  - split; [done|]. split; done.
Qed.

Lemma append_nil_r (s : string) : s +:+ "" = s.
Proof. induction s as [|c s IH]; [done|]. by rewrite append_cons, IH. Qed.

Lemma join_values_strings lines : join_values (map VStr lines) = Ok (join "" lines).
Proof.
  induction lines as [|l lines IH]; [done|].
  cbn [map join_values]. rewrite IH.
  destruct lines as [|l' lines]; cbn [join mbind result_bind mret result_ret].
  - by rewrite append_nil_r.
  - by rewrite append_nil_l.
Qed.

(** The message that [_fetch_result] makes of an output without a
    usable traceback. *)
Lemma no_traceback_message d start_over :
  dict_get d (VStr "status") = Some (VStr "error") →
  truthy (default VNone (dict_get d (VStr "traceback"))) = false →
  fetch_result_content str_value (VDict d) start_over
  = Raise (QueryError
             (match dict_get d (VStr "evalue") with
              | None | Some VNone =>
                  str_value (default (VStr "unknown error") (dict_get d (VStr "ename")))
              | Some evalue =>
                  str_value (default (VStr "unknown error") (dict_get d (VStr "ename")))
                  +:+ ": " +:+ str_value evalue
              end)).
Proof.
  intros Hstatus Htb. unfold fetch_result_content, getitem, get_method.
  rewrite Hstatus. simpl. rewrite Htb. simpl.
  destruct (dict_get d (VStr "evalue")) as [[]|]; done.
Qed.

(** X12. A statement that ended in error never yields a result:
    [_fetch_result] raises, with or without [start_over]. With a
    traceback of lines it raises [QueryError] with the lines joined;
    with no traceback, or an empty one, it raises [QueryError] with the
    [ename] of the output, [unknown error] when there is none, followed
    by [: ] and the [evalue] when there is one. *)
Theorem error_status_raises sid cell start_over (w : World R) response remote' d :
  api_fetch_data sid cell (remote w) = (Ok response, remote') →
  fr_output response = VDict d →
  dict_get d (VStr "status") = Some (VStr "error") →
  (∃ e, (_fetch_result str_value sid cell start_over w).1 = Raise e)
  ∧ (∀ lines,
       dict_get d (VStr "traceback") = Some (VList (map VStr lines)) → lines ≠ [] →
       (_fetch_result str_value sid cell start_over w).1
       = Raise (QueryError (join "" lines)))
  ∧ (dict_get d (VStr "traceback") = None
     ∨ dict_get d (VStr "traceback") = Some (VList []) →
     ∃ msg,
       (_fetch_result str_value sid cell start_over w).1 = Raise (QueryError msg)
       ∧ (dict_get d (VStr "ename") = None → dict_get d (VStr "evalue") = None →
          msg = str_value (VStr "unknown error"))
       ∧ (∀ ename evalue,
            dict_get d (VStr "ename") = Some ename →
            dict_get d (VStr "evalue") = Some evalue → evalue ≠ VNone →
            msg = str_value ename +:+ ": " +:+ str_value evalue)).
Proof.
  intros Hfetch Hout Hstatus. rewrite (fetch_result_run _ _ _ _ _ _ _ Hfetch), Hout.
  cbn [fst]. split_and!.
  - unfold fetch_result_content, getitem, get_method. rewrite Hstatus. simpl.
    match goal with |- ∃ e, (msg ← ?m; _) = _ => destruct m as [msg|e] end; simpl; eauto.
  - intros lines Htb Hne.
    unfold fetch_result_content, getitem, get_method. rewrite Hstatus. simpl.
    rewrite Htb. simpl. destruct lines as [|l lines]; [done|].
    change (VStr l :: map VStr lines) with (map VStr (l :: lines)).
    cbn [negb]. cbn [iter mbind result_bind]. by rewrite join_values_strings.
  - intros Htb. rewrite no_traceback_message; [|done|by destruct Htb as [-> | ->]].
    eexists. split; [reflexivity|]. split.
    + by intros -> ->.
    + intros ename evalue -> -> Hev. by destruct evalue.
Qed.
End NotebookCalls.

Section NotebookCalls2.
Import Py SparkApi Runs Endpoints.
Context {R : Type} `{!LivyApi R} `{!LivyLogApi R}.
Variable self : Self.
Variable str_value : value → string.
Variable livy_server_session_kind : string.

(** X13. [fetch_result] reads the result first and sweeps the unused
    sessions afterwards, and only when a session is stored in the
    profile. With nothing stored it returns the result and does not ask
    Livy for its sessions. With a session stored, the outcome of the
    sweep decides: when the sweep raises, [fetch_result] raises the same
    exception and the result that was read is lost. *)
Theorem fetch_result_then_sweep session cell start_over (w : World R) s w1 p w2 :
  _handle_session_health_check self session w = (Ok s, w1) →
  _fetch_result str_value (si_id s) cell start_over w1 = (Ok p, w2) →
  let w3 := {| remote := remote w2; profile := profile w2;
               trace := StoreGet (_get_session_key self) :: trace w2 |} in
  profile w2 = profile w
  ∧ (profile w !! _get_session_key self = None →
     fetch_result self str_value session cell start_over w = (Ok p, w3))
  ∧ (is_Some (profile w !! _get_session_key self) →
     fetch_result self str_value session cell start_over w
     = (match (_close_unused_sessions self w3).1 with
        | Ok _ => Ok p
        | Raise e => Raise e
        end, (_close_unused_sessions self w3).2)).
Proof.
  intros Hs Hfetch w3.
  pose proof Hs as (evs & _ & Hp1 & _)%health_check_run.
  pose proof Hfetch as [Hp2 _]%fetch_result_world.
  assert (profile w2 = profile w) as Hp by congruence.
  split; [done|].
  assert (fetch_result self str_value session cell start_over w
          = match profile w2 !! _get_session_key self with
            | Some _ => (match (_close_unused_sessions self w3).1 with
                         | Ok _ => Ok p
                         | Raise e => Raise e
                         end, (_close_unused_sessions self w3).2)
            | None => (Ok p, w3)
            end) as ->.
  { unfold fetch_result. unfold mbind at 1, M_bind at 1. rewrite Hs.
    unfold mbind at 1, M_bind at 1. rewrite Hfetch.
    unfold mbind at 1, M_bind at 1. unfold _get_session_info_from_user at 1.
    destruct (profile w2 !! _get_session_key self); [|done].
    unfold mbind, M_bind. fold w3.
    by destruct (_close_unused_sessions self w3) as [[[]|e] w4]. }
  rewrite Hp. split; [by intros -> | by intros [info ->]].
Qed.

(** X14. [cancel] answers status 0 whatever Livy makes of the request:
    an exception of the remote [cancel] is logged, lowered, at debug
    level and goes no further. Only a failed health check makes it
    raise, and then Livy is not asked to cancel anything. *)
Theorem cancel_is_best_effort session (w : World R) :
  (∀ s w1 o remote',
     _handle_session_health_check self session w = (Ok s, w1) →
     api_cancel (si_id s) (remote w1) = (o, remote') →
     cancel self session w
     = (Ok 0, {| remote := remote'; profile := profile w;
                 trace := match o with
                          | Ok _ => trace w1
                          | Raise e => Log DEBUG (lower (str_exn e)) :: trace w1
                          end |}))
  ∧ (∀ e w1,
       _handle_session_health_check self session w = (Raise e, w1) →
       cancel self session w = (Raise e, w1)).
Proof.
  split.
  - intros s w1 o remote' Hs Hcancel.
    pose proof Hs as (evs & _ & Hp1 & _)%health_check_run.
    unfold cancel, try_except, untraced, emit, mbind, M_bind, mret, M_ret.
    rewrite Hs, Hcancel. destruct o as [[]|e]; simpl; by rewrite Hp1.
  - intros e w1 Hs. unfold cancel, mbind, M_bind. by rewrite Hs.
Qed.

(** What [get_log] makes of the answer of Livy. *)
Lemma get_log_run session startFrom size (w : World R) s w1 o remote' :
  _handle_session_health_check self session w = (Ok s, w1) →
  api_get_log (si_id s) startFrom size (remote w1) = (o, remote') →
  get_log self session startFrom size w
  = (match o with
     | Ok log => Ok log
     | Raise (RestException _ _) => Ok (VDict [(VStr "status", VInt 0)])
     | Raise e => Raise e
     end,
     {| remote := remote'; profile := profile w1;
        trace := match o with
                 | Raise (RestException code msg) => Log DEBUG (lower msg) :: trace w1
                 | _ => trace w1
                 end |}).
Proof.
  intros Hs Hlog.
  unfold get_log, try_except, untraced, emit, mbind, M_bind, mret, M_ret, raise.
  rewrite Hs, Hlog. destruct o as [log|e]; [done|]. by destruct e.
Qed.

(** X15. [get_log] gives back what Livy answers. When Livy's [get_log]
    fails with a [RestException], the message is logged at debug level
    and the answer is [{'status': 0}], a dict where the log was asked
    for; every other exception goes through. *)
Theorem get_log_swallows_rest_errors session startFrom size (w : World R) s w1 o remote' :
  _handle_session_health_check self session w = (Ok s, w1) →
  api_get_log (si_id s) startFrom size (remote w1) = (o, remote') →
  ∃ w',
    get_log self session startFrom size w
    = (match o with
       | Ok log => Ok log
       | Raise (RestException _ _) => Ok (VDict [(VStr "status", VInt 0)])
       | Raise e => Raise e
       end, w')
    ∧ remote w' = remote' ∧ profile w' = profile w
    ∧ trace w' = match o with
                 | Raise (RestException code msg) => Log DEBUG (lower msg) :: trace w1
                 | _ => trace w1
                 end.
Proof.
  intros Hs Hlog.
  pose proof Hs as (evs & _ & Hp1 & _)%health_check_run.
  rewrite (get_log_run _ _ _ _ _ _ _ _ Hs Hlog). eexists. by split_and!.
Qed.

(** X16. Outside of YARN mode [get_jobs] reads the jobs from the log it
    is given and asks Livy for nothing, not even for the health of the
    session. In YARN mode it does not look at that log: it asks Livy for
    the first 100 lines of the log of the session and reads the tracking
    URLs there; when that request fails with a [RestException],
    [get_log] answers with a dict and [get_jobs] raises [TypeError]. *)
Theorem get_jobs_by_mode session logs (w : World R) :
  (livy_server_session_kind ≠ "yarn" →
   ∃ w',
     get_jobs self livy_server_session_kind session logs w
     = (Ok (Jobs._get_standalone_jobs logs).2, w')
     ∧ remote w' = remote w ∧ profile w' = profile w
     ∧ no_remote_call (trace w') = no_remote_call (trace w)
     ∧ logged (trace w')
       = map (λ r, (WARNING, Jobs.lr_message r)) (Jobs._get_standalone_jobs logs).1
           ++ logged (trace w))
  ∧ (livy_server_session_kind = "yarn" →
     ∀ s w1 o remote',
       _handle_session_health_check self session w = (Ok s, w1) →
       api_get_log (si_id s) 0 (Some 100) (remote w1) = (o, remote') →
       (get_jobs self livy_server_session_kind session logs w).1
       = match o with
         | Ok (VStr text) => Ok (Yarn._get_yarn_jobs text)
         | Ok _ | Raise (RestException _ _) =>
             Raise (TypeError "expected string or bytes-like object")
         | Raise e => Raise e
         end).
Proof.
  split.
  - intros Hkind. unfold get_jobs, _is_yarn_mode.
    rewrite (proj2 (String.eqb_neq _ _) Hkind).
    unfold Jobs._get_standalone_jobs.
    destruct (Re.search Jobs.SPARK_UI_RE logs) as [m|]; unfold mbind, M_bind; simpl.
    + eexists. split; [reflexivity|]. done.
    + eexists. split; [reflexivity|]. done.
  - intros -> s w1 o remote' Hs Hlog.
    unfold get_jobs, _is_yarn_mode. simpl. unfold mbind, M_bind.
    rewrite (get_log_run _ _ _ _ _ _ _ _ Hs Hlog).
    destruct o as [[]|[]]; done.
Qed.
End NotebookCalls2.

Section Closing.
Import Py SparkApi Runs.
Context {R : Type} `{!LivyApi R}.
Variable self : Self.

Lemma logged_forget session_id (p : gmap string SessionInfo) :
  logged (forget_trace self session_id p) = [] ∧ closed (forget_trace self session_id p) = [].
Proof.
  unfold forget_trace. destruct (p !! _get_session_key self); [|done].
  by case_bool_decide.
Qed.

(** X17. When the remote [close] fails in any other way than with 404 or
    500, [close_session] does not say so: after a [RestException] it
    returns [None] and logs nothing, and any other exception goes
    through as it is. The [finally] block has run all the same: the
    session stored in the profile is forgotten when it is the one that
    was to be closed, although Livy did not close it. *)
Theorem close_session_other_failures (w : World R) (i : Z) (e : exn) (remote' : R) :
  api_close (Some i) (remote w) = (Raise e, remote') →
  ¬ gone (Raise e) →
  ∃ w',
    close_session self (Some i) w
    = (match e with RestException _ _ => Ok None | _ => Raise e end, w')
    ∧ logged (trace w') = logged (trace w)
    ∧ (∀ info, profile w !! _get_session_key self = Some info →
               profile w' !! _get_session_key self = None ↔ si_id info = Some i)
    ∧ (profile w !! _get_session_key self = None →
       profile w' !! _get_session_key self = None)
    ∧ (∀ key, key ≠ _get_session_key self → profile w' !! key = profile w !! key).
Proof.
  intros Hclose Hgone. rewrite (close_session_run _ _ _ _ _ Hclose).
  eexists. split_and!.
  - f_equal. destruct e; try reflexivity. simpl.
    destruct (Z.eqb_spec code 404) as [->|H404].
    { exfalso. apply Hgone. eexists _, _. split; [done | by left]. }
    destruct (Z.eqb_spec code 500) as [->|H500]; [|done].
    exfalso. apply Hgone. eexists _, _. split; [done | by right].
  - cbn [trace]. rewrite logged_app. by rewrite (proj1 (logged_forget _ _)).
  - intros info Hinfo. simpl. rewrite profile_after_close_key, Hinfo. simpl.
    case_bool_decide; split; congruence.
  - intros Hnone. simpl. by rewrite profile_after_close_key, Hnone.
  - intros key Hkey. simpl. by apply profile_after_close_other.
Qed.

(** The loop of [_close_unused_sessions], however it ends. *)
Lemma close_each_any (info : SessionInfo) (sessions : list LivySession)
  (w : World R) r w' :
  profile w !! _get_session_key self = Some info →
  close_each self (Some info) sessions w = (r, w') →
  ∃ evs,
    trace w' = evs ++ trace w
    ∧ profile w' = profile w
    ∧ logged evs = []
    ∧ rev (closed evs)
        `prefix_of` map (λ s, Some (ls_id s))
                      (filter (λ s, unused self info s = true) sessions)
    ∧ (r = Ok tt →
       rev (closed evs)
       = map (λ s, Some (ls_id s)) (filter (λ s, unused self info s = true) sessions))
    ∧ (∀ e, r = Raise e →
            ∃ i e0 rest, evs = StoreGet (_get_session_key self) :: Close i (Raise e0) :: rest
                         ∧ close_result 0 (Raise e0) = Raise e).
Proof.
  revert w. induction sessions as [|session rest IH]; intros w Hinfo.
  - intros [= <- <-]. exists []. split_and!; try done. 
  - rewrite filter_cons.
    assert (close_each self (Some info) (session :: rest) w
            = (_ ← (if unused self info session
                    then _ ← close_session self (Some (ls_id session)); mret tt
                    else mret tt);
               close_each self (Some info) rest) w) as Hstep.
    { cbn [close_each]. unfold unused, mbind, M_bind.
      by destruct (bool_decide (ls_owner session = Some (username self))). }
    rewrite Hstep. clear Hstep.
    unfold mbind at 1, M_bind at 1.
    destruct (unused self info session) eqn:Hun.
    + unfold mbind at 1, M_bind at 1.
      destruct (api_close (Some (ls_id session)) (remote w)) as [r1 remote1] eqn:Hclose.
      rewrite (close_session_run _ _ _ _ _ Hclose).
      unfold unused in Hun. apply andb_prop in Hun as [[_ Hne]%andb_prop _].
      apply bool_decide_eq_true_1 in Hne.
      destruct (profile_after_close_stored _ _ _ _ Hinfo Hne) as [-> ->].
      destruct (close_result (ls_id session) r1) as [a|e] eqn:Hres.
      * intros Hrest. apply IH in Hrest as (evs & Htr & Hp & Hl & Hpre & Hok & Hraise); [|done].
        simpl in Htr, Hp.
        exists (evs ++ [StoreGet (_get_session_key self); Close (Some (ls_id session)) r1]).
        rewrite closed_app, logged_app, Hl. simpl. rewrite rev_app_distr. simpl.
        split_and!; try done.
        -- rewrite Htr. by rewrite <- app_assoc.
        -- by apply prefix_cons.
        -- intros Hr. by rewrite (Hok Hr).
        -- intros e Hr. destruct (Hraise e Hr) as (i & e0 & rest' & -> & He).
           eexists i, e0, _. split; [|done]. by rewrite <- !app_comm_cons.
      * intros [= <- <-]. simpl.
        exists [StoreGet (_get_session_key self); Close (Some (ls_id session)) r1].
        split_and!; try done.
        -- simpl. apply prefix_cons, prefix_nil.
        -- intros e' [= <-]. destruct r1 as [[]|e1]; [done|].
           eexists _, e1, []. split; [done|]. exact Hres.
    + intros Hrest. apply IH in Hrest as (evs & Htr & Hp & Hl & Hpre & Hok & Hraise); [|done].
      exists evs. split_and!; done.
Qed.

Lemma close_each_nothing_stored (sessions : list LivySession) (w : World R) :
  close_each self None sessions w
  = (if bool_decide (Exists (λ s, ls_owner s = Some (username self)) sessions)
     then Raise (TypeError "'NoneType' object is not subscriptable")
     else Ok tt, w).
Proof.
  induction sessions as [|session rest IH]; [done|].
  cbn [close_each]. unfold mbind at 1, M_bind at 1.
  destruct (decide (ls_owner session = Some (username self))) as [Hown|Hown].
  - rewrite bool_decide_eq_true_2 by done. simpl.
    rewrite bool_decide_eq_true_2; [done|]. by left.
  - rewrite bool_decide_eq_false_2 by done. simpl.
    unfold mbind, M_bind. simpl. rewrite IH.
    destruct (decide (Exists (λ s, ls_owner s = Some (username self)) rest)) as [Hex|Hex].
    + rewrite !bool_decide_eq_true_2; [done | by right | done].
    + rewrite !bool_decide_eq_false_2; [done | | done].
      intros [?|?]%Exists_cons; done.
Qed.

(** X18. However the sweep of [_close_unused_sessions] ends, it leaves
    the profile as it was and logs nothing once Livy has listed its
    sessions. With a session stored in the profile, the sessions it asks
    Livy to close are a starting piece of the listed sessions of the
    user that are idle, shutting down, in error, dead or killed and are
    not the stored one, in the order listed: no other session is ever
    closed, and none twice. When the sweep returns, all of them were
    asked to be closed; when it raises, the [close] it stopped at had
    raised. With nothing stored, nothing is closed: the sweep raises
    [TypeError] if the list holds a session of the user, and returns
    otherwise. *)
Theorem sweep_closes_only_unused (w : World R) sessions remote' r w' :
  api_get_sessions (remote w) = (Ok sessions, remote') →
  _close_unused_sessions self w = (r, w') →
  ∃ evs,
    trace w' = evs ++ trace w
    ∧ profile w' = profile w
    ∧ logged evs = []
    ∧ match profile w !! _get_session_key self with
      | Some info =>
          rev (closed evs)
            `prefix_of` map (λ s, Some (ls_id s))
                          (filter (λ s, unused self info s = true) sessions)
          ∧ (r = Ok tt →
             rev (closed evs)
             = map (λ s, Some (ls_id s))
                 (filter (λ s, unused self info s = true) sessions))
          ∧ (∀ e, r = Raise e →
                  ∃ i e0, head (closed evs) = Some i
                          ∧ Close i (Raise e0) ∈ evs
                          ∧ (e = e0 ∨ e = SessionExpired e0))
      | None =>
          closed evs = []
          ∧ r = if bool_decide (Exists (λ s, ls_owner s = Some (username self)) sessions)
                then Raise (TypeError "'NoneType' object is not subscriptable")
                else Ok tt
      end.
Proof.
  intros Hget.
  unfold _close_unused_sessions, try_except, get_sessions, call, emit,
    _get_session_info_from_user.
  unfold mbind, M_bind, mret, M_ret. rewrite Hget. simpl.
  destruct (profile w !! _get_session_key self) as [info|] eqn:Hinfo.
  - intros Hrun. apply close_each_any in Hrun
      as (evs & Htr & Hp & Hl & Hpre & Hok & Hraise); [|done].
    simpl in Htr, Hp.
    exists (evs ++ [StoreGet (_get_session_key self); GetSessions (Ok sessions)]).
    rewrite closed_app, logged_app, Hl. simpl. rewrite app_nil_r.
    split_and!; try done.
    + rewrite Htr. by rewrite <- app_assoc.
    + intros e Hr. destruct (Hraise e Hr) as (i & e0 & rest & -> & He).
      exists i, e0. split_and!.
      * done.
      * set_solver.
      * simpl in He. destruct e0; try (injection He as <-; by left).
        destruct ((code =? 404) || (code =? 500)); [|done].
        injection He as <-. by right.
  - rewrite close_each_nothing_stored. intros [= <- <-]. simpl.
    exists [StoreGet (_get_session_key self); GetSessions (Ok sessions)].
    split_and!; done.
Qed.
End Closing.

Section Timeouts.
Import Py SparkApi Runs.
Context {R : Type} `{!LivyApi R}.
Variable self : Self.
Variable str_value : value → string.

Lemma poll_until_done_stuck (n : nat) sid cell (st : FetchResponse) (w : World R) :
  (∀ ρ, ∃ st' ρ', api_fetch_data sid cell ρ = (Ok st', ρ')
                  ∧ is_pending (fr_state st') = true) →
  is_pending (fr_state st) = true →
  ∃ st' w' evs,
    poll_until_done n sid cell st w = (Ok st', w')
    ∧ is_pending (fr_state st') = true
    ∧ trace w' = evs ++ trace w
    ∧ profile w' = profile w
    ∧ length (fetches evs) = n
    ∧ sleeps evs = replicate n 1
    ∧ closed evs = [].
Proof.
  intros Hstuck. revert st w. induction n as [|n IH]; intros st w Hst; cbn [poll_until_done].
  - rewrite Hst. exists st, w, []. by split_and!.
  - rewrite Hst. unfold mbind, M_bind, fetch_data, call, sleep, emit.
    destruct (Hstuck (remote w)) as (st1 & remote1 & -> & Hst1).
    edestruct (IH st1) as (st' & w' & evs & Hrun & Hst' & Htr & Hp & Hf & Hs & Hc); [done|].
    exists st', w', (evs ++ [Sleep 1; FetchData sid cell (Ok st1)]).
    split; [exact Hrun|]. simpl in Htr, Hp.
    rewrite fetches_app, sleeps_app, closed_app, length_app, Hf, Hs, Hc.
    unfold fetches, sleeps, closed. simpl.
    split_and!; try done.
    + rewrite Htr. by rewrite <- app_assoc.
    + lia.
    + symmetry. apply replicate_cons_app.
Qed.

(** X19. A statement that stays [running] or [waiting] is given up
    without a word: after the first look and 120 rounds of the loop,
    each with one more look and one second of sleep,
    [_check_status_and_fetch_result] returns [None]; it raises nothing
    and does not try to read a result. *)
Theorem statement_given_up_silently sid cell (w : World R) :
  (∀ ρ, ∃ st ρ', api_fetch_data sid cell ρ = (Ok st, ρ')
                 ∧ is_pending (fr_state st) = true) →
  ∃ w' evs,
    _check_status_and_fetch_result str_value sid cell w = (Ok None, w')
    ∧ trace w' = evs ++ trace w
    ∧ length (fetches evs) = 121%nat
    ∧ sleeps evs = replicate 120 1
    ∧ profile w' = profile w.
Proof.
  intros Hstuck. unfold _check_status_and_fetch_result.
  unfold mbind at 1, M_bind at 1. unfold fetch_data at 1, call at 1.
  destruct (Hstuck (remote w)) as (st0 & remote0 & -> & Hst0).
  unfold mbind at 1, M_bind at 1.
  edestruct (poll_until_done_stuck 120 sid cell st0) as
    (st' & w' & evs & -> & Hst' & Htr & Hp & Hf & Hs & Hc); [done..|].
  assert (String.eqb (fr_state st') "available" = false) as ->.
  { apply String.eqb_neq. intros Hav. unfold is_pending in Hst'. rewrite Hav in Hst'.
    by apply bool_decide_eq_true_1 in Hst'; set_solver. }
  exists w', (evs ++ [FetchData sid cell (Ok st0)]).
  split; [done|]. simpl in Htr, Hp.
  rewrite fetches_app, sleeps_app, length_app, Hf, Hs.
  unfold fetches, sleeps. simpl. rewrite ?app_nil_r.
  split_and!; try done; try lia. rewrite Htr. by rewrite <- app_assoc.
Qed.

Lemma wait_while_starting_stuck (n : nat) rid (st : LivySession) (w : World R) :
  (∀ ρ, ∃ st' ρ', api_get_session (Some rid) ρ = (Ok st', ρ')
                  ∧ ls_state st' = "starting") →
  ls_state st = "starting" →
  ∃ st' w' evs,
    wait_while_starting n rid st w = (Ok st', w')
    ∧ ls_state st' = "starting"
    ∧ trace w' = evs ++ trace w
    ∧ profile w' = profile w
    ∧ length (observations evs) = n
    ∧ sleeps evs = replicate n 1
    ∧ closed evs = [].
Proof.
  intros Hstuck. revert st w. induction n as [|n IH]; intros st w Hst;
    cbn [wait_while_starting].
  - rewrite (proj2 (String.eqb_eq _ _) Hst). exists st, w, []. by split_and!.
  - rewrite (proj2 (String.eqb_eq _ _) Hst).
    unfold mbind, M_bind, get_session, call, sleep, emit.
    destruct (Hstuck (remote w)) as (st1 & remote1 & -> & Hst1).
    edestruct (IH st1) as (st' & w' & evs & Hrun & Hst' & Htr & Hp & Hf & Hs & Hc); [done|].
    exists st', w', (evs ++ [Sleep 1; GetSession (Some rid) (Ok st1)]).
    split; [exact Hrun|]. simpl in Htr, Hp.
    rewrite observations_app, sleeps_app, closed_app, length_app, Hf, Hs, Hc.
    unfold observations, sleeps, closed. simpl.
    split_and!; try done.
    + rewrite Htr. by rewrite <- app_assoc.
    + lia.
    + symmetry. apply replicate_cons_app.
Qed.

(** X7. With no session stored for the user, let the properties in
    effect (the caller's, or the user's default configuration where the
    code takes that) merge, and let Livy make a session that stays
    [starting] each time it is looked at.  Whatever
    [USE_DEFAULT_CONFIGURATION] is, the session is given up after 120
    rounds of the loop: 121 looks at its state and 120 seconds of sleep.
    [create_session] then raises [QueryError], whose message ends with
    [timeout] when Livy gave no log; the profile is as before, and the
    session that Livy made is not closed. *)
Theorem session_given_up_after_120 lang properties (w : World R) props rid remote1 :
  profile w !! _get_session_key self = None →
  Props.get_livy_props lang (Looks.properties_in_effect self properties) = Ok props →
  api_create_session props (remote w) = (Ok rid, remote1) →
  (∀ ρ, ∃ st ρ', api_get_session (Some rid) ρ = (Ok st, ρ')
                 ∧ ls_state st = "starting") →
  ∃ st w' evs,
    create_session self lang properties w = (Raise (QueryError (creation_error st)), w')
    ∧ ls_state st = "starting"
    ∧ (ls_log st = [] →
       creation_error st
       = "The Spark session is starting and could not be created in the cluster: timeout")
    ∧ trace w' = evs ++ trace w
    ∧ length (observations evs) = 121%nat
    ∧ sleeps evs = replicate 120 1
    ∧ closed evs = []
    ∧ profile w' = profile w.
Proof.
  intros Hnone Hprops Hcreate Hstuck.
  unfold create_session.
  unfold mbind at 1, M_bind at 1. unfold _get_session_info_from_user at 1.
  rewrite Hnone.
  unfold mbind at 1, M_bind at 1. unfold mret at 1, M_ret at 1.
  unfold Looks.properties_in_effect in Hprops. cbv zeta in Hprops.
  unfold new_session. cbv zeta. rewrite Hprops.
  unfold lift. unfold mbind at 1, M_bind at 1.
  unfold mbind at 1, M_bind at 1. unfold call at 1. cbn [remote]. rewrite Hcreate.
  unfold mbind at 1, M_bind at 1. unfold get_session at 1, call at 1. cbn [remote].
  destruct (Hstuck remote1) as (st0 & remote2 & -> & Hst0).
  unfold mbind at 1, M_bind at 1.
  edestruct (wait_while_starting_stuck 120 rid st0) as
    (st' & w' & evs & -> & Hst' & Htr & Hp & Hf & Hs & Hc); [done..|].
  rewrite Hst'. simpl in Htr, Hp. simpl.
  exists st', w', (evs ++ [GetSession (Some rid) (Ok st0); CreateSession props (Ok rid);
                          StoreGet (_get_session_key self)]).
  rewrite observations_app, sleeps_app, closed_app, length_app, Hf, Hs, Hc.
  unfold observations, sleeps, closed. simpl. rewrite ?app_nil_r.
  split_and!; try done; try lia.
  - intros Hlog. unfold creation_error. by rewrite Hlog, Hst'.
  - rewrite Htr. by rewrite <- app_assoc.
Qed.
End Timeouts.

Section TimeoutRuns.
Import Py SparkApi Runs.

Lemma statement_given_up_silently_witness :
  ∃ w', _check_status_and_fetch_result (λ _, "") (Some 5) 0 Stuck.world = (Ok None, w')
        ∧ length (fetches (trace w')) = 121%nat.
Proof.
  destruct (statement_given_up_silently (λ _, "") (Some 5) 0 Stuck.world)
    as (w' & evs & Hrun & Htr & Hf & _).
  { intros []. eexists _, _. split; reflexivity. }
  exists w'. split; [exact Hrun|]. rewrite Htr. simpl. by rewrite app_nil_r.
Defined.

Lemma session_given_up_after_120_witness :
  (∃ st w' evs,
     create_session Mock.alice "scala" None Stuck.world
     = (Raise (QueryError (creation_error st)), w')
     ∧ ls_state st = "starting"
     ∧ trace w' = evs ++ []
     ∧ sleeps evs = replicate 120 1
     ∧ closed evs = [])
  ∧ (∃ st w' evs,
       create_session Stuck.carol "scala" None Stuck.world
       = (Raise (QueryError (creation_error st)), w')
       ∧ ls_state st = "starting"
       ∧ trace w' = evs ++ []
       ∧ sleeps evs = replicate 120 1
       ∧ closed evs = []).
Proof.
  split.
  - eassert (Props.get_livy_props "scala" (Looks.properties_in_effect Mock.alice None)
             = Ok _) as Hprops by (vm_compute; reflexivity).
    eassert (api_create_session _ (remote Stuck.world) = (Ok 7, Stuck.Busy)) as Hcreate
      by reflexivity.
    destruct (session_given_up_after_120 Mock.alice "scala" None Stuck.world _ 7 Stuck.Busy
                eq_refl Hprops Hcreate)
      as (st & w' & evs & Hrun & Hst & _ & Htr & _ & Hs & Hc & _).
    { intros []. eexists _, _. split; reflexivity. }
    exists st, w', evs. by split_and!.
  - eassert (Props.get_livy_props "scala" (Looks.properties_in_effect Stuck.carol None)
             = Ok _) as Hprops by (vm_compute; reflexivity).
    eassert (api_create_session _ (remote Stuck.world) = (Ok 7, Stuck.Busy)) as Hcreate
      by reflexivity.
    destruct (session_given_up_after_120 Stuck.carol "scala" None Stuck.world _ 7 Stuck.Busy
                eq_refl Hprops Hcreate)
      as (st & w' & evs & Hrun & Hst & _ & Htr & _ & Hs & Hc & _).
    { intros []. eexists _, _. split; reflexivity. }
    exists st, w', evs. by split_and!.
Defined.
End TimeoutRuns.

Section FailedStatement.
Import Py SparkApi Runs.
Context {R : Type} `{!LivyApi R}.
Variable str_value : value → string.

(** X20. A statement that has ended in any other state than [available],
    such as [error] or [cancelled], yields nothing:
    [_check_status_and_fetch_result] returns [None] after its first
    look, without an exception, without sleeping and without reading the
    output of the statement. *)
Theorem failed_statement_yields_nothing sid cell (w : World R) st remote' :
  api_fetch_data sid cell (remote w) = (Ok st, remote') →
  is_pending (fr_state st) = false →
  fr_state st ≠ "available" →
  _check_status_and_fetch_result str_value sid cell w
  = (Ok None, {| remote := remote'; profile := profile w;
                 trace := FetchData sid cell (Ok st) :: trace w |}).
Proof.
  intros Hfetch Hpending Hstate.
  unfold _check_status_and_fetch_result.
  unfold mbind at 1, M_bind at 1. unfold fetch_data at 1, call at 1. rewrite Hfetch.
  unfold mbind at 1, M_bind at 1.
  cbn [poll_until_done]. rewrite Hpending. unfold mret at 1, M_ret at 1.
  by rewrite (proj2 (String.eqb_neq _ _) Hstate).
Qed.
End FailedStatement.

Section FailedStatementRun.
Import Py SparkApi Runs.

Lemma failed_statement_yields_nothing_witness :
  ∃ w',
    _check_status_and_fetch_result Desk.str_value (Some 5) 0
      (Mock.world (Desk.serving 0 [Ok {| fr_state := "error";
                                         fr_output := Desk.error_output |}] [] []) ∅)
    = (Ok None, w')
    ∧ length (fetches (trace w')) = 1%nat.
Proof.
  eassert (api_fetch_data (Some 5) 0
             (remote (Mock.world (Desk.serving 0 [Ok {| fr_state := "error";
                                                        fr_output := Desk.error_output |}]
                                    [] []) ∅)) = (Ok _, _)) as Hfetch by reflexivity.
  eexists. split.
  - apply (failed_statement_yields_nothing Desk.str_value _ _ _ _ _ Hfetch);
      [reflexivity | discriminate].
  - reflexivity.
Defined.
End FailedStatementRun.

Section FinditerFacts.
Import Re.

(** Every match of [finditer] is a match at some position of the text. *)
Lemma finditer_sound r :
  (∀ s m, match_here r s = Some m → ∃ a, s = a +:+ rest m) →
  ∀ s m, m ∈ finditer r s → ∃ pre post, s = pre +:+ post ∧ match_here r post = Some m.
Proof.
  intros Hsuf s. funelim (finditer r s); intros m0 Hin.
  - apply elem_of_cons in Hin as [-> | Hin].
    + by exists "", s.
    + destruct (H Hsuf m0 Hin) as (pre & post & Hs & Hm).
      destruct (Hsuf _ _ Heq0) as [a Ha].
      exists (a +:+ pre), post. split; [|done]. by rewrite append_assoc, <- Hs.
  - apply elem_of_cons in Hin as [-> | Hin]; [by exists "", "" | by apply elem_of_nil in Hin].
  - apply elem_of_cons in Hin as [-> | Hin].
    + by exists "", (String a s').
    + destruct (H Hsuf m0 Hin) as (pre & post & Hs & Hm).
      exists (String a pre), post. split; [|done]. by rewrite append_cons, <- Hs.
  - by apply elem_of_nil in Hin.
  - destruct (H Hsuf m0 Hin) as (pre & post & Hs & Hm).
    exists (String a pre), post. split; [|done]. by rewrite append_cons, <- Hs.
Qed.

(** [finditer] misses no match that starts outside of the matches
    before it. *)
Lemma finditer_complete r :
  (∀ s m pre post m',
     match_here r s = Some m → s = pre +:+ post → pre ≠ "" →
     match_here r post = Some m' → ∃ pre', rest m = pre' +:+ post) →
  ∀ s pre post m,
    s = pre +:+ post → match_here r post = Some m → m ∈ finditer r s.
Proof.
  intros Hover s. funelim (finditer r s); intros pre post m0 Hs Hm.
  - destruct pre as [|c pre].
    + rewrite append_nil_l in Hs. subst post. rewrite Heq0 in Hm. injection Hm as <-. left.
    + right. destruct (Hover _ _ _ _ _ Heq0 Hs ltac:(done) Hm) as [pre' Hpre'].
      by eapply (H Hover pre').
  - destruct pre, post; try done. rewrite Heq0 in Hm. injection Hm as <-. left.
  - destruct pre as [|c pre].
    + rewrite append_nil_l in Hs. subst post. rewrite Heq0 in Hm. injection Hm as <-. left.
    + right. rewrite append_cons in Hs. injection Hs as -> Hs. by eapply (H Hover pre).
  - destruct pre, post; try done. by rewrite Heq in Hm.
  - destruct pre as [|c pre].
    + rewrite append_nil_l in Hs. subst post. by rewrite Heq in Hm.
    + rewrite append_cons in Hs. injection Hs as -> Hs. by eapply (H Hover pre).
Qed.

(** [[class]+] followed by nothing that can fail reads the whole run. *)
Lemma plus_cls_greedy {A} p s (f : string → A) x :
  plus_cls p s (λ s', Some (f s')) = Some x →
  ∃ a b, s = a +:+ b ∧ a ≠ "" ∧ all_chars p a = true ∧ x = f b
         ∧ Logs.starts_in p b = false.
Proof.
  revert x. induction s as [|c s IH]; intros x; simpl; [done|].
  destruct (p c) eqn:Hc; [|done].
  destruct (plus_cls p s (λ s', Some (f s'))) as [y|] eqn:Hrec.
  - intros [= ->]. destruct (IH _ eq_refl) as (a & b & -> & Ha & Hall & Hk & Hb).
    exists (String c a), b. simpl. by rewrite Hc, Hall.
  - intros [= <-]. exists (String c ""), s. simpl. rewrite Hc. split_and!; try done.
    destruct s as [|c' s]; [done|]. simpl in *.
    destruct (p c') eqn:Hc'; [|done].
    by destruct (plus_cls p s (λ s', Some (f s'))).
Qed.

(** Of the ways to split the run, [[class]+] takes the longest that
    lets the rest of the pattern match. *)
Lemma plus_cls_longest {A} p s (k : string → option A) x :
  plus_cls p s k = Some x →
  ∃ a b, s = a +:+ b ∧ a ≠ "" ∧ all_chars p a = true ∧ k b = Some x
         ∧ ∀ c b', b = String c b' → p c = true →
                   plus_cls p b k = None.
Proof.
  revert x. induction s as [|c s IH]; intros x; simpl; [done|].
  destruct (p c) eqn:Hc; [|done].
  destruct (plus_cls p s k) as [y|] eqn:Hrec.
  - intros [= ->]. destruct (IH _ eq_refl) as (a & b & -> & Ha & Hall & Hk & Hb).
    exists (String c a), b. simpl. by rewrite Hc, Hall.
  - intros Hk. exists (String c ""), s. simpl. rewrite Hc. split_and!; try done.
Qed.

Lemma all_chars_app p (a b : string) :
  all_chars p (a +:+ b) = all_chars p a && all_chars p b.
Proof.
  induction a as [|c a IH]; [done|]. rewrite append_cons. simpl.
  by rewrite IH, andb_assoc.
Qed.
End FinditerFacts.

Section StandaloneJobs.
Import Re Jobs Logs.

Lemma plus_cls_stops {A} p s (k : string → option A) :
  starts_in p s = false → plus_cls p s k = None.
Proof. destruct s as [|c s]; [done|]. simpl. by intros ->. Qed.

Lemma plus_cls_run {A} p a b (f : string → A) :
  a ≠ "" → all_chars p a = true → starts_in p b = false →
  plus_cls p (a +:+ b) (λ s', Some (f s')) = Some (f b).
Proof.
  induction a as [|c a IH]; [done|]. intros _ Hall Hb.
  simpl in Hall. apply andb_prop in Hall as [Hc Hall].
  rewrite append_cons. cbn [plus_cls]. rewrite Hc.
  destruct a as [|c' a].
  - rewrite append_nil_l. by rewrite plus_cls_stops.
  - by rewrite IH.
Qed.

(** The matches of ["Got job (\d+)"]: [Got job ], then all the digits
    that follow. *)
Lemma got_job_here_exact s m :
  match_here STANDALONE_JOB_RE s = Some m ↔
  ∃ ds, s = "Got job " +:+ ds +:+ rest m
        ∧ ds ≠ "" ∧ all_chars digit ds = true
        ∧ starts_in digit (rest m) = false
        ∧ captures m = [(1%nat, ds)].
Proof.
  unfold match_here, STANDALONE_JOB_RE.
  rewrite exec_Cat, exec_lits. split.
  - destruct (strip_prefix "Got job " s) as [t|] eqn:Hs; [|done].
    apply strip_prefix_Some in Hs. subst s.
    rewrite exec_Grp, exec_Plus.
    intros (ds & b & -> & Hne & Hall & -> & Hb)%plus_cls_greedy.
    exists ds. rewrite consumed_append. done.
  - intros (ds & -> & Hne & Hall & Hmax & Hcap).
    rewrite strip_prefix_app, exec_Grp, exec_Plus.
    rewrite (plus_cls_run digit ds (rest m)
               (λ s', {| captures := [(1%nat, consumed (ds +:+ rest m) s')];
                         rest := s' |})) by done.
    rewrite consumed_append. destruct m as [caps rst]. simpl in *. by subst caps.
Qed.

Lemma digit_not_G c : digit c = true → c ≠ "G"%char.
Proof. by intros Hc ->. Qed.

(** A text that starts with [G] and begins inside of [a +:+ u],
    where [a] has no [G], begins inside of [u]. *)
Lemma skip_no_G (a u pre post : string) :
  all_chars (λ c, negb (Ascii.eqb c "G")) a = true →
  a +:+ u = pre +:+ String "G" post →
  ∃ pre', u = pre' +:+ String "G" post.
Proof.
  revert pre. induction a as [|c a IH]; intros pre Hall Heq.
  - by exists pre.
  - simpl in Hall. apply andb_prop in Hall as [Hc Hall].
    rewrite append_cons in Heq. destruct pre as [|c' pre].
    + rewrite append_nil_l in Heq. injection Heq as -> _. done.
    + rewrite append_cons in Heq. injection Heq as _ Heq. by apply (IH pre).
Qed.

Lemma got_job_no_overlap s m pre post m' :
  match_here STANDALONE_JOB_RE s = Some m → s = pre +:+ post → pre ≠ "" →
  match_here STANDALONE_JOB_RE post = Some m' → ∃ pre', rest m = pre' +:+ post.
Proof.
  intros (ds & Hs & _ & Hall & _)%got_job_here_exact Hsplit Hpre
         (ds' & Hpost & _)%got_job_here_exact.
  destruct pre as [|c pre]; [done|].
  rewrite Hs in Hsplit. rewrite Hpost in Hsplit |- *.
  change ("Got job " +:+ ds +:+ rest m)
    with (String "G" ("ot job " +:+ ds +:+ rest m)) in Hsplit.
  rewrite append_cons in Hsplit. injection Hsplit as _ Hsplit.
  change ("Got job " +:+ ds' +:+ rest m') with (String "G" ("ot job " +:+ ds' +:+ rest m'))
    in Hsplit |- *.
  apply (skip_no_G ("ot job " +:+ ds) _ pre).
  - rewrite all_chars_app. apply andb_true_intro. split; [done|].
    clear -Hall. induction ds as [|c ds IH]; [done|]. simpl in *.
    apply andb_prop in Hall as [Hc Hall]. rewrite (IH Hall), andb_true_r.
    apply negb_true_iff, Ascii.eqb_neq. by apply digit_not_G.
  - by rewrite append_assoc.
Qed.

Lemma got_job_suffix s m :
  match_here STANDALONE_JOB_RE s = Some m → ∃ a, s = a +:+ rest m.
Proof.
  intros (ds & Hs & _)%got_job_here_exact. exists ("Got job " +:+ ds).
  by rewrite append_assoc.
Qed.

(** The job ids that the loop of [_get_standalone_jobs] collects are
    the numbers that the log names after [Got job ]. *)
Lemma job_ids_mentioned logs n : n ∈ job_ids logs ↔ job_mentioned logs n.
Proof.
  rewrite elem_of_job_ids, list_elem_of_fmap. unfold job_mentioned. split.
  - intros (m & -> & Hin).
    apply (finditer_sound _ got_job_suffix) in Hin as (pre & post & -> & Hm).
    apply got_job_here_exact in Hm as (ds & -> & Hne & Hall & Hmax & Hcap).
    unfold group. rewrite Hcap. simpl. split_and!; [done..|].
    by exists pre, (rest m).
  - intros (Hne & Hall & pre & post & -> & Hmax).
    exists {| captures := [(1%nat, n)]; rest := post |}. split; [done|].
    apply (finditer_complete _ got_job_no_overlap _ pre ("Got job " +:+ n +:+ post)); [done|].
    apply got_job_here_exact. exists n. by split_and!.
Qed.

(** X21. When the log has the line of the Spark UI, the jobs that
    [_get_standalone_jobs] returns are the jobs that the log names after
    [Got job ]: one entry for each number, whatever the number of times
    the log names it, with the URL of the Spark UI followed by
    [/jobs/job/?id=] and the number. Nothing is logged. *)
Theorem standalone_jobs_are_the_jobs_named logs m :
  search SPARK_UI_RE logs = Some m →
  (_get_standalone_jobs logs).1 = []
  ∧ NoDup (map name (_get_standalone_jobs logs).2)
  ∧ ∀ j, j ∈ (_get_standalone_jobs logs).2
         ↔ ∃ n, job_mentioned logs n ∧ j = job_entry (group m 1) n.
Proof.
  intros Hui. unfold _get_standalone_jobs. rewrite Hui. cbn [fst snd].
  split; [done|]. split.
  - rewrite map_map. simpl. rewrite map_id. apply NoDup_elements.
  - intros j. rewrite list_elem_of_fmap. split.
    + intros (n & -> & Hn%elem_of_elements%job_ids_mentioned). by exists n.
    + intros (n & Hn%job_ids_mentioned%elem_of_elements & ->). by exists n.
Qed.

Lemma standalone_jobs_are_the_jobs_named_witness :
  ∃ m, search SPARK_UI_RE sample_log = Some m
       ∧ job_entry "http://host-1.example.com:4040" "12"
           ∈ (_get_standalone_jobs sample_log).2.
Proof.
  eassert (search SPARK_UI_RE sample_log = Some _) as Hui by (vm_compute; reflexivity).
  eexists. split; [exact Hui|].
  apply (standalone_jobs_are_the_jobs_named _ _ Hui).
  exists "12". split; [|reflexivity].
  split; [done|]. split; [done|].
  exists ("INFO Utils: Started SparkUI at http://host-1.example.com:4040"
          +:+ String "010"%char
                "INFO DAGScheduler: Got job 0 (collect) with 2 output partitions"
          +:+ String "010"%char "INFO DAGScheduler: "),
    (" (count) with 1 output partitions"
     +:+ String "010"%char "INFO DAGScheduler: Got job 0 finished").
  split; reflexivity.
Defined.
End StandaloneJobs.

Section YarnJobs.
Import Re Jobs Yarn Logs.

Lemma yarn_here s m :
  match_here YARN_JOB_RE s = Some m →
  ∃ scheme body,
    s = "tracking URL: " +:+ group m 1 +:+ rest m
    ∧ group m 1 = scheme +:+ "://" +:+ body +:+ "/"
    ∧ (scheme = "http" ∨ scheme = "https")
    ∧ body ≠ "" ∧ all_chars not_newline body = true
    ∧ no_slash_on_line (rest m).
Proof.
  unfold match_here, YARN_JOB_RE.
  rewrite exec_Cat, exec_lits.
  destruct (strip_prefix "tracking URL: " s) as [t|] eqn:Hs; [|done].
  apply strip_prefix_Some in Hs. subst s.
  rewrite exec_Grp, exec_Cat, exec_lits.
  destruct (strip_prefix "http" t) as [u|] eqn:Ht; [|done].
  apply strip_prefix_Some in Ht. subst t.
  rewrite exec_Cat, exec_Opt.
  assert (∀ v (g : groups) x,
            exec (Cat (lits "://") (Cat (Plus not_newline) (Lit "/"))) v g
              (λ s' g', Some {| captures := (1%nat, consumed ("http" +:+ u) s') :: g';
                                rest := s' |}) = Some x →
            ∃ body,
              v = "://" +:+ body +:+ "/" +:+ rest x
              ∧ lookup_group (captures x) 1 = Some (consumed ("http" +:+ u) (rest x))
              ∧ body ≠ "" ∧ all_chars not_newline body = true
              ∧ no_slash_on_line (rest x)) as Htail.
  { intros v g x. rewrite exec_Cat, exec_lits.
    destruct (strip_prefix "://" v) as [v1|] eqn:Hv; [|done].
    apply strip_prefix_Some in Hv. subst v.
    rewrite exec_Cat, exec_Plus.
    intros (body & b & -> & Hb & Hball & Hk & Hlong)%plus_cls_longest.
    rewrite exec_Lit in Hk.
    destruct (strip_prefix "/" b) as [b1|] eqn:Hb1; [|done].
    apply strip_prefix_Some in Hb1. subst b. injection Hk as <-.
    exists body. cbn [rest captures lookup_group Nat.eqb]. split_and!; try done.
    intros a2 b2 Hrest.
    destruct (all_chars not_newline a2) eqn:Ha2; [|done]. exfalso.
    specialize (Hlong "/"%char b1 eq_refl eq_refl).
    assert (is_Some (plus_cls not_newline ("/" +:+ b1)
                       (λ s', exec (Lit "/") s' g
                                (λ s'0 g',
                                   Some {| captures :=
                                             (1%nat, consumed ("http" +:+ u) s'0) :: g';
                                           rest := s'0 |})))) as [y Hy].
    { rewrite Hrest.
      change ("/" +:+ a2 +:+ "/" +:+ b2) with (String "/" a2 +:+ "/" +:+ b2).
      apply plus_cls_complete; [done | by simpl; rewrite Ha2 | by simpl]. }
    by rewrite Hlong in Hy. }
  intros Hm.
  assert (∃ scheme body,
            "http" +:+ u = scheme +:+ "://" +:+ body +:+ "/" +:+ rest m
            ∧ lookup_group (captures m) 1 = Some (consumed ("http" +:+ u) (rest m))
            ∧ (scheme = "http" ∨ scheme = "https")
            ∧ body ≠ "" ∧ all_chars not_newline body = true
            ∧ no_slash_on_line (rest m))
    as (scheme & body & Hu & Hg & Hscheme & Hrest).
  { rewrite exec_Lit in Hm.
    destruct (strip_prefix "s" u) as [u1|] eqn:Hu.
    - apply strip_prefix_Some in Hu. subst u.
      match type of Hm with match ?x with _ => _ end = _ =>
        destruct x as [y|] eqn:Hy end.
      + injection Hm as ->. apply Htail in Hy as (body & -> & Hg & Hrest).
        exists "https", body. split_and!; try done; try apply Hrest. by right.
      + apply Htail in Hm as (body & [=] & _).
    - apply Htail in Hm as (body & -> & Hg & Hrest).
      exists "http", body. split_and!; try done; try apply Hrest. by left. }
  assert (group m 1 = scheme +:+ "://" +:+ body +:+ "/") as Hurl.
  { unfold group. rewrite Hg. simpl. rewrite Hu.
    rewrite <- !append_assoc. rewrite consumed_append. by rewrite !append_assoc. }
  exists scheme, body. split_and!; try done; try apply Hrest.
  rewrite Hurl, Hu. by rewrite !append_assoc.
Qed.

Lemma yarn_suffix s m : match_here YARN_JOB_RE s = Some m → ∃ a, s = a +:+ rest m.
Proof.
  intros (scheme & body & Hs & _)%yarn_here. exists ("tracking URL: " +:+ group m 1).
  by rewrite append_assoc.
Qed.

Lemma tracking_urls_given logs url :
  url ∈ tracking_urls logs → tracking_url_given logs url.
Proof.
  unfold tracking_urls. rewrite elem_of_job_ids_fold, list_elem_of_fmap.
  intros [Hin | (m & -> & Hin)]; [set_solver|].
  apply (finditer_sound _ yarn_suffix) in Hin as (pre & post & -> & Hm).
  apply yarn_here in Hm as (scheme & body & -> & Hurl & Hscheme & Hne & Hall & Hline).
  exists scheme, body, pre, (rest m). by split_and!.
Qed.

Lemma lstrip_head c a (s : string) : a ≠ c → lstrip c (String a s) = String a s.
Proof. intros Hne. simpl. by rewrite (proj2 (Ascii.eqb_neq _ _) Hne). Qed.

Lemma rstrip_end c (s : string) :
  rstrip c s = "" ∨ ∃ t b, rstrip c s = t +:+ String b "" ∧ b ≠ c.
Proof.
  induction s as [|a s IH]; [by left|]. cbn [rstrip].
  destruct (rstrip c s) as [|a' t'] eqn:Hr.
  - destruct (Ascii.eqb_spec a c) as [->|Hne]; [by left|].
    right. by exists "", a.
  - right. destruct IH as [|(t & b & Ht & Hb)]; [done|].
    exists (String a t), b. by rewrite Ht.
Qed.

Lemma rstrip_head c a (s : string) :
  a ≠ c → ∃ t b, rstrip c (String a s) = t +:+ String b "" ∧ b ≠ c.
Proof.
  intros Hne. destruct (rstrip_end c (String a s)) as [Hnil|H]; [|done].
  exfalso. cbn [rstrip] in Hnil. destruct (rstrip c s); [|done].
  by rewrite (proj2 (Ascii.eqb_neq _ _) Hne) in Hnil.
Qed.

Lemma split_not_nil sep s : Py.split sep s ≠ [].
Proof.
  destruct s as [|c s]; [done|]. simpl.
  destruct (Ascii.eqb c sep); [done|]. by destruct (Py.split sep s).
Qed.

Lemma last_split_free sep s : free_of sep (List.last (Py.split sep s) "") = true.
Proof.
  unfold free_of. induction s as [|c s IH]; [done|]. cbn [Py.split].
  pose proof (split_not_nil sep s) as Hnil.
  destruct (Ascii.eqb c sep) eqn:Hc.
  - destruct (Py.split sep s) as [|h tl]; [done|]. exact IH.
  - destruct (Py.split sep s) as [|h tl]; [done|].
    destruct tl as [|h' tl]; [|exact IH].
    simpl in *. by rewrite Hc, IH.
Qed.

Lemma last_split_nonempty sep (u : string) b :
  b ≠ sep → List.last (Py.split sep (u +:+ String b "")) "" ≠ "".
Proof.
  intros Hb. induction u as [|c u IH].
  - rewrite append_nil_l. simpl. by rewrite (proj2 (Ascii.eqb_neq _ _) Hb).
  - rewrite append_cons. cbn [Py.split].
    pose proof (split_not_nil sep (u +:+ String b "")) as Hnil.
    destruct (Ascii.eqb c sep).
    + destruct (Py.split sep (u +:+ String b "")) as [|h tl]; [done|]. exact IH.
    + destruct (Py.split sep (u +:+ String b "")) as [|h tl]; [done|].
      destruct tl as [|h' tl]; [done | exact IH].
Qed.

(** The application id of a URL that starts with [h]. *)
Lemma application_id_named (url : string) :
  application_id (String "h" url) ≠ ""
  ∧ free_of "/" (application_id (String "h" url)) = true.
Proof.
  unfold application_id, strip. rewrite lstrip_head by done.
  destruct (rstrip_head "/" "h" url) as (t & b & -> & Hb); [done|].
  split; [by apply last_split_nonempty | apply last_split_free].
Qed.

(** X22. Every job that [_get_yarn_jobs] returns carries a tracking URL
    that the log gives: an [http] or [https] URL after [tracking URL: ],
    on one line, running to the last [/] of that line. Its name is the
    last token of the URL between slashes; it is never empty and holds
    no [/]. No URL is listed twice. *)
Theorem yarn_jobs_carry_tracking_urls logs :
  NoDup (map url (_get_yarn_jobs logs))
  ∧ ∀ j, j ∈ _get_yarn_jobs logs →
         tracking_url_given logs (url j)
         ∧ name j = application_id (url j)
         ∧ name j ≠ ""
         ∧ free_of "/" (name j) = true.
Proof.
  unfold _get_yarn_jobs. split.
  - rewrite map_map. simpl. rewrite map_id. apply NoDup_elements.
  - intros j (u & -> & Hu%elem_of_elements%tracking_urls_given)%list_elem_of_fmap.
    cbn [name url]. split; [done|]. split; [done|].
    destruct Hu as (scheme & body & pre & post & Hscheme & _ & _ & -> & _).
    destruct Hscheme as [-> | ->]; apply application_id_named.
Qed.
End YarnJobs.

Section PropsTotal.
Import Py SparkConfiguration Props MergeSpec Callers.

Lemma named_values_readable ps :
  Forall readable ps ↔
  ∃ pairs, named_values ps = Ok pairs ∧ Forall (λ kv, hashable kv.1 = true) pairs.
Proof.
  induction ps as [|p ps IH].
  - split; [intros _; by exists [] | constructor].
  - rewrite Forall_cons, IH. clear IH. split.
    + intros [(d & -> & Hd) (pairs & Hps & Hall)]. cbn [named_values].
      unfold dict_mem, getitem.
      destruct (dict_get d (VStr "name")) as [k|] eqn:Hk;
        destruct (dict_get d (VStr "value")) as [v|] eqn:Hv; simpl; eauto.
      rewrite Hps. simpl. eexists. split; [done|].
      apply Forall_cons. split; [by eapply Hd | done].
    + destruct p as [| | | | |d]; try by intros (? & [=] & _).
      cbn [named_values]. unfold dict_mem, getitem.
      destruct (dict_get d (VStr "name")) as [k|] eqn:Hk;
        destruct (dict_get d (VStr "value")) as [v|] eqn:Hv; simpl;
        try (intros H; split; [|exact H]; exists d; split; [done|]; congruence).
      destruct (named_values ps) as [tl|] eqn:Hps; simpl; [|by intros (? & [=] & _)].
      intros (pairs & [= <-] & [Hhk Hall]%Forall_cons). split; [|eauto].
      exists d. split; [done|]. intros k' v' Hk' _. rewrite Hk in Hk'.
      by injection Hk' as <-.
Qed.

Lemma dict_of_pairs_hashable acc pairs :
  Forall (λ kv : value * value, hashable kv.1 = true) pairs
  ↔ ∃ d, dict_of_pairs acc pairs = Ok d.
Proof.
  revert acc. induction pairs as [|[k v] pairs IH]; intros acc.
  - split; [intros _; by exists acc | constructor].
  - rewrite Forall_cons. cbn [dict_of_pairs fst]. unfold dict_setitem.
    destruct (hashable k); simpl.
    + rewrite (IH (dict_set acc k v)). tauto.
    + split; [by intros [[=] _] | by intros [? [=]]].
Qed.

Lemma updated_readable P :
  (∀ ps, P = Some ps → Forall readable ps) ↔ ∃ props, updated P = Ok props.
Proof.
  destruct P as [ps|]; simpl.
  - split.
    + intros H. specialize (H ps eq_refl).
      apply named_values_readable in H as (pairs & -> & Hall). simpl.
      apply (dict_of_pairs_hashable []) in Hall as [d ->]. simpl. eauto.
    + intros [props H] ? [= <-].
      destruct (named_values ps) as [pairs|] eqn:Hps; [|done]. simpl in H.
      destruct (dict_of_pairs [] pairs) as [upd|] eqn:Hupd; [|done].
      apply named_values_readable. exists pairs. split; [done|].
      apply (dict_of_pairs_hashable []). eauto.
  - split; [intros _; by eexists | by intros _ ? [=]].
Qed.

Lemma coerce_list_ok props key :
  csv_or_list (dict_get props (VStr key)) ↔ ∃ props', coerce_list props key = Ok props'.
Proof.
  unfold coerce_list, csv_or_list.
  destruct (dict_get props (VStr key)) as [[]|];
    split; first [done | by eauto | by intros [? [=]]].
Qed.

Lemma coerce_list_other props key props' n :
  coerce_list props key = Ok props' → key ≠ n →
  dict_get props' (VStr n) = dict_get props (VStr n).
Proof.
  intros H Hne. pose proof (coerce_list_lookup _ _ _ n H) as Hn.
  rewrite (proj2 (String.eqb_neq _ _) Hne) in Hn.
  by destruct (dict_get props (VStr n)).
Qed.

Lemma coerce_lists_ok keys props :
  NoDup keys →
  Forall (λ key, csv_or_list (dict_get props (VStr key))) keys
  ↔ ∃ props', coerce_lists props keys = Ok props'.
Proof.
  revert props. induction keys as [|key keys IH]; intros props Hnd.
  - split; [intros _; by exists props | constructor].
  - apply NoDup_cons in Hnd as [Hkey Hnd]. rewrite Forall_cons. cbn [coerce_lists].
    rewrite coerce_list_ok.
    destruct (coerce_list props key) as [props1|e] eqn:H1; simpl.
    + rewrite <- (IH props1 Hnd).
      assert (Forall (λ key0, csv_or_list (dict_get props (VStr key0))) keys
              ↔ Forall (λ key0, csv_or_list (dict_get props1 (VStr key0))) keys) as ->.
      { rewrite !Forall_forall. split; intros H n Hn.
        - rewrite (coerce_list_other _ _ _ n H1) by congruence. by apply H.
        - rewrite <- (coerce_list_other _ _ _ n H1) by congruence. by apply H. }
      split; [tauto | eauto].
    + split; [by intros [[? [=]] _] | by intros [? [=]]].
Qed.

Lemma livy_value_csv n v :
  n ∈ ["archives"; "jars"; "files"; "pyFiles"] →
  (∃ v', livy_value n v = Ok v') ↔ csv_or_list (Some v).
Proof.
  intros Hn. unfold livy_value. rewrite bool_decide_eq_true_2 by done.
  destruct v; simpl; split; first [done | by eauto | by intros [? [=]]].
Qed.

Lemma default_names :
  map name PROPERTIES
  = ["conf"; "jars"; "files"; "pyFiles"; "driverMemory"; "driverCores";
     "executorMemory"; "executorCores"; "queue"; "archives"].
Proof. reflexivity. Qed.

Lemma default_named n : n ∈ map name PROPERTIES → ∃ d, d ∈ PROPERTIES ∧ name d = n.
Proof. intros (d & -> & Hd)%list_elem_of_fmap. eauto. Qed.

(** [get_livy_props] returns exactly when the caller's entries can be
    read and [livy_value] returns for the merged value of each
    default. *)
Lemma get_livy_props_returns_when lang P :
  (∃ props, get_livy_props lang P = Ok props)
  ↔ (∀ ps, P = Some ps → Forall readable ps)
    ∧ Forall (λ d, ∃ v, livy_value (name d) (merged_value P d) = Ok v) PROPERTIES.
Proof.
  split.
  - intros [props H]. split.
    + apply updated_readable. rewrite get_livy_props_unfold in H.
      apply bind_Ok in H as (props1 & H1 & H). eauto.
    + apply Forall_forall. intros d Hd.
      pose proof names_not_kind as Hk. rewrite Forall_forall in Hk.
      pose proof (get_livy_props_lookup lang P props (name d) H (Hk d Hd)) as Hn.
      rewrite (merged_lookup_default P d Hd) in Hn.
      destruct Hn as (v & Hv & _). eauto.
  - intros [[props1 H1]%updated_readable Hall].
    rewrite Forall_forall in Hall.
    assert (∀ n, n ∈ map name PROPERTIES →
                 ∃ v, dict_get props1 (VStr n) = Some v ∧ ∃ v', livy_value n v = Ok v')
      as Hmerged.
    { intros n (d & Hd & <-)%default_named.
      exists (merged_value P d). split; [|by apply Hall].
      by rewrite (updated_lookup _ _ _ H1), (merged_lookup_default P d Hd). }
    rewrite get_livy_props_unfold, H1. cbn [mbind result_bind].
    assert (NoDup ["archives"; "jars"; "files"; "pyFiles"]) as Hnd by compute_done.
    destruct (proj1 (coerce_lists_ok ["archives"; "jars"; "files"; "pyFiles"] props1 Hnd))
      as [props2 H2].
    { apply Forall_forall. intros n Hn.
      destruct (Hmerged n) as (v & -> & Hv).
      { rewrite default_names. set_solver. }
      by apply livy_value_csv in Hv. }
    rewrite H2. cbn [mbind result_bind].
    destruct (Hmerged "conf") as (v & Hv & v' & Hv').
    { rewrite default_names. set_solver. }
    pose proof (coerce_lists_lookup _ _ _ "conf" Hnd H2) as Hconf.
    rewrite Hv in Hconf. rewrite bool_decide_eq_false_2 in Hconf by compute_done.
    unfold getitem. rewrite Hconf. cbn [mbind result_bind].
    unfold livy_value in Hv'. rewrite bool_decide_eq_false_2 in Hv' by compute_done.
    simpl in Hv'.
    destruct (iter v) as [items|]; [|done]. simpl in *.
    destruct (conf_dict [] items) as [conf'|]; [|done]. simpl. eauto.
Qed.

Lemma other_names_pass n v :
  n ∉ ["archives"; "jars"; "files"; "pyFiles"] → n ≠ "conf" → livy_value n v = Ok v.
Proof.
  intros Hn Hc. unfold livy_value. rewrite bool_decide_eq_false_2 by done.
  by destruct (String.eqb_spec n "conf").
Qed.

Lemma list_or_string_csv v : list_or_string v ↔ csv_or_list (Some v).
Proof. by destruct v. Qed.

(** X1. [get_livy_props] returns, rather than raises, exactly when the
    caller's properties can be read and make sense to Livy: every entry
    is a dict, with a hashable ['name'] if it has a ['name'] and a
    ['value']; the value that the merge gives to [archives], [jars],
    [files] and [pyFiles] is a list or a string; and the value it gives
    to [conf] is a list, or the keys of a dict, of dicts whose ['key']
    (or [None], without one) is hashable, or the empty string. *)
Theorem get_livy_props_returns_iff lang P :
  (∃ props, get_livy_props lang P = Ok props)
  ↔ (∀ ps, P = Some ps → Forall readable ps)
    ∧ (∀ n v, n ∈ ["archives"; "jars"; "files"; "pyFiles"] →
              merged_lookup P n = Some v → list_or_string v)
    ∧ (∀ v, merged_lookup P "conf" = Some v → Conf.conf_acceptable v).
Proof.
  rewrite get_livy_props_returns_when.
  apply and_iff_compat_l. rewrite Forall_forall. split.
  - intros Hall. split.
    + intros n v Hn Hv.
      destruct (default_named n) as (d & Hd & <-).
      { rewrite default_names. set_solver. }
      rewrite (merged_lookup_default P d Hd) in Hv. injection Hv as <-.
      apply list_or_string_csv, (livy_value_csv (name d)); [done|]. by apply Hall.
    + intros v Hv.
      destruct (default_named "conf") as (d & Hd & Hname).
      { rewrite default_names. set_solver. }
      rewrite <- Hname, (merged_lookup_default P d Hd) in Hv. injection Hv as <-.
      apply livy_value_conf. rewrite <- Hname. by apply Hall.
  - intros [Hcsv Hconf] d Hd.
    destruct (decide (name d ∈ ["archives"; "jars"; "files"; "pyFiles"])) as [Hn|Hn].
    { apply livy_value_csv; [done|]. apply list_or_string_csv.
      apply (Hcsv (name d)); [done|]. by apply merged_lookup_default. }
    destruct (decide (name d = "conf")) as [Hc|Hc].
    { rewrite Hc. apply livy_value_conf, Hconf.
      rewrite <- Hc. by apply merged_lookup_default. }
    exists (merged_value P d). by apply other_names_pass.
Qed.

Lemma join_split sep (s : string) : join (String sep "") (split sep s) = s.
Proof.
  induction s as [|c s IH]; [done|]. cbn [split].
  pose proof (split_not_nil sep s) as Hnil.
  destruct (Ascii.eqb_spec c sep) as [->|Hne].
  - destruct (split sep s) as [|h tl]; [done|].
    cbn [join]. cbn [join] in IH. rewrite append_nil_l. 
    change (String sep "" +:+ ?x) with (String sep x). by rewrite IH.
  - destruct (split sep s) as [|h tl]; [done|].
    destruct tl as [|h' tl]; cbn [join] in *.
    + by rewrite IH.
    + rewrite append_cons. by rewrite IH.
Qed.

Lemma split_free sep (s : string) : Forall (λ p, Logs.free_of sep p = true) (split sep s).
Proof.
  unfold Logs.free_of.
  induction s as [|c s IH]; [by repeat constructor|]. cbn [split].
  pose proof (split_not_nil sep s) as Hnil.
  destruct (Ascii.eqb c sep) eqn:Hc.
  - apply Forall_cons. by split.
  - destruct (split sep s) as [|h tl]; [done|].
    apply Forall_cons in IH as [Hh Htl]. apply Forall_cons. split; [|done].
    simpl. by rewrite Hc, Hh.
Qed.

(** X2. A string that the caller gives for [archives], [jars], [files]
    or [pyFiles] goes to Livy as the list of its pieces between commas:
    no piece holds a comma, and the pieces joined by commas are the
    string again. There is always a piece: the empty string becomes the
    list of one empty string, not the empty list. *)
Theorem csv_property_is_split lang ps props n s :
  n ∈ ["archives"; "jars"; "files"; "pyFiles"] →
  get_livy_props lang (Some ps) = Ok props →
  caller_value ps n = Some (VStr s) →
  ∃ pieces,
    dict_get props (VStr n) = Some (VList (map VStr pieces))
    ∧ pieces ≠ []
    ∧ Forall (λ p, Logs.free_of "," p = true) pieces
    ∧ join "," pieces = s.
Proof.
  intros Hn Hrun Hs.
  pose proof (get_livy_props_lookup lang (Some ps) props n Hrun) as Hlook.
  unfold merged_lookup in Hlook. simpl in Hlook. rewrite Hs in Hlook.
  destruct Hlook as (v' & Hv' & Hget); [set_solver|].
  unfold livy_value in Hv'. rewrite bool_decide_eq_true_2 in Hv' by done.
  injection Hv' as <-. exists (split "," s).
  split_and!; [done | apply split_not_nil | apply split_free | apply join_split].
Qed.

Lemma csv_property_is_split_witness :
  ∃ props pieces,
    get_livy_props "scala" (Some [property "jars" (VStr "")]) = Ok props
    ∧ dict_get props (VStr "jars") = Some (VList (map VStr pieces))
    ∧ pieces ≠ []
    ∧ join "," pieces = "".
Proof.
  eassert (get_livy_props "scala" (Some [property "jars" (VStr "")]) = Ok _) as Hrun
    by (vm_compute; reflexivity).
  destruct (csv_property_is_split "scala" _ _ "jars" "" ltac:(set_solver) Hrun eq_refl)
    as (pieces & Hget & Hne & _ & Hjoin).
  eexists _, pieces. split; [exact Hrun|]. by split_and!.
Defined.
End PropsTotal.

Section Profile.
Import Py SparkApi Runs.
Context {R : Type}.

Lemma append_inj_r (a b c : string) : a +:+ b = a +:+ c → b = c.
Proof. induction a as [|x a IH]; [done|]. rewrite !append_cons. intros [= H]. by apply IH. Qed.

Lemma session_key_interpreter (self other : Self) :
  username other = username self →
  _get_session_key other = _get_session_key self →
  interpreter_name other = interpreter_name self.
Proof.
  unfold _get_session_key. intros -> H.
  apply append_inj_r in H. by apply (append_inj_r "-") in H.
Qed.

(** X3. The session info kept for an interpreter is read back as it was
    stored, and is gone once removed. Neither storing nor removing it
    changes what is kept for another interpreter of the same user, and
    neither says anything to Livy. *)
Theorem stored_session_round_trip (self other : Self) info (w : World R) :
  username other = username self →
  interpreter_name other ≠ interpreter_name self →
  let w1 := (_set_session_info_to_user self info w).2 in
  let w2 := (_remove_session_info_from_user self w1).2 in
  (_get_session_info_from_user self w1).1 = Ok (Some info)
  ∧ (_get_session_info_from_user self w2).1 = Ok None
  ∧ (_get_session_info_from_user other w1).1 = (_get_session_info_from_user other w).1
  ∧ (_get_session_info_from_user other w2).1 = (_get_session_info_from_user other w).1
  ∧ remote w2 = remote w
  ∧ no_remote_call (trace w2) = no_remote_call (trace w).
Proof.
  intros Huser Hinterp w1 w2.
  assert (_get_session_key other ≠ _get_session_key self) as Hkey.
  { intros H. by apply Hinterp, session_key_interpreter. }
  subst w1 w2.
  unfold _get_session_info_from_user, _set_session_info_to_user,
    _remove_session_info_from_user. cbn [fst snd profile remote trace].
  rewrite lookup_insert_eq. cbn [fst snd profile remote trace].
  rewrite lookup_delete_eq, lookup_delete_ne, lookup_insert_ne by done.
  by split_and!.
Qed.

End Profile.

Lemma stored_session_round_trip_witness :
  (SparkApi._get_session_info_from_user Mock.alice
     (SparkApi._set_session_info_to_user Mock.alice (Mock.info 5)
        (Mock.world Mock.silent ∅)).2).1
  = Py.Ok (Some (Mock.info 5)).
Proof.
  apply (stored_session_round_trip Mock.alice
           Desk.alice_scala
           (Mock.info 5) (Mock.world Mock.silent ∅)); [reflexivity | discriminate].
Defined.

Section SessionRuns.
Import Py SparkApi Runs Endpoints.

Lemma create_session_reuses_stored_witness :
  ∃ w',
    create_session Mock.alice "scala" None
      (Mock.world (Desk.serving 1 [] [] []) (Mock.stored 5))
    = (Ok (Mock.info 5), w')
    ∧ profile w' = Mock.stored 5.
Proof.
  eassert (api_get_session (Some 5)
             (remote (Mock.world (Desk.serving 1 [] [] []) (Mock.stored 5))) = (Ok _, _))
    as Hget by reflexivity.
  destruct (create_session_reuses_stored Mock.alice "scala" None
              (Mock.world (Desk.serving 1 [] [] []) (Mock.stored 5))
              (Mock.info 5) _ _ eq_refl Hget eq_refl)
    as (w' & Hrun & _ & Hp & _).
  exists w'. by split.
Defined.

Lemma create_session_stores_its_result_witness :
  ∃ info w',
    create_session Mock.alice "pyspark" None (Mock.world Mock.starting_twice ∅)
    = (Ok info, w')
    ∧ profile w' !! "alice-pyspark" = Some info
    ∧ closed (trace w') = [].
Proof.
  eassert (create_session Mock.alice "pyspark" None (Mock.world Mock.starting_twice ∅)
           = (Ok _, _)) as Hrun by (vm_compute; reflexivity).
  destruct (create_session_stores_its_result Mock.alice _ _ _ _ _ Hrun)
    as (evs & Htr & Hc & Hkey & _).
  eexists _, _. split; [exact Hrun|]. split; [exact Hkey|].
  rewrite Htr. simpl. by rewrite app_nil_r.
Defined.

Lemma create_session_twice_witness :
  ∃ info w1 w2,
    create_session Mock.alice "pyspark" None (Mock.world (Desk.serving 2 [] [] []) ∅)
    = (Ok info, w1)
    ∧ create_session Mock.alice "scala" (Some [MergeSpec.property "queue" (VStr "etl")]) w1
      = (Ok info, w2).
Proof.
  eassert (create_session Mock.alice "pyspark" None (Mock.world (Desk.serving 2 [] [] []) ∅)
           = (Ok _, _)) as Hrun by (vm_compute; reflexivity).
  match type of Hrun with _ = (_, ?w1) =>
    eassert (api_get_session (Some 5) (remote w1) = (Ok _, _)) as Hget by reflexivity
  end.
  edestruct (create_session_twice Mock.alice _ _ "scala"
               (Some [MergeSpec.property "queue" (VStr "etl")]) _ _ _ _ _ Hrun Hget eq_refl)
    as (w2 & Hrun2 & _).
  eexists _, _, w2. split; [exact Hrun | exact Hrun2].
Defined.

Lemma health_check_never_creates_witness :
  ∃ w',
    _handle_session_health_check Mock.alice (Some (Mock.info 5)) (Mock.world Mock.silent ∅)
    = (Raise (PopupException "Session expired. Please create new session and try again."),
       w')
    ∧ profile w' = ∅.
Proof.
  eassert (_handle_session_health_check Mock.alice (Some (Mock.info 5))
             (Mock.world Mock.silent ∅) = (Raise _, _)) as Hrun by (vm_compute; reflexivity).
  destruct (health_check_never_creates Mock.alice _ _ _ _ Hrun)
    as (evs & _ & Hp & _ & _ & _ & He).
  eexists. split; [exact Hrun | exact Hp].
Defined.

Lemma execute_submits_to_healthy_witness :
  ∃ w' evs,
    _execute Mock.alice (Some (Mock.info 5)) "pyspark" "1 + 1"
      (Mock.world (Desk.serving 1 [] [] []) ∅)
    = (Ok {| er_id := 0; er_has_result_set := true; er_sync := false |}, w')
    ∧ trace w' = evs ++ []
    ∧ closed evs = [].
Proof.
  eassert (_execute Mock.alice (Some (Mock.info 5)) "pyspark" "1 + 1"
             (Mock.world (Desk.serving 1 [] [] []) ∅) = (Ok _, _)) as Hrun
    by (vm_compute; reflexivity).
  destruct (execute_submits_to_healthy Mock.alice _ _ _ _ _ _ Hrun)
    as (evs & Htr & Hc & _).
  eexists _, evs. split; [exact Hrun|]. by split.
Defined.

Lemma check_status_translates_errors_witness :
  ∃ w',
    check_status Mock.alice (Some (Mock.info 5)) 0
      (Mock.world (Desk.serving 1 [Raise Desk.not_found] [] []) ∅)
    = (Raise (SessionExpired Desk.not_found), w').
Proof.
  eassert (_handle_session_health_check Mock.alice (Some (Mock.info 5))
             (Mock.world (Desk.serving 1 [Raise Desk.not_found] [] []) ∅) = (Ok _, _))
    as Hs by (vm_compute; reflexivity).
  match type of Hs with _ = (_, ?w1) =>
    eassert (api_fetch_data (Some 5) 0 (remote w1) = (Raise _, _)) as Hfetch by reflexivity
  end.
  destruct (check_status_translates_errors Mock.alice _ 0 _ _ _ _ _ Hs Hfetch)
    as (r & w' & Hrun & _ & _ & e' & -> & Hyes & _).
  exists w'. rewrite Hrun. do 2 f_equal. apply Hyes.
  right. exists "5". split_and!; [done..|]. by exists "", ".".
Defined.

Lemma fetch_result_translates_errors_witness :
  ∃ w',
    _fetch_result Desk.str_value (Some 5) 0 true
      (Mock.world (Desk.serving 0 [Raise (Exception "[Errno 111] Connection refused")] [] [])
         ∅)
    = (Raise (Exception "[Errno 111] Connection refused"), w').
Proof.
  eassert (api_fetch_data (Some 5) 0
             (remote (Mock.world (Desk.serving 0
                        [Raise (Exception "[Errno 111] Connection refused")] [] []) ∅))
           = (Raise _, _)) as Hfetch by reflexivity.
  destruct (fetch_result_translates_errors Desk.str_value (Some 5) 0 true _ _ _ Hfetch)
    as (e' & w' & Hrun & Hiff & Hno & _).
  exists w'. rewrite Hrun. do 2 f_equal. apply Hno.
  intros Hyes%session_not_found_spec. by vm_compute in Hyes; destruct Hyes.
Defined.
End SessionRuns.

Section NotebookRuns.
Import Py SparkApi Runs Endpoints.

Lemma error_status_raises_witness :
  (_fetch_result Desk.str_value (Some 5) 0 true (Mock.fetching Desk.error_output)).1
  = Raise (QueryError "NameError: name 'x' is not defined")
  ∧ (_fetch_result Desk.str_value (Some 5) 0 true (Mock.fetching Desk.traceback_output)).1
    = Raise (QueryError
               "Traceback (most recent call last): NameError: name 'x' is not defined").
Proof.
  split.
  - eassert (api_fetch_data (Some 5) 0 (remote (Mock.fetching Desk.error_output))
             = (Ok _, _)) as Hfetch by reflexivity.
    destruct (error_status_raises Desk.str_value (Some 5) 0 true _ _ _ _
                Hfetch eq_refl eq_refl) as (_ & _ & Hno).
    destruct Hno as (msg & -> & _ & Hmsg); [by right|].
    do 2 f_equal. by apply (Hmsg (VStr "NameError") (VStr "name 'x' is not defined")).
  - eassert (api_fetch_data (Some 5) 0 (remote (Mock.fetching Desk.traceback_output))
             = (Ok _, _)) as Hfetch by reflexivity.
    destruct (error_status_raises Desk.str_value (Some 5) 0 true _ _ _ _
                Hfetch eq_refl eq_refl) as (_ & Htb & _).
    by apply (Htb ["Traceback (most recent call last): ";
                   "NameError: name 'x' is not defined"]).
Defined.

Lemma fetch_result_then_sweep_witness :
  let w := Mock.world
             (Desk.serving 1 [Ok {| fr_state := "available"; fr_output := Mock.text_output |}]
                [Ok [Mock.session 1 "alice" "idle"]] [Raise Desk.not_found])
             (Mock.stored 5) in
  ∃ p w2,
    _fetch_result Desk.str_value (Some 5) 0 true
      (_handle_session_health_check Mock.alice (Some (Mock.info 5)) w).2 = (Ok (Some p), w2)
    ∧ (fetch_result Mock.alice Desk.str_value (Some (Mock.info 5)) 0 true w).1
      = Raise (SessionExpired Desk.not_found).
Proof.
  intros w.
  eassert (_handle_session_health_check Mock.alice (Some (Mock.info 5)) w = (Ok _, _))
    as Hs by (vm_compute; reflexivity).
  match type of Hs with _ = (Ok ?s, ?w1) =>
    eassert (_fetch_result Desk.str_value (si_id s) 0 true w1 = (Ok (Some _), _)) as Hfetch
      by (vm_compute; reflexivity)
  end.
  destruct (fetch_result_then_sweep Mock.alice Desk.str_value _ _ _ _ _ _ _ _ Hs Hfetch)
    as (_ & _ & Hstored).
  eexists _, _. split; [rewrite Hs; exact Hfetch|].
  rewrite Hstored by (by eexists). reflexivity.
Defined.

Lemma cancel_is_best_effort_witness :
  ∃ w',
    @cancel _ _ (Desk.log_api (Raise (Exception "Boom")) (Ok (VStr "")))
      Mock.alice (Some (Mock.info 5)) (Mock.world (Desk.serving 1 [] [] []) ∅)
    = (Ok 0, w')
    ∧ logged (trace w') = [(DEBUG, "boom")].
Proof.
  eassert (_handle_session_health_check Mock.alice (Some (Mock.info 5))
             (Mock.world (Desk.serving 1 [] [] []) ∅) = (Ok _, _))
    as Hs by (vm_compute; reflexivity).
  eexists. split.
  - apply (proj1 (@cancel_is_best_effort _ _
                    (Desk.log_api (Raise (Exception "Boom")) (Ok (VStr "")))
                    Mock.alice (Some (Mock.info 5)) _) _ _ _ _ Hs eq_refl).
  - reflexivity.
Defined.

Lemma get_log_swallows_rest_errors_witness :
  ∃ w',
    @get_log _ _ (Desk.log_api (Ok tt) (Raise (RestException 500 "Internal Server Error")))
      Mock.alice (Some (Mock.info 5)) 0 None (Mock.world (Desk.serving 1 [] [] []) ∅)
    = (Ok (VDict [(VStr "status", VInt 0)]), w')
    ∧ logged (trace w') = [(DEBUG, "internal server error")].
Proof.
  eassert (_handle_session_health_check Mock.alice (Some (Mock.info 5))
             (Mock.world (Desk.serving 1 [] [] []) ∅) = (Ok _, _))
    as Hs by (vm_compute; reflexivity).
  destruct (@get_log_swallows_rest_errors _ _
              (Desk.log_api (Ok tt) (Raise (RestException 500 "Internal Server Error")))
              Mock.alice (Some (Mock.info 5)) 0 None _ _ _ _ _ Hs eq_refl)
    as (w' & Hrun & _ & _ & Htr).
  exists w'. split; [exact Hrun|]. by rewrite Htr.
Defined.

Lemma get_jobs_by_mode_witness :
  (@get_jobs _ _ (Desk.log_api (Ok tt) (Ok (VStr Desk.yarn_log)))
     Mock.alice "yarn" (Some (Mock.info 5)) Jobs.sample_log
     (Mock.world (Desk.serving 1 [] [] []) ∅)).1
  = Ok (Yarn._get_yarn_jobs Desk.yarn_log)
  ∧ (@get_jobs _ _ (Desk.log_api (Ok tt) (Raise (RestException 500 "Internal Server Error")))
       Mock.alice "yarn" (Some (Mock.info 5)) Jobs.sample_log
       (Mock.world (Desk.serving 1 [] [] []) ∅)).1
    = Raise (TypeError "expected string or bytes-like object")
  ∧ (@get_jobs _ _ (Desk.log_api (Ok tt) (Ok (VStr Desk.yarn_log)))
       Mock.alice "local" (Some (Mock.info 5)) Jobs.sample_log
       (Mock.world Mock.silent ∅)).1
    = Ok (Jobs._get_standalone_jobs Jobs.sample_log).2.
Proof.
  eassert (_handle_session_health_check Mock.alice (Some (Mock.info 5))
             (Mock.world (Desk.serving 1 [] [] []) ∅) = (Ok _, _))
    as Hs by (vm_compute; reflexivity).
  split_and!.
  - apply (proj2 (@get_jobs_by_mode _ _ (Desk.log_api (Ok tt) (Ok (VStr Desk.yarn_log)))
                    Mock.alice "yarn" (Some (Mock.info 5)) Jobs.sample_log _)
             eq_refl _ _ _ _ Hs eq_refl).
  - apply (proj2 (@get_jobs_by_mode _ _
                    (Desk.log_api (Ok tt) (Raise (RestException 500 "Internal Server Error")))
                    Mock.alice "yarn" (Some (Mock.info 5)) Jobs.sample_log _)
             eq_refl _ _ _ _ Hs eq_refl).
  - destruct (proj1 (@get_jobs_by_mode _ _ (Desk.log_api (Ok tt) (Ok (VStr Desk.yarn_log)))
                       Mock.alice "local" (Some (Mock.info 5)) Jobs.sample_log
                       (Mock.world Mock.silent ∅)) ltac:(discriminate))
      as (w' & Hrun & _).
    by rewrite Hrun.
Defined.

Lemma close_session_other_failures_witness :
  ∃ w',
    close_session Mock.alice (Some 5)
      (Mock.world (Mock.answering (Raise (RestException 403 "Forbidden")) (Ok 0))
         (Mock.stored 5))
    = (Ok None, w')
    ∧ profile w' !! "alice-pyspark" = None
    ∧ logged (trace w') = [].
Proof.
  eassert (api_close (Some 5)
             (remote (Mock.world (Mock.answering (Raise (RestException 403 "Forbidden"))
                                    (Ok 0)) (Mock.stored 5))) = (Raise _, _))
    as Hclose by reflexivity.
  destruct (close_session_other_failures Mock.alice _ _ _ _ Hclose)
    as (w' & Hrun & Hlog & Hstored & _).
  { intros (code & msg & [= <- <-] & [? | ?]); done. }
  exists w'. split; [exact Hrun|]. split; [|exact Hlog].
  by apply (Hstored (Mock.info 5)).
Defined.

Lemma sweep_closes_only_unused_witness :
  ∃ w',
    _close_unused_sessions Mock.alice
      (Mock.world (Mock.listing (Raise Desk.not_found)) (Mock.stored 3))
    = (Raise (SessionExpired Desk.not_found), w')
    ∧ profile w' = Mock.stored 3
    ∧ rev (closed (trace w')) `prefix_of` [Some 1; Some 4; Some 5].
Proof.
  eassert (_close_unused_sessions Mock.alice
             (Mock.world (Mock.listing (Raise Desk.not_found)) (Mock.stored 3)) = (_, _))
    as Hrun by (vm_compute; reflexivity).
  eassert (api_get_sessions
             (remote (Mock.world (Mock.listing (Raise Desk.not_found)) (Mock.stored 3)))
           = (Ok _, _)) as Hget by reflexivity.
  destruct (sweep_closes_only_unused Mock.alice _ _ _ _ _ Hget Hrun)
    as (evs & Htr & Hp & _ & Hpre & _).
  eexists. split; [exact Hrun|]. split; [exact Hp|].
  rewrite Htr. simpl. rewrite app_nil_r. exact Hpre.
Defined.
End NotebookRuns.

Section Texts.
Import Py SparkConfiguration Props MergeSpec Re Jobs Yarn.

Lemma yarn_jobs_carry_tracking_urls_witness :
  _get_yarn_jobs Desk.yarn_log
  = [{| name := "application_1_0001";
        url := "http://rm.example.com:8088/proxy/application_1_0001/" |}]
  ∧ Logs.tracking_url_given Desk.yarn_log
      "http://rm.example.com:8088/proxy/application_1_0001/".
Proof.
  assert (_get_yarn_jobs Desk.yarn_log
          = [{| name := "application_1_0001";
                url := "http://rm.example.com:8088/proxy/application_1_0001/" |}]) as Hjobs
    by (vm_compute; reflexivity).
  split; [exact Hjobs|].
  apply (proj2 (yarn_jobs_carry_tracking_urls Desk.yarn_log)
           {| name := "application_1_0001";
              url := "http://rm.example.com:8088/proxy/application_1_0001/" |}).
  rewrite Hjobs. apply list_elem_of_here.
Defined.

Lemma get_livy_props_returns_iff_witness :
  (∃ props, get_livy_props "scala" Conf.proxy_user_and_conf = Ok props)
  ∧ ¬ ∃ props, get_livy_props "scala" (Some [property "jars" (VInt 3)]) = Ok props.
Proof.
  split.
  - apply get_livy_props_returns_iff. split_and!.
    + intros ps [= <-]. repeat constructor; (eexists; split; [reflexivity|]);
        by intros k v [= <-] _.
    + intros n v Hn Hv. repeat (apply elem_of_cons in Hn as [-> | Hn]);
        [injection Hv as <-; exact I ..|]. by apply elem_of_nil in Hn.
    + intros v [= <-]. repeat constructor; by eexists _, _.
  - intros (_ & Hcsv & _)%get_livy_props_returns_iff.
    apply (Hcsv "jars" (VInt 3)); [set_solver | reflexivity].
Defined.
End Texts.
